(** * MultiFormatTranscriber: a shallow embedding of the two scripts

    The repository holds two near-duplicate command-line scripts,
    [transcriber.py] and [whisper_transcriber.py].  Both prompt for a
    configuration, list a directory, order the files, optionally convert
    a file with an external converter and hand it to a speech model.

    The embedding keeps the structure of the scripts:
    - strings are [string], sequences of characters with code points
      below 256; the [str] methods the scripts call are written out for
      that alphabet;
    - [os.path] is the POSIX flavour ([posixpath]);
    - the file system is a finite map from paths to nodes;
    - the console (what is printed and what [input] asks), the spawned
      processes, the model loads, the model calls and the files written
      are recorded in a trace of events;
    - exceptions are values threaded by a small state-and-error monad,
      with [try_except] for the [try]/[except] blocks;
    - what the scripts delegate (the converter, the model, the directory
      listing and the file times) is a record of oracles, [Env].

    Shared functions come first, then one module per script, then the
    theorems. *)

From Stdlib Require Import ZArith NArith Ascii String List Bool Lia.
From Stdlib Require Import Sorting.Sorted Sorting.Permutation.
From stdpp Require Import base option list gmap strings.

Local Open Scope string_scope.
Local Open Scope Z_scope.

(** ** Strings: the [str] methods the scripts use *)

Module Str.

Definition is_digit (c : ascii) : bool :=
    let n := N_of_ascii c in ((48 <=? n) && (n <=? 57))%N.

Definition digit_val (c : ascii) : N := (N_of_ascii c - 48)%N.

  (** The characters [str.lower] changes, read as code points below 256:
      the letters A-Z and the capital letters 192-222 of Latin-1 (215 is the
      multiplication sign); each goes 32 up. *)
Definition is_upper (c : ascii) : bool :=
    let n := N_of_ascii c in
    (((65 <=? n) && (n <=? 90))
     || ((192 <=? n) && (n <=? 222) && negb (n =? 215)))%N.

  (** The characters [str.upper] changes to a character below 256: the
      letters a-z and the small letters 224-254 of Latin-1 (247 is the
      division sign); each goes 32 down.  [str.upper] takes three more
      characters out of the alphabet (the micro sign 181, the sharp s 223
      and the y with diaeresis 255); they are left as they are here, and a
      string that holds one is no valid answer to a prompt either way. *)
Definition is_lower (c : ascii) : bool :=
    let n := N_of_ascii c in
    (((97 <=? n) && (n <=? 122))
     || ((224 <=? n) && (n <=? 254) && negb (n =? 247)))%N.

  (** [str.isspace] on a single character, read as a code point below
      256: space, tab, newline, vertical tab, form feed, carriage return,
      the separators 28-31, next line (133) and no-break space (160). *)
Definition is_space (c : ascii) : bool :=
    let n := N_of_ascii c in
    ((n =? 32) || ((9 <=? n) && (n <=? 13)) || ((28 <=? n) && (n <=? 31))
     || (n =? 133) || (n =? 160))%N.

Definition lower_char (c : ascii) : ascii :=
    if is_upper c then ascii_of_N (N_of_ascii c + 32) else c.

Definition upper_char (c : ascii) : ascii :=
    if is_lower c then ascii_of_N (N_of_ascii c - 32) else c.

Fixpoint map (f : ascii -> ascii) (s : string) : string :=
    match s with
    | EmptyString => EmptyString
    | String c s' => String (f c) (map f s')
    end.

Definition lower (s : string) : string := map lower_char s.
Definition upper (s : string) : string := map upper_char s.

  (** [str.capitalize]: first character upper-cased, the rest lower-cased. *)
Definition capitalize (s : string) : string :=
    match s with
    | EmptyString => EmptyString
    | String c s' => String (upper_char c) (lower s')
    end.

Fixpoint lstrip (s : string) : string :=
    match s with
    | String c s' => if is_space c then lstrip s' else s
    | EmptyString => EmptyString
    end.

Fixpoint rev_onto (s acc : string) : string :=
    match s with
    | EmptyString => acc
    | String c s' => rev_onto s' (String c acc)
    end.

Definition rev (s : string) : string := rev_onto s EmptyString.

Definition rstrip (s : string) : string := rev (lstrip (rev s)).

Definition strip (s : string) : string := rstrip (lstrip s).

  (** [s.rfind(c)]: index of the last occurrence of [c], or [-1]. *)
Fixpoint rfind_from (c : ascii) (s : string) (i last : Z) : Z :=
    match s with
    | EmptyString => last
    | String d s' => rfind_from c s' (i + 1) (if Ascii.eqb d c then i else last)
    end.

Definition rfind (c : ascii) (s : string) : Z := rfind_from c s 0 (-1).

  (** [s[i:j]] for [0 <= i]; an empty string when [j <= i]. *)
Definition slice (i j : Z) (s : string) : string :=
    substring (Z.to_nat i) (Z.to_nat (j - i)) s.

  (** [s[i:]] and [s[:j]] *)
Definition from (i : Z) (s : string) : string :=
    slice i (Z.of_nat (String.length s)) s.
Definition upto (j : Z) (s : string) : string := slice 0 j s.

Fixpoint forallb (p : ascii -> bool) (s : string) : bool :=
    match s with
    | EmptyString => true
    | String c s' => p c && forallb p s'
    end.

Definition startswith (c : ascii) (s : string) : bool :=
    match s with
    | String d _ => Ascii.eqb d c
    | EmptyString => false
    end.

Definition endswith (c : ascii) (s : string) : bool := startswith c (rev s).

  (** [s.rstrip(c)] for a single character [c] *)
Fixpoint lstrip_char (c : ascii) (s : string) : string :=
    match s with
    | String d s' => if Ascii.eqb d c then lstrip_char c s' else s
    | EmptyString => EmptyString
    end.

Definition rstrip_char (c : ascii) (s : string) : string :=
    rev (lstrip_char c (rev s)).

End Str.

(** [x in xs] for a list of strings *)
Definition str_in (x : string) (xs : list string) : bool :=
  existsb (String.eqb x) xs.

(** ** [os.path] (POSIX) *)

Module Path.

  (** [os.path.join(a, b)] *)
Definition join (a b : string) : string :=
    if Str.startswith "/" b then b
    else if (String.eqb a "") || Str.endswith "/" a then a ++ b
    else a ++ "/" ++ b.

  (** [os.path.splitext(p)]: the extension starts at the last dot of the
      last path component, unless that component has only dots before it. *)
Definition splitext (p : string) : string * string :=
    let sepIndex := Str.rfind "/" p in
    let dotIndex := Str.rfind "." p in
    if (sepIndex <? dotIndex)
       && negb (Str.forallb (fun c => Ascii.eqb c ".")
                            (Str.slice (sepIndex + 1) dotIndex p))
    then (Str.upto dotIndex p, Str.from dotIndex p)
    else (p, "").

  (** [os.path.basename(p)] *)
Definition basename (p : string) : string :=
    Str.from (Str.rfind "/" p + 1) p.

  (** [os.path.dirname(p)] *)
Definition dirname (p : string) : string :=
    let head := Str.upto (Str.rfind "/" p + 1) p in
    if negb (String.eqb head "") && negb (Str.forallb (fun c => Ascii.eqb c "/") head)
    then Str.rstrip_char "/" head
    else head.

End Path.

(** ** [extract_number]

    [re.search(r'\((\d+)\)', filename)] finds the leftmost position where
    an opening parenthesis is followed by one or more digits and a closing
    parenthesis; [int(match.group(1))] is the value of those digits.
    Both scripts define the function with the same body. *)

(** After an opening parenthesis: the greedy run of digits, which must be
    non-empty and closed by a parenthesis.  [acc] is [None] until a digit
    has been read. *)
Fixpoint digits_then_close (s : string) (acc : option N) : option N :=
  match s with
  | EmptyString => None
  | String c s' =>
      if Str.is_digit c
      then digits_then_close s' (Some (10 * default 0%N acc + Str.digit_val c)%N)
      else if Ascii.eqb c ")" then acc else None
  end.

Fixpoint extract_number (filename : string) : option N :=
  match filename with
  | EmptyString => None
  | String c s' =>
      if Ascii.eqb c "("
      then match digits_then_close s' None with
           | Some n => Some n
           | None => extract_number s'
           end
      else extract_number s'
  end.

(** ** Sorting: [list.sort(key=..., reverse=...)]

    The keys the scripts sort by are Python numbers: a time stamp, an
    [int], or [float('inf')].  Time stamps are taken in a fixed unit as
    integers; only their order matters. *)

Inductive pynum : Type :=
| Num (z : Z)
| PosInf.

(** [a < b] on those numbers *)
Definition pynum_lt (a b : pynum) : bool :=
  match a, b with
  | Num x, Num y => x <? y
  | Num _, PosInf => true
  | PosInf, _ => false
  end.

(** [a == b] on those numbers *)
Definition pynum_eqb (a b : pynum) : bool :=
  match a, b with
  | Num x, Num y => x =? y
  | PosInf, PosInf => true
  | _, _ => false
  end.

(** [list.sort] is a stable sort that only asks [<] of the keys.  A stable
    sort is determined by the list and the keys, so it is written here as
    the insertion sort; with [reverse=True] every comparison is reversed. *)
Section ListSort.
Context {A : Type}.
Variable key : A -> pynum.
Variable reverse : bool.

Definition key_lt (x y : A) : bool :=
    if reverse then pynum_lt (key y) (key x) else pynum_lt (key x) (key y).

Fixpoint insert_stable (x : A) (l : list A) : list A :=
    match l with
    | [] => [x]
    | y :: l' =>
        if key_lt y x then y :: insert_stable x l' else x :: y :: l'
    end.

Fixpoint list_sort (l : list A) : list A :=
    match l with
    | [] => []
    | x :: l' => insert_stable x (list_sort l')
    end.
End ListSort.

(** ** The world the scripts run in *)

Inductive node : Type :=
| File (content : string)
| Dir.

(** Exceptions.  Every constructor is a subclass of [Exception];
    [KeyboardInterrupt] and [SystemExit] are outside the model. *)
Inductive exn : Type :=
| EOFError
| CalledProcessError (cmd : list string) (returncode : Z)
| OSError (reason : string)
| RuntimeError (reason : string).

Definition is_CalledProcessError (e : exn) : bool :=
  match e with CalledProcessError _ _ => true | _ => false end.

Definition is_Exception (e : exn) : bool :=
  match e with
  | EOFError | CalledProcessError _ _ | OSError _ | RuntimeError _ => true
  end.

(** A loaded model: [m_id] tells two loads apart. *)
Record model : Type := Model {
  m_id : nat;
  m_name : string;
  m_device : string
}.

(** The lines the scripts print.  A constructor stands for one f-string
    of the source; [has_timestamp] tells which of them start with
    [datetime.now().strftime('%d/%m/%Y %H:%M')]. *)
Inductive msg : Type :=
| FileHeader (file : string)
| StartingConversion (file ext : string)
| ConversionCompleted (input output : string)
| ConversionError (input : string) (e : exn)
| AlreadyConverted (file : string)
| StartingTranscription (file : string)
| TranscriptionCompleted (file : string)
| TranscriptionError (file : string) (e : exn)
| SkippingUnsupported (file : string)
| LoadingModel (name device : string)
| ModelLoaded
| Separator.

Definition has_timestamp (m : msg) : bool :=
  match m with
  | FileHeader _ | Separator => false
  | _ => true
  end.

(** The texts [input] is called with.  A constructor stands for the
    prompt of one function; [Ask again q] is the first text of the
    function when [again] is [false] and the text of its [while] loop
    otherwise.  The two scripts word some of these texts differently (the
    list of models is quoted in one and joined from [AVAILABLE_MODELS] in
    the other, the second text of the output path names a folder in one
    and a path in the other): the trace keeps which prompt asks, not its
    wording.  [get_output_path] has one first text for a single file and
    another for a folder. *)
Inductive question : Type :=
| AskDevice
| AskModel
| AskInputPath
| AskLanguage
| AskOutputPath (single_file : bool)
| AskOrder.

Inductive event : Type :=
| Ask (again : bool) (q : question)                 (* input(...) writes its text *)
| Print (m : msg)                                   (* print(...) *)
| Spawn (cmd : list string) (check : bool)          (* subprocess.run(...) *)
| LoadModel (m : model)                             (* whisper.load_model(...) *)
| Transcribe (m : model) (path language : string)   (* model.transcribe(...) *)
| WriteFile (path text : string).                   (* open(path, "w"); f.write(text) *)

(** What becomes of a process [subprocess.run] is asked to run: the
    program cannot be started ([FileNotFoundError], [PermissionError]:
    an [OSError]), or it runs to completion with an exit status and leaves
    a file system. *)
Inductive process_result : Type :=
| NotStarted (reason : string)
| Exited (status : Z) (f : gmap string node).

(** What the scripts delegate.
    - [spawn fs cmd]: what becomes of the external process.
    - [whisper m audio language]: the text, or the exception the model
      raises, for the content of an audio file.
    - [open_w fs path]: the exception raised by opening [path] for
      writing, if any.
    - [write_w path text]: the exception raised while [text] is written to
      the opened file and the file is closed, if any, with the content the
      file is left with. *)
Record Env : Type := {
  cuda_is_available : bool;
  listdir : string -> list string;
  getctime : string -> Z;
  getmtime : string -> Z;
  spawn : gmap string node -> list string -> process_result;
  whisper : model -> string -> string -> exn + string;
  open_w : gmap string node -> string -> option exn;
  write_w : string -> string -> option (exn * string)
}.

Record World : Type := {
  fs : gmap string node;
  stdin : list string;
  next_model : nat
}.

Definition set_fs (w : World) (f : gmap string node) : World :=
  {| fs := f; stdin := stdin w; next_model := next_model w |}.
Definition set_stdin (w : World) (l : list string) : World :=
  {| fs := fs w; stdin := l; next_model := next_model w |}.
Definition bump_model (w : World) : World :=
  {| fs := fs w; stdin := stdin w; next_model := S (next_model w) |}.

(** ** The monad: state, trace and exceptions *)

Record Run (A : Type) : Type := mkRun {
  outcome : exn + A;
  world : World;
  events : list event
}.
Arguments mkRun {A} _ _ _.
Arguments outcome {A} _.
Arguments world {A} _.
Arguments events {A} _.

Definition M (A : Type) : Type := World -> Run A.

Definition ret {A} (a : A) : M A := fun w => mkRun (inr a) w [].

Definition raise {A} (e : exn) : M A := fun w => mkRun (inl e) w [].

Definition bind {A B} (c : M A) (k : A -> M B) : M B := fun w =>
  let r := c w in
  match outcome r with
  | inl e => mkRun (inl e) (world r) (events r)
  | inr a =>
      let r' := k a (world r) in
      mkRun (outcome r') (world r') (events r ++ events r')
  end.

(** [try: c  except <handles> as e: h e] *)
Definition try_except {A} (c : M A) (handles : exn -> bool) (h : exn -> M A) : M A :=
  fun w =>
  let r := c w in
  match outcome r with
  | inl e =>
      if handles e
      then let r' := h e (world r) in
           mkRun (outcome r') (world r') (events r ++ events r')
      else r
  | inr _ => r
  end.

Notation "'let!' x ':=' c 'in' k" := (bind c (fun x => k))
  (at level 10, x name, c at level 100, k at level 200).
Notation "c '>>' k" := (bind c (fun _ => k))
  (at level 100, k at level 200, right associativity).

Definition emit (e : event) : M unit := fun w => mkRun (inr tt) w [e].

Definition print (m : msg) : M unit := emit (Print m).

Definition get_fs : M (gmap string node) := fun w => mkRun (inr (fs w)) w [].

(** [for x in l: body x] *)
Fixpoint for_each {A} (l : list A) (body : A -> M unit) : M unit :=
  match l with
  | [] => ret tt
  | x :: l' => body x >> for_each l' body
  end.

(** [os.path.exists], [os.path.isfile], [os.path.isdir] *)
Definition path_exists (f : gmap string node) (p : string) : bool :=
  match f !! p with Some _ => true | None => false end.
Definition isfile (f : gmap string node) (p : string) : bool :=
  match f !! p with Some (File _) => true | _ => false end.
Definition isdir (f : gmap string node) (p : string) : bool :=
  match f !! p with Some Dir => true | _ => false end.

(** [input(text)]: the text is written, then the next line of the
    standard input is read; [EOFError] at its end. *)
Definition input (again : bool) (q : question) : M string := fun w =>
  match stdin w with
  | [] => mkRun (inl EOFError) w [Ask again q]
  | l :: rest => mkRun (inr l) (set_stdin w rest) [Ask again q]
  end.

(** [while not valid(answ): answ = norm(input(...))], entered with an
    invalid [answ]: the loop asks and reads until a line is valid.  The
    result, the lines left and the events of the loop. *)
Fixpoint read_until (q : question) (norm : string -> string)
    (valid : string -> bool) (lines : list string)
    : (exn + string) * list string * list event :=
  match lines with
  | [] => (inl EOFError, [], [Ask true q])
  | l :: rest =>
      if valid (norm l) then (inr (norm l), rest, [Ask true q])
      else let '(r, rest', evs) := read_until q norm valid rest in
           (r, rest', Ask true q :: evs)
  end.

(** [answ = norm1(input(...)); while not valid(answ): answ = norm2(input(...))] *)
Definition prompt (q : question) (norm1 norm2 : string -> string)
    (valid : gmap string node -> string -> bool) : M string :=
  let! answ := input false q in
  fun w =>
    if valid (fs w) (norm1 answ) then mkRun (inr (norm1 answ)) w []
    else let '(r, rest, evs) := read_until q norm2 (valid (fs w)) (stdin w) in
         mkRun r (set_stdin w rest) evs.

(** [whisper.load_model(name, device=device)] *)
Definition load_model (name device : string) : M model := fun w =>
  let m := Model (next_model w) name device in
  mkRun (inr m) (bump_model w) [LoadModel m].

(** [subprocess.run(cmd, stderr=devnull, check=check)]: a program that
    cannot be started raises an [OSError]; with [check=True] a nonzero exit
    status raises [CalledProcessError]. *)
Definition subprocess_run (env : Env) (cmd : list string) (check : bool) : M unit :=
  fun w =>
  match spawn env (fs w) cmd with
  | NotStarted reason => mkRun (inl (OSError reason)) w [Spawn cmd check]
  | Exited status f =>
      mkRun (if check && negb (status =? 0)
             then inl (CalledProcessError cmd status)
             else inr tt)
            (set_fs w f) [Spawn cmd check]
  end.

(** [model.transcribe(path, language=language)["text"]]: the model reads
    the file at [path]; a path that is not a regular file fails to load. *)
Definition model_transcribe (env : Env) (m : model) (path language : string) : M string :=
  fun w =>
  mkRun (match fs w !! path with
         | Some (File audio) => whisper env m audio language
         | _ => inl (RuntimeError "Failed to load audio")
         end)
        w [Transcribe m path language].

(** [with open(path, "w", encoding="utf-8") as f: f.write(text)]: opening
    truncates the file; the write can still fail, and then the file holds
    what the failed write left. *)
Definition write_file (env : Env) (path text : string) : M unit := fun w =>
  match open_w env (fs w) path with
  | Some e => mkRun (inl e) w []
  | None =>
      match write_w env path text with
      | Some (e, remains) =>
          mkRun (inl e) (set_fs w (<[path := File remains]> (fs w))) []
      | None =>
          mkRun (inr tt) (set_fs w (<[path := File text]> (fs w)))
                [WriteFile path text]
      end
  end.
(** ** Functions with the same body in both scripts

    The same up to the wording of the texts they print. *)

Definition AVAILABLE_MODELS : list string :=
  ["tiny"; "base"; "small"; "medium"; "large-v2"; "large-v3"].

Definition AVAILABLE_LANGUAGES : list string :=
  ["Afrikaans"; "Arabic"; "Armenian"; "Azerbaijani"; "Belarusian"; "Bosnian";
   "Bulgarian"; "Catalan"; "Chinese"; "Croatian"; "Czech"; "Danish"; "Dutch";
   "English"; "Estonian"; "Finnish"; "French"; "Galician"; "German"; "Greek";
   "Hebrew"; "Hindi"; "Hungarian"; "Icelandic"; "Indonesian"; "Italian";
   "Japanese"; "Kannada"; "Kazakh"; "Korean"; "Latvian"; "Lithuanian";
   "Macedonian"; "Malay"; "Marathi"; "Maori"; "Nepali"; "Norwegian"; "Persian";
   "Polish"; "Portuguese"; "Romanian"; "Russian"; "Serbian"; "Slovak";
   "Slovenian"; "Spanish"; "Swahili"; "Swedish"; "Tagalog"; "Tamil"; "Thai";
   "Turkish"; "Ukrainian"; "Urdu"; "Vietnamese"; "Welsh"].

Definition get_device (env : Env) : string :=
  if cuda_is_available env then "cuda" else "cpu".

Definition user_device_choice : M string :=
  let norm := fun l => Str.upper (Str.strip l) in
  prompt AskDevice norm norm
         (fun _ answ => String.eqb answ "Y" || String.eqb answ "N").

Definition get_model_name : M string :=
  let norm := fun l => Str.lower (Str.strip l) in
  prompt AskModel norm norm (fun _ answ => str_in answ AVAILABLE_MODELS).

Definition get_language : M string :=
  let norm := fun l => Str.capitalize (Str.strip l) in
  prompt AskLanguage norm norm (fun _ answ => str_in answ AVAILABLE_LANGUAGES).

Definition get_order_criterion : M string :=
  let available_choises := ["1"; "2"; "3"; "4"; "5"; "6"] in
  prompt AskOrder Str.strip (fun l => Str.lower (Str.strip l))
         (fun _ answ => str_in answ available_choises).

(** The key of criterion "5":
    [extract_number(x) if extract_number(x) is not None else float('inf')] *)
Definition number_key (x : string) : pynum :=
  match extract_number x with
  | Some n => Num (Z.of_N n)
  | None => PosInf
  end.

(** The [if]/[elif] chain on [order_criterion] of
    [transcribe_multiple_files], the same in both scripts. *)
Definition sort_files (env : Env) (in_path order_criterion : string)
    (files : list string) : list string :=
  if String.eqb order_criterion "1" then
    list_sort (fun x => Num (getctime env (Path.join in_path x))) false files
  else if String.eqb order_criterion "2" then
    list_sort (fun x => Num (getctime env (Path.join in_path x))) true files
  else if String.eqb order_criterion "3" then
    list_sort (fun x => Num (getmtime env (Path.join in_path x))) false files
  else if String.eqb order_criterion "4" then
    list_sort (fun x => Num (getmtime env (Path.join in_path x))) true files
  else if String.eqb order_criterion "5" then
    list_sort number_key false files
  else files.

(** [os.listdir(in_path)] filtered by the list comprehension of
    [transcribe_multiple_files]: regular files with an allow-listed
    extension. *)
Definition supported_files (env : Env) (allowed : list string)
    (f : gmap string node) (in_path : string) : list string :=
  List.filter
    (fun x => isfile f (Path.join in_path x)
              && str_in (Str.lower (Path.splitext x).2) allowed)
    (listdir env in_path).

(** ** transcriber.py *)

Module Transcriber.

Definition EXTENSIONS_SUPPORTED : list string :=
    [".mp3"; ".mp4"; ".mpeg"; ".mpg"; ".mpga"; ".m4a"; ".wav"; ".webm"; ".mkv";
     ".avi"; ".flv"; ".mov"; ".wmv"; ".3gp"; ".3g2"; ".vob"; ".flac"; ".aac";
     ".ogg"; ".wma"; ".ac3"; ".dts"; ".mmf"; ".m4r"; ".mp2"; ".wv"; ".asf";
     ".f4v"; ".m2ts"; ".mts"; ".rm"; ".rmvb"; ".swf"; ".wtv"].

Definition EXTENSIONS_REQUIRING_CONVERSION : list string :=
    [".mkv"; ".avi"; ".flv"; ".mov"; ".wmv"; ".3gp"; ".3g2"; ".vob"; ".flac";
     ".aac"; ".ogg"; ".wma"; ".ac3"; ".dts"; ".mmf"; ".m4r"; ".mp2"; ".wv";
     ".asf"; ".f4v"; ".m2ts"; ".mts"; ".rm"; ".rmvb"; ".swf"; ".wtv"].

Definition get_input_path : M string :=
    prompt AskInputPath Str.strip Str.strip
      (fun f answ => negb (negb (path_exists f answ)
                           || negb (isfile f answ || isdir f answ))).

Definition get_output_path (single_file : bool) : M string :=
    prompt (AskOutputPath single_file) Str.strip Str.strip
      (fun f answ => isdir f answ).

Definition convert_to_mp3 (env : Env) (input_path output_path : string) : M unit :=
    try_except
      (let command := ["ffmpeg"; "-i"; input_path; "-q:a"; "0"; "-map"; "a"; output_path] in
       subprocess_run env command true >>
       print (ConversionCompleted input_path output_path))
      is_CalledProcessError
      (fun e => print (ConversionError input_path e)).

  (** Lines 196-203 of [transcribe_single_file]: the path handed to the
      model, after the conversion if the extension asks for one. *)
Definition resolve_file_path (env : Env) (file in_path : string) : M string :=
    let file_path := Path.join in_path file in
    let file_extension := (Path.splitext file).2 in
    if str_in (Str.lower file_extension) EXTENSIONS_REQUIRING_CONVERSION then
      print (StartingConversion file file_extension) >>
      let mp3_path := Path.join in_path ((Path.splitext file).1 ++ ".mp3") in
      let! f := get_fs in
      (if negb (path_exists f mp3_path)
       then convert_to_mp3 env file_path mp3_path
       else print (AlreadyConverted file)) >>
      ret mp3_path
    else ret file_path.

  (** The body of the [try] block, lines 208-216. *)
Definition transcription_attempt (env : Env) (model : model)
      (file file_path txt_path language : string) : M unit :=
    let! result := model_transcribe env model file_path language in
    write_file env txt_path result >>
    print (TranscriptionCompleted file).

Definition transcribe_single_file (env : Env) (model : model)
      (file in_path out_path language : string) : M unit :=
    print (FileHeader file) >>
    let file_extension := (Path.splitext file).2 in
    let txt_path := Path.join out_path ((Path.splitext file).1 ++ ".txt") in
    if str_in (Str.lower file_extension) EXTENSIONS_SUPPORTED then
      let! file_path := resolve_file_path env file in_path in
      print (StartingTranscription file) >>
      try_except
        (transcription_attempt env model file file_path txt_path language)
        is_Exception
        (fun e => print (TranscriptionError file e))
    else
      print (SkippingUnsupported file).

Definition transcribe_multiple_files (env : Env) (model : model)
      (in_path out_path language order_criterion : string) : M unit :=
    let! f := get_fs in
    let files := supported_files env EXTENSIONS_SUPPORTED f in_path in
    let files := sort_files env in_path order_criterion files in
    for_each files
      (fun file => transcribe_single_file env model file in_path out_path language).

Definition main (env : Env) : M unit :=
    let device := get_device env in
    let! answ := user_device_choice in
    let device := if String.eqb answ "N" then "cpu" else device in
    let! model_name := get_model_name in
    print (LoadingModel model_name device) >>
    let! model := load_model model_name device in
    print ModelLoaded >>
    let! in_path := get_input_path in
    let! language := get_language in
    let! f := get_fs in
    let single_file := isfile f in_path in
    let! out_path := get_output_path single_file in
    if single_file then
      let file := Path.basename in_path in
      let in_path := Path.dirname in_path in
      print Separator >>
      transcribe_single_file env model file in_path out_path language
    else
      let! order_criterion := get_order_criterion in
      print Separator >>
      transcribe_multiple_files env model in_path out_path language order_criterion.

End Transcriber.

(** ** whisper_transcriber.py *)

Module WhisperTranscriber.

Definition extensions : list string :=
    [".mp3"; ".mp4"; ".mpeg"; ".mpg"; ".mpga"; ".m4a"; ".wav"; ".webm"; ".mkv";
     ".avi"; ".flv"; ".mov"; ".wmv"; ".3gp"; ".3g2"; ".vob"; ".flac"; ".aac";
     ".ogg"; ".wma"; ".ac3"; ".dts"; ".mmf"; ".m4r"; ".mp2"; ".wv"; ".asf";
     ".f4v"; ".m2ts"; ".mts"; ".rm"; ".rmvb"; ".swf"; ".wtv"].

  (** The local list of [transcribe_single_file] *)
Definition unsupported_extensions : list string :=
    [".mkv"; ".avi"; ".flv"; ".mov"; ".wmv"; ".3gp"; ".3g2"; ".vob"; ".flac";
     ".aac"; ".ogg"; ".wma"; ".ac3"; ".dts"; ".mmf"; ".m4r"; ".mp2"; ".wv";
     ".asf"; ".f4v"; ".m2ts"; ".mts"; ".rm"; ".rmvb"; ".swf"; ".wtv"].

Definition get_input_path : M string :=
    prompt AskInputPath Str.strip Str.strip (fun f answ => path_exists f answ).

Definition get_output_path (single_file : bool) : M string :=
    if single_file
    then prompt (AskOutputPath true) Str.strip Str.strip
           (fun f answ => path_exists f answ)
    else prompt (AskOutputPath false) Str.strip Str.strip
           (fun f answ => path_exists f answ).

Definition convert_to_mp3 (env : Env) (input_path output_path : string) : M unit :=
    try_except
      (let command := ["ffmpeg"; "-i"; input_path; "-q:a"; "0"; "-map"; "a"; output_path] in
       subprocess_run env command false >>
       print (ConversionCompleted input_path output_path))
      is_CalledProcessError
      (fun e => print (ConversionError input_path e)).

  (** Lines 115-122 of [transcribe_single_file]: the conversion, and the
      value [file_path] holds after it. *)
Definition resolve_file_path (env : Env) (file in_path : string) : M string :=
    let file_path := Path.join in_path file in
    let file_extension := (Path.splitext file).2 in
    if str_in (Str.lower file_extension) unsupported_extensions then
      print (StartingConversion file file_extension) >>
      let mp3_path := Path.join in_path ((Path.splitext file).1 ++ ".mp3") in
      let! f := get_fs in
      (if negb (path_exists f mp3_path)
       then convert_to_mp3 env file_path mp3_path
       else print (AlreadyConverted file)) >>
      ret mp3_path
    else ret file_path.

  (** The body of the [try] block, lines 127-135.  Its first statement
      assigns [file_path] again, from [in_path] and [file]: the value that
      comes in is not read. *)
Definition transcription_attempt (env : Env) (model : model)
      (file file_path in_path txt_path language : string) : M unit :=
    let file_path := Path.join in_path file in
    let! result := model_transcribe env model file_path language in
    write_file env txt_path result >>
    print (TranscriptionCompleted file).

Definition transcribe_single_file (env : Env) (model_name device : string)
      (file in_path out_path language : string) : M unit :=
    print (FileHeader file) >>
    let! model := load_model model_name device in
    let file_extension := (Path.splitext file).2 in
    let txt_path := Path.join out_path ((Path.splitext file).1 ++ ".txt") in
    if str_in (Str.lower file_extension) extensions then
      let! file_path := resolve_file_path env file in_path in
      print (StartingTranscription file) >>
      try_except
        (transcription_attempt env model file file_path in_path txt_path language)
        is_Exception
        (fun e => print (TranscriptionError file e))
    else
      print (SkippingUnsupported file).

Definition transcribe_multiple_files (env : Env) (model_name device : string)
      (in_path out_path language order_criterion : string) : M unit :=
    let! f := get_fs in
    let files := supported_files env extensions f in_path in
    let files := sort_files env in_path order_criterion files in
    for_each files
      (fun file =>
         transcribe_single_file env model_name device file in_path out_path language).

Definition main (env : Env) : M unit :=
    let device := get_device env in
    let! answ := user_device_choice in
    let device := if String.eqb answ "N" then "cpu" else device in
    let! model_name := get_model_name in
    let! in_path := get_input_path in
    let! language := get_language in
    let! f := get_fs in
    let single_file := isfile f in_path in
    let! out_path := get_output_path single_file in
    if single_file then
      let file := Path.basename in_path in
      let in_path := Path.dirname in_path in
      print Separator >>
      transcribe_single_file env model_name device file in_path out_path language
    else
      let! order_criterion := get_order_criterion in
      print Separator >>
      transcribe_multiple_files env model_name device in_path out_path language
        order_criterion.

End WhisperTranscriber.

(** ** Reading a trace *)

(** The files [transcribe_single_file] was entered for, in order: each call
    starts by printing the name of its file. *)
Definition header_of (e : event) : option string :=
  match e with Print (FileHeader file) => Some file | _ => None end.
Definition processed_files (tr : list event) : list string := omap header_of tr.

(** The model loads, in order. *)
Definition load_of (e : event) : option model :=
  match e with LoadModel m => Some m | _ => None end.
Definition loads (tr : list event) : list model := omap load_of tr.

(** The model calls, in order: the model and the path it was given. *)
Definition call_of (e : event) : option (model * string) :=
  match e with Transcribe m path _ => Some (m, path) | _ => None end.
Definition model_calls (tr : list event) : list (model * string) := omap call_of tr.

Definition is_spawn (e : event) : bool :=
  match e with Spawn _ _ => true | _ => false end.

Definition not_a_write (e : event) : Prop :=
  match e with WriteFile _ _ => False | _ => True end.

(** Every event a computation emits satisfies [P], from every world. *)
Definition emits {A} (P : event -> Prop) (c : M A) : Prop :=
  forall w, Forall P (events (c w)).

(** A computation that returns normally from every world. *)
Definition never_raises {A} (c : M A) : Prop :=
  forall w, exists a, outcome (c w) = inr a.

(** A computation whose exceptions all satisfy [Q]. *)
Definition raises_only {A} (Q : exn -> Prop) (c : M A) : Prop :=
  forall w e, outcome (c w) = inl e -> Q e.

(** The exception of a process that [env] could not start. *)
Definition launch_failure (env : Env) (e : exn) : Prop :=
  exists f cmd reason, spawn env f cmd = NotStarted reason /\ e = OSError reason.

(** An environment in which every process can be started. *)
Definition converter_starts (env : Env) : Prop :=
  forall f cmd, exists status f', spawn env f cmd = Exited status f'.

(** What a run of [main] can end with: the end of the standard input, or
    a converter that could not be started. *)
Definition run_failure (env : Env) (e : exn) : Prop :=
  e = EOFError \/ launch_failure env e.

(** A computation that asks questions and leaves no other event. *)
Definition asks_only {A} (c : M A) : Prop :=
  forall w, Forall (fun e => exists again q, e = Ask again q) (events (c w)).

(** The questions asked, in order. *)
Definition ask_of (e : event) : option (bool * question) :=
  match e with Ask again q => Some (again, q) | _ => None end.
Definition questions (tr : list event) : list (bool * question) := omap ask_of tr.

(** [key x <= key y] for the comparison [list_sort] uses *)
Definition key_le {A} (key : A -> pynum) (reverse : bool) (x y : A) : Prop :=
  key_lt key reverse y x = false.

(** ** Sample runs

    A directory [/in] with six entries and an empty directory [/out].  In
    [sample_env] the converter exits with status 1 and writes nothing; in
    [converting_env] it exits with status 0 and writes its last argument;
    in [unstartable_env] it cannot be started.  The model returns a text
    that names the audio it was given. *)

Definition sample_fs : gmap string node :=
  list_to_map
    [("/in", Dir); ("/out", Dir);
     ("/in/b(10).wav", File "B"); ("/in/a.mkv", File "A");
     ("/in/notes.txt", File "N"); ("/in/c(9).mp3", File "C");
     ("/in/sub", Dir); ("/in/d(9).MKV", File "D");
     ("/in/meeting.wav", File "M")].

Definition sample_env : Env := {|
  cuda_is_available := false;
  listdir := fun _ =>
    ["b(10).wav"; "a.mkv"; "notes.txt"; "c(9).mp3"; "sub"; "d(9).MKV"];
  getctime := fun p => Z.of_nat (String.length p);
  getmtime := fun p => - Z.of_nat (String.length p);
  spawn := fun f cmd => Exited 1 f;
  whisper := fun m audio language => inr ("text of " ++ audio);
  open_w := fun f path => None;
  write_w := fun path text => None
|}.

Definition converting_env : Env := {|
  cuda_is_available := true;
  listdir := listdir sample_env;
  getctime := getctime sample_env;
  getmtime := getmtime sample_env;
  spawn := fun f cmd =>
    match List.last cmd "" with
    | "" => Exited 1 f
    | output => Exited 0 (<[output := File "mp3 audio"]> f)
    end;
  whisper := whisper sample_env;
  open_w := open_w sample_env;
  write_w := write_w sample_env
|}.

(** As [sample_env], with a model that fails on the audio of [b(10).wav]. *)
Definition flaky_env : Env := {|
  cuda_is_available := false;
  listdir := listdir sample_env;
  getctime := getctime sample_env;
  getmtime := getmtime sample_env;
  spawn := spawn sample_env;
  whisper := fun m audio language =>
    if String.eqb audio "B" then inl (RuntimeError "out of memory")
    else inr ("text of " ++ audio);
  open_w := open_w sample_env;
  write_w := write_w sample_env
|}.

(** As [flaky_env], with a converter that cannot be started. *)
Definition unstartable_env : Env := {|
  cuda_is_available := false;
  listdir := listdir sample_env;
  getctime := getctime sample_env;
  getmtime := getmtime sample_env;
  spawn := fun f cmd => NotStarted "ffmpeg";
  whisper := whisper flaky_env;
  open_w := open_w sample_env;
  write_w := write_w sample_env
|}.

(** As [sample_env], with an output file that can be opened and not
    written. *)
Definition full_disk_env : Env := {|
  cuda_is_available := false;
  listdir := listdir sample_env;
  getctime := getctime sample_env;
  getmtime := getmtime sample_env;
  spawn := spawn sample_env;
  whisper := whisper sample_env;
  open_w := open_w sample_env;
  write_w := fun path text => Some (OSError "No space left on device", "")
|}.

(** A directory with two files of the same stem. *)
Definition shared_stem_world : World := {|
  fs := list_to_map
          [("/in", Dir); ("/out", Dir);
           ("/in/talk.wav", File "W"); ("/in/talk.mp4", File "V")];
  stdin := [];
  next_model := 0
|}.

Definition sample_world : World := {|
  fs := sample_fs;
  stdin := [" y "; "x"; "Tiny"; "/in"; "italian"; "/out"; "7"; " 5"];
  next_model := 0
|}.

(** ** Vocabulary for the further properties *)

(** [int(ds)] for a string of decimal digits, most significant first. *)
Fixpoint decimal (ds : string) (acc : N) : N :=
  match ds with
  | EmptyString => acc
  | String c ds' => decimal ds' (10 * acc + Str.digit_val c)%N
  end.

Definition int_of_digits (ds : string) : N := decimal ds 0%N.

Definition all_digits (ds : string) : bool := Str.forallb Str.is_digit ds.

(** A string without an opening parenthesis. *)
Definition no_open_paren (s : string) : bool :=
  Str.forallb (fun c => negb (Ascii.eqb c "(")) s.

(** The key [transcribe_multiple_files] sorts by under each criterion that
    sorts. *)
Definition criterion_key (env : Env) (in_path order_criterion : string)
    (x : string) : pynum :=
  if String.eqb order_criterion "1" || String.eqb order_criterion "2"
  then Num (getctime env (Path.join in_path x))
  else if String.eqb order_criterion "3" || String.eqb order_criterion "4"
  then Num (getmtime env (Path.join in_path x))
  else number_key x.

Definition is_write (e : event) : bool :=
  match e with WriteFile _ _ => true | _ => false end.


(** * Facts *)

(** ** The library functions on sample inputs *)

Example splitext_ex1 : Path.splitext "meeting.wav" = ("meeting", ".wav").
Proof. reflexivity. Qed.
Example splitext_ex2 : Path.splitext ".bashrc" = (".bashrc", "").
Proof. reflexivity. Qed.
Example splitext_ex3 : Path.splitext "a.b/c" = ("a.b/c", "").
Proof. reflexivity. Qed.
Example splitext_ex4 : Path.splitext "archive.tar.gz" = ("archive.tar", ".gz").
Proof. reflexivity. Qed.
Example splitext_ex5 : Path.splitext "..x" = ("..x", "").
Proof. reflexivity. Qed.
Example splitext_ex6 : Path.splitext "a." = ("a", ".").
Proof. reflexivity. Qed.
Example join_ex1 : Path.join "/out" "meeting.txt" = "/out/meeting.txt".
Proof. reflexivity. Qed.
Example join_ex2 : Path.join "/out/" "meeting.txt" = "/out/meeting.txt".
Proof. reflexivity. Qed.
Example join_ex3 : Path.join "" "meeting.txt" = "meeting.txt".
Proof. reflexivity. Qed.
Example dirname_ex1 : Path.dirname "/in/a.wav" = "/in".
Proof. reflexivity. Qed.
Example dirname_ex2 : Path.dirname "a.wav" = "".
Proof. reflexivity. Qed.
Example dirname_ex3 : Path.dirname "/a.wav" = "/".
Proof. reflexivity. Qed.
Example basename_ex1 : Path.basename "/in/a.wav" = "a.wav".
Proof. reflexivity. Qed.
Example extract_ex1 : extract_number "a(b)(12).wav" = Some 12%N.
Proof. reflexivity. Qed.
Example extract_ex2 : extract_number "((3))x(4)" = Some 3%N.
Proof. reflexivity. Qed.
Example extract_ex3 : extract_number "(12" = None.
Proof. reflexivity. Qed.
Example extract_ex4 : extract_number "()(007)" = Some 7%N.
Proof. reflexivity. Qed.
Example strip_ex : Str.strip "  y " = "y".
Proof. reflexivity. Qed.
Example cap_ex : Str.capitalize "iTALIAN" = "Italian".
Proof. reflexivity. Qed.

(** ** The monad *)

Section MonadFacts.
Context {A B : Type}.
Implicit Types (c : M A) (k : A -> M B).

Lemma bind_ok c k w a :
    outcome (c w) = inr a ->
    bind c k w =
      mkRun (outcome (k a (world (c w)))) (world (k a (world (c w))))
            (events (c w) ++ events (k a (world (c w)))).
Proof. intros H. unfold bind. now rewrite H. Qed.

Lemma bind_err c k w e :
    outcome (c w) = inl e ->
    bind c k w = mkRun (inl e) (world (c w)) (events (c w)).
Proof. intros H. unfold bind. now rewrite H. Qed.

Lemma outcome_bind_ok c k w a :
    outcome (c w) = inr a -> outcome (bind c k w) = outcome (k a (world (c w))).
Proof. intros H. now rewrite (bind_ok _ _ _ _ H). Qed.

Lemma world_bind_ok c k w a :
    outcome (c w) = inr a -> world (bind c k w) = world (k a (world (c w))).
Proof. intros H. now rewrite (bind_ok _ _ _ _ H). Qed.

Lemma events_bind_ok c k w a :
    outcome (c w) = inr a ->
    events (bind c k w) = (events (c w) ++ events (k a (world (c w))))%list.
Proof. intros H. now rewrite (bind_ok _ _ _ _ H). Qed.


Lemma world_bind_err c k w e :
    outcome (c w) = inl e -> world (bind c k w) = world (c w).
Proof. intros H. now rewrite (bind_err _ _ _ _ H). Qed.

Lemma events_bind_err c k w e :
    outcome (c w) = inl e -> events (bind c k w) = events (c w).
Proof. intros H. now rewrite (bind_err _ _ _ _ H). Qed.

(** A sequence that returns: its first part returned. *)
Lemma bind_inr_inv c k w b :
    outcome (bind c k w) = inr b ->
    exists a, outcome (c w) = inr a /\ outcome (k a (world (c w))) = inr b.
Proof.
    unfold bind. destruct (outcome (c w)) as [e|a]; simpl; [discriminate|].
    intros H. now exists a.
Qed.

Lemma emits_bind P c k :
    emits P c -> (forall a, emits P (k a)) -> emits P (bind c k).
Proof.
    intros Hc Hk w. unfold bind.
    destruct (outcome (c w)) as [e|a]; simpl.
    - apply Hc.
    - apply Forall_app; split; [apply Hc | apply Hk].
Qed.

Lemma never_raises_bind c k :
    never_raises c -> (forall a, never_raises (k a)) -> never_raises (bind c k).
Proof.
    intros Hc Hk w. destruct (Hc w) as [a Ha].
    rewrite (bind_ok _ _ _ _ Ha); simpl. apply Hk.
Qed.

Lemma raises_only_bind Q c k :
    raises_only Q c -> (forall a, raises_only Q (k a)) -> raises_only Q (bind c k).
Proof.
    intros Hc Hk w e. unfold bind.
    destruct (outcome (c w)) as [e'|a] eqn:E; simpl.
    - intros H. injection H as <-. eapply Hc, E.
    - apply Hk.
Qed.
End MonadFacts.

Lemma bind_assoc {A B C} (c : M A) (k : A -> M B) (k' : B -> M C) w :
  bind (bind c k) k' w = bind c (fun a => bind (k a) k') w.
Proof.
  unfold bind. destruct (outcome (c w)) as [e|a]; simpl; [reflexivity|].
  destruct (outcome (k a (world (c w)))) as [e|b]; simpl; [reflexivity|].
  now rewrite app_assoc.
Qed.

Lemma bind_print {B} (m : msg) (k : unit -> M B) w :
  bind (print m) k w =
    mkRun (outcome (k tt w)) (world (k tt w)) (Print m :: events (k tt w)).
Proof. reflexivity. Qed.

Lemma outcome_bind_print {B} (m : msg) (k : unit -> M B) w :
  outcome (bind (print m) k w) = outcome (k tt w).
Proof. reflexivity. Qed.

Lemma world_bind_print {B} (m : msg) (k : unit -> M B) w :
  world (bind (print m) k w) = world (k tt w).
Proof. reflexivity. Qed.

Lemma events_bind_print {B} (m : msg) (k : unit -> M B) w :
  events (bind (print m) k w) = Print m :: events (k tt w).
Proof. reflexivity. Qed.

Lemma bind_load {B} (name device : string) (k : model -> M B) w :
  bind (load_model name device) k w =
    let m := Model (next_model w) name device in
    mkRun (outcome (k m (bump_model w))) (world (k m (bump_model w)))
          (LoadModel m :: events (k m (bump_model w))).
Proof. reflexivity. Qed.

Lemma outcome_bind_load {B} (name device : string) (k : model -> M B) w :
  outcome (bind (load_model name device) k w) =
  outcome (k (Model (next_model w) name device) (bump_model w)).
Proof. reflexivity. Qed.

Lemma world_bind_load {B} (name device : string) (k : model -> M B) w :
  world (bind (load_model name device) k w) =
  world (k (Model (next_model w) name device) (bump_model w)).
Proof. reflexivity. Qed.

Lemma events_bind_load {B} (name device : string) (k : model -> M B) w :
  events (bind (load_model name device) k w) =
  LoadModel (Model (next_model w) name device) ::
  events (k (Model (next_model w) name device) (bump_model w)).
Proof. reflexivity. Qed.

Lemma bind_get_fs {B} (k : gmap string node -> M B) w :
  bind get_fs k w = k (fs w) w.
Proof. unfold bind, get_fs; simpl. now destruct (k (fs w) w). Qed.

Lemma fs_bump_model w : fs (bump_model w) = fs w.
Proof. reflexivity. Qed.

Lemma emits_ret {A} P (a : A) : emits P (ret a).
Proof. intros w. constructor. Qed.

Lemma emits_emit P e : P e -> emits P (emit e).
Proof. intros H w. simpl. auto. Qed.

Lemma emits_get_fs P : emits P get_fs.
Proof. intros w. constructor. Qed.

Lemma emits_try {A} P (c : M A) handles h :
  emits P c -> (forall e, emits P (h e)) -> emits P (try_except c handles h).
Proof.
  intros Hc Hh w. unfold try_except.
  destruct (outcome (c w)) as [e|a]; [|apply Hc].
  destruct (handles e); [|apply Hc].
  simpl. apply Forall_app; split; [apply Hc | apply Hh].
Qed.

Lemma emits_for_each {A} P (l : list A) body :
  (forall x, emits P (body x)) -> emits P (for_each l body).
Proof.
  intros Hb. induction l as [|x l IH]; simpl.
  - apply emits_ret.
  - apply emits_bind; auto.
Qed.

Lemma emits_subprocess_run P env cmd check :
  P (Spawn cmd check) -> emits P (subprocess_run env cmd check).
Proof.
  intros H w. unfold subprocess_run. destruct (spawn env (fs w) cmd); simpl; auto.
Qed.

Lemma emits_model_transcribe P env m path language :
  P (Transcribe m path language) -> emits P (model_transcribe env m path language).
Proof. intros H w. simpl. auto. Qed.

Lemma emits_write_file P env path text :
  P (WriteFile path text) -> emits P (write_file env path text).
Proof.
  intros H w. unfold write_file. destruct (open_w env (fs w) path); simpl; auto.
  destruct (write_w env path text) as [[e remains]|]; simpl; auto.
Qed.

Lemma emits_load_model P name device :
  (forall i, P (LoadModel (Model i name device))) -> emits P (load_model name device).
Proof. intros H w. simpl. auto. Qed.

Lemma never_raises_ret {A} (a : A) : never_raises (ret a).
Proof. intros w. now exists a. Qed.

Lemma never_raises_emit e : never_raises (emit e).
Proof. intros w. now exists tt. Qed.

Lemma never_raises_get_fs : never_raises get_fs.
Proof. intros w. now exists (fs w). Qed.

Lemma never_raises_load_model name device : never_raises (load_model name device).
Proof. intros w. now eexists. Qed.

(** A [try] whose handler takes every exception the body can raise, and
    does not raise itself, returns normally. *)
Lemma never_raises_try {A} (c : M A) handles (h : exn -> M A) :
  (forall w e, outcome (c w) = inl e -> handles e = true) ->
  (forall e, never_raises (h e)) ->
  never_raises (try_except c handles h).
Proof.
  intros Hc Hh w. unfold try_except.
  destruct (outcome (c w)) as [e|a] eqn:E.
  - rewrite (Hc _ _ E). simpl. apply Hh.
  - rewrite E. now exists a.
Qed.

Lemma never_raises_for_each {A} (l : list A) body :
  (forall x, never_raises (body x)) -> never_raises (for_each l body).
Proof.
  intros Hb. induction l as [|x l IH]; simpl.
  - apply never_raises_ret.
  - apply never_raises_bind; auto.
Qed.

Lemma never_raises_tt (c : M unit) w : never_raises c -> outcome (c w) = inr tt.
Proof. intros H. destruct (H w) as [[] E]. exact E. Qed.

Lemma raises_only_never {A} Q (c : M A) : never_raises c -> raises_only Q c.
Proof. intros H w e He. destruct (H w) as [a Ha]. congruence. Qed.

Lemma raises_only_impl {A} (Q Q' : exn -> Prop) (c : M A) :
  (forall e, Q e -> Q' e) -> raises_only Q c -> raises_only Q' c.
Proof. intros HQ H w e He. eapply HQ, H, He. Qed.

(** A [try] lets through what its handler does not take and what its
    handler raises. *)
Lemma raises_only_try {A} Q (c : M A) handles (h : exn -> M A) :
  (forall w e, outcome (c w) = inl e -> handles e = false -> Q e) ->
  (forall e, raises_only Q (h e)) ->
  raises_only Q (try_except c handles h).
Proof.
  intros Hc Hh w e. unfold try_except.
  destruct (outcome (c w)) as [e'|a] eqn:E; [|rewrite E; discriminate].
  destruct (handles e') eqn:Hd; simpl.
  - apply Hh.
  - rewrite E. intros H. injection H as <-. eapply Hc; eauto.
Qed.

Lemma raises_only_for_each {A} Q (l : list A) body :
  (forall x, raises_only Q (body x)) -> raises_only Q (for_each l body).
Proof.
  intros Hb. induction l as [|x l IH]; simpl.
  - apply raises_only_never, never_raises_ret.
  - apply raises_only_bind; auto.
Qed.

(** Where every process starts, no launch fails. *)
Lemma no_launch_failure env e : converter_starts env -> ~ launch_failure env e.
Proof.
  intros Hs (f & cmd & reason & H & _).
  destruct (Hs f cmd) as (status & f' & H'). congruence.
Qed.

Lemma never_raises_started {A} env (c : M A) :
  converter_starts env -> raises_only (launch_failure env) c -> never_raises c.
Proof.
  intros Hs Hc w. destruct (outcome (c w)) as [e|a] eqn:E; [|now exists a].
  exfalso. eapply no_launch_failure; [exact Hs | eapply Hc, E].
Qed.

(** In the sample environments but [unstartable_env] every process starts. *)
Lemma sample_env_starts : converter_starts sample_env.
Proof. intros f cmd. exists 1, f. reflexivity. Qed.

Lemma flaky_env_starts : converter_starts flaky_env.
Proof. intros f cmd. exists 1, f. reflexivity. Qed.

Lemma converting_env_starts : converter_starts converting_env.
Proof.
  intros f cmd. unfold converting_env. cbn [spawn].
  destruct (List.last cmd ""); eexists _, _; reflexivity.
Qed.

Example unstartable_env_fails :
  launch_failure unstartable_env (OSError "ffmpeg").
Proof. exists ∅, [], "ffmpeg". split; reflexivity. Qed.

(** The loop over a list splits at any position. *)
Lemma for_each_app {A} (l1 l2 : list A) body w :
  for_each (l1 ++ l2) body w = bind (for_each l1 body) (fun _ => for_each l2 body) w.
Proof.
  revert w. induction l1 as [|x l1 IH]; intros w; simpl.
  - unfold bind, ret; simpl. now destruct (for_each l2 body w).
  - rewrite bind_assoc.
    destruct (outcome (body x w)) as [e|a] eqn:E.
    + now rewrite !(bind_err _ _ _ _ E).
    + rewrite !(bind_ok _ _ _ _ E). now rewrite IH.
Qed.

Lemma omap_cons {A B} (h : A -> option B) (x : A) (l : list A) :
  omap h (x :: l) = match h x with Some y => y :: omap h l | None => omap h l end.
Proof. reflexivity. Qed.

Lemma omap_skip {A B} (h : A -> option B) (x : A) (l : list A) :
  h x = None -> omap h (x :: l) = omap h l.
Proof. intros H. rewrite omap_cons. now rewrite H. Qed.

Lemma omap_none {A B} (h : A -> option B) (l : list A) :
  Forall (fun e => h e = None) l -> omap h l = [].
Proof.
  induction 1 as [|x l Hx _ IH]; [reflexivity|]. simpl. now rewrite Hx.
Qed.

Lemma concat_singletons {A} (l : list A) : concat (List.map (fun x => [x]) l) = l.
Proof. induction l as [|x l IH]; [reflexivity|]. simpl. now rewrite IH. Qed.

(** ** Prompts: one question per line read, and the answer is a valid one *)

Lemma read_until_valid q norm valid lines a rest evs :
  read_until q norm valid lines = (inr a, rest, evs) -> valid a = true.
Proof.
  revert rest evs. induction lines as [|l lines IH]; intros rest evs; simpl;
    [discriminate|].
  destruct (valid (norm l)) eqn:E.
  - intros H. injection H as <- _ _. exact E.
  - destruct (read_until q norm valid lines) as [[r rest'] evs'] eqn:R.
    intros H. injection H as -> _ _. eapply IH. reflexivity.
Qed.

Lemma read_until_eof q norm valid lines e rest evs :
  read_until q norm valid lines = (inl e, rest, evs) -> e = EOFError.
Proof.
  revert rest evs. induction lines as [|l lines IH]; intros rest evs; simpl.
  - intros H. now injection H as <- _ _.
  - destruct (valid (norm l)); [discriminate|].
    destruct (read_until q norm valid lines) as [[r rest'] evs'] eqn:R.
    intros H. injection H as -> _ _. eapply IH. reflexivity.
Qed.

Lemma read_until_asks q norm valid lines :
  Forall (fun e => e = Ask true q) (read_until q norm valid lines).2.
Proof.
  induction lines as [|l lines IH]; simpl; [auto|].
  destruct (valid (norm l)); simpl; [auto|].
  destruct (read_until q norm valid lines) as [[r rest'] evs']. simpl in *. auto.
Qed.

(** A prompt writes its question and nothing else. *)
Lemma prompt_asks q norm1 norm2 valid w :
  Forall (fun e => exists again, e = Ask again q) (events (prompt q norm1 norm2 valid w)).
Proof.
  unfold prompt, bind, input. destruct (stdin w) as [|l rest]; simpl.
  - constructor; [now exists false | constructor].
  - constructor; [now exists false|].
    destruct (valid (fs w) (norm1 l)); simpl; [constructor|].
    pose proof (read_until_asks q norm2 (valid (fs w)) rest) as H.
    destruct (read_until q norm2 (valid (fs w)) rest) as [[r rest'] evs']. simpl in *.
    eapply Forall_impl; [exact H|]. intros e ->. now exists true.
Qed.

Lemma emits_prompt P q norm1 norm2 valid :
  (forall again, P (Ask again q)) -> emits P (prompt q norm1 norm2 valid).
Proof.
  intros H w. eapply Forall_impl; [apply prompt_asks|].
  intros e [again ->]. apply H.
Qed.

(** What reads no question off an event reads nothing off a prompt. *)
Lemma omap_prompt {B} (h : event -> option B) q norm1 norm2 valid w :
  (forall again q, h (Ask again q) = None) ->
  omap h (events (prompt q norm1 norm2 valid w)) = [].
Proof.
  intros H. apply omap_none. eapply Forall_impl; [apply prompt_asks|].
  intros e [again ->]. apply H.
Qed.

Lemma filter_prompt (p : event -> bool) q norm1 norm2 valid w :
  (forall again q, p (Ask again q) = false) ->
  List.filter p (events (prompt q norm1 norm2 valid w)) = [].
Proof.
  intros H. pose proof (prompt_asks q norm1 norm2 valid w) as F.
  induction F as [|e l [again ->] _ IH]; [reflexivity|]. simpl. now rewrite H.
Qed.

Lemma prompt_valid q norm1 norm2 valid w a :
  outcome (prompt q norm1 norm2 valid w) = inr a -> valid (fs w) a = true.
Proof.
  unfold prompt, bind, input. destruct (stdin w) as [|l rest]; simpl; [discriminate|].
  destruct (valid (fs w) (norm1 l)) eqn:E; simpl.
  - intros H. injection H as <-. exact E.
  - destruct (read_until q norm2 (valid (fs w)) rest) as [[r rest'] evs] eqn:R; simpl.
    intros ->. eapply read_until_valid, R.
Qed.

(** A prompt ends with a line or with the end of the input. *)
Lemma raises_only_prompt q norm1 norm2 valid :
  raises_only (fun e => e = EOFError) (prompt q norm1 norm2 valid).
Proof.
  intros w e. unfold prompt, bind, input.
  destruct (stdin w) as [|l rest]; simpl.
  - intros H. now injection H as <-.
  - destruct (valid (fs w) (norm1 l)); simpl; [discriminate|].
    destruct (read_until q norm2 (valid (fs w)) rest) as [[r rest'] evs] eqn:R; simpl.
    intros ->. eapply read_until_eof, R.
Qed.

(** A prompt reads lines and touches nothing else. *)
Lemma world_prompt q norm1 norm2 valid w :
  fs (world (prompt q norm1 norm2 valid w)) = fs w /\
  next_model (world (prompt q norm1 norm2 valid w)) = next_model w.
Proof.
  unfold prompt, bind, input. destruct (stdin w) as [|l rest]; cbn; [auto|].
  destruct (valid (fs w) (norm1 l)); cbn; [auto|].
  destruct (read_until q norm2 (valid (fs w)) rest) as [[r rest'] evs]; cbn; auto.
Qed.

Lemma fs_prompt q norm1 norm2 valid w :
  fs (world (prompt q norm1 norm2 valid w)) = fs w.
Proof. apply world_prompt. Qed.

Lemma next_model_prompt q norm1 norm2 valid w :
  next_model (world (prompt q norm1 norm2 valid w)) = next_model w.
Proof. apply world_prompt. Qed.

(** ** Membership in a list of strings *)

Lemma str_in_In x xs : str_in x xs = true <-> In x xs.
Proof.
  unfold str_in. rewrite existsb_exists. split.
  - intros (y & Hy & E). apply String.eqb_eq in E. now subst.
  - intros H. exists x. split; [exact H | apply String.eqb_refl].
Qed.

(** ** [list_sort]: a permutation, sorted, stable *)

Lemma pynum_lt_asym a b : pynum_lt a b = true -> pynum_lt b a = false.
Proof. destruct a, b; simpl; try reflexivity; try discriminate. lia. Qed.

Lemma pynum_lt_irrefl a : pynum_lt a a = false.
Proof. destruct a; simpl; [lia | reflexivity]. Qed.

Lemma pynum_ge_trans a b c :
  pynum_lt b a = false -> pynum_lt c b = false -> pynum_lt c a = false.
Proof. destruct a, b, c; simpl; try reflexivity; try discriminate. lia. Qed.

Lemma pynum_lt_neq a b : pynum_lt a b = true -> pynum_eqb a b = false.
Proof. destruct a, b; simpl; try reflexivity; try discriminate. lia. Qed.

Section ListSortFacts.
Context {A : Type}.
Variable key : A -> pynum.
Variable reverse : bool.

Lemma key_lt_asym x y : key_lt key reverse x y = true -> key_lt key reverse y x = false.
Proof. unfold key_lt. destruct reverse; apply pynum_lt_asym. Qed.

Lemma key_le_trans x y z :
    key_le key reverse x y -> key_le key reverse y z -> key_le key reverse x z.
Proof.
    unfold key_le, key_lt. destruct reverse; intros H1 H2.
    - eapply pynum_ge_trans; eauto.
    - eapply pynum_ge_trans; eauto.
Qed.

Lemma key_lt_neq x y :
    key_lt key reverse x y = true -> pynum_eqb (key x) (key y) = false.
Proof.
    unfold key_lt. destruct reverse; intros H.
    - apply pynum_lt_neq in H. destruct (key x), (key y); simpl in *; try easy. lia.
    - now apply pynum_lt_neq.
Qed.

Lemma insert_stable_perm x l : Permutation (insert_stable key reverse x l) (x :: l).
Proof.
    induction l as [|y l IH]; simpl; [reflexivity|].
    destruct (key_lt key reverse y x); [|reflexivity].
    rewrite IH. apply perm_swap.
Qed.

Lemma list_sort_perm l : Permutation (list_sort key reverse l) l.
Proof.
    induction l as [|x l IH]; simpl; [reflexivity|].
    rewrite insert_stable_perm. now constructor.
Qed.

Lemma insert_stable_sorted x l :
    StronglySorted (key_le key reverse) l ->
    StronglySorted (key_le key reverse) (insert_stable key reverse x l).
Proof.
    induction 1 as [|y l Hl IH Hy]; simpl.
    - repeat constructor.
    - destruct (key_lt key reverse y x) eqn:E.
      + constructor; [exact IH|].
        eapply Permutation_Forall; [symmetry; apply insert_stable_perm|].
        constructor; [|exact Hy].
        unfold key_le. now apply key_lt_asym.
      + constructor; [now constructor|].
        constructor; [exact E|].
        eapply Forall_impl; [exact Hy|].
        intros z Hz. eapply key_le_trans; [exact E | exact Hz].
Qed.

Lemma list_sort_sorted l : StronglySorted (key_le key reverse) (list_sort key reverse l).
Proof.
    induction l as [|x l IH]; simpl; [constructor|].
    now apply insert_stable_sorted.
Qed.

  (** Stability: the files of one key keep the order of the listing. *)
Lemma insert_stable_filter k x l :
    List.filter (fun y => pynum_eqb (key y) k) (insert_stable key reverse x l) =
    List.filter (fun y => pynum_eqb (key y) k) (x :: l).
Proof.
    induction l as [|y l IH]; [reflexivity|].
    cbn [insert_stable]. destruct (key_lt key reverse y x) eqn:E; [|reflexivity].
    apply key_lt_neq in E.
    cbn [List.filter] in *. rewrite IH.
    destruct (pynum_eqb (key x) k) eqn:Ex, (pynum_eqb (key y) k) eqn:Ey;
      try reflexivity.
    exfalso. destruct (key x), (key y), k; simpl in *; try discriminate; lia.
Qed.

Lemma list_sort_stable k l :
    List.filter (fun y => pynum_eqb (key y) k) (list_sort key reverse l) =
    List.filter (fun y => pynum_eqb (key y) k) l.
Proof.
    induction l as [|x l IH]; [reflexivity|].
    cbn [list_sort]. rewrite insert_stable_filter. cbn [List.filter].
    now rewrite IH.
Qed.
End ListSortFacts.

Lemma StronglySorted_lookup {A} (R : A -> A -> Prop) (l : list A) (i j : nat) x y :
  StronglySorted R l -> (i < j)%nat -> l !! i = Some x -> l !! j = Some y -> R x y.
Proof.
  intros Hs. revert i j. induction Hs as [|a l Hl IH Ha]; intros i j Hij Hi Hj.
  - discriminate.
  - destruct j as [|j]; [lia|]. destruct i as [|i]; simpl in *.
    + injection Hi as <-. rewrite Forall_forall in Ha. apply Ha.
      eapply list_elem_of_lookup_2, Hj.
    + apply (IH i j); [lia | exact Hi | exact Hj].
Qed.

Lemma sort_files_perm env in_path order_criterion files :
  Permutation (sort_files env in_path order_criterion files) files.
Proof.
  unfold sort_files.
  repeat (match goal with |- context [if ?b then _ else _] => destruct b end;
          [apply list_sort_perm|]).
  reflexivity.
Qed.

(** ** Stepping through a computation *)

Ltac emits_step :=
  match goal with
  | |- emits _ (bind _ _) => apply emits_bind; [|intros ?]
  | |- emits _ (try_except _ _ _) => apply emits_try; [|intros ?]
  | |- emits _ (ret _) => apply emits_ret
  | |- emits _ get_fs => apply emits_get_fs
  | |- emits _ (print _) => apply emits_emit
  | |- emits _ (emit _) => apply emits_emit
  | |- emits _ (subprocess_run _ _ _) => apply emits_subprocess_run
  | |- emits _ (model_transcribe _ _ _ _) => apply emits_model_transcribe
  | |- emits _ (write_file _ _ _) => apply emits_write_file
  | |- emits _ (load_model _ _) => apply emits_load_model; intros ?
  | |- emits _ (for_each _ _) => apply emits_for_each; intros ?
  | |- emits _ (prompt _ _ _ _) => apply emits_prompt; intros ?
  | |- emits _ (if ?b then _ else _) => destruct b
  end.

Ltac emits_steps := cbv zeta; repeat (emits_step; cbv zeta).

Lemma is_Exception_all e : is_Exception e = true.
Proof. now destruct e. Qed.

(** [subprocess.run] raises for a status it was asked to check, or for a
    program that could not be started. *)
Lemma subprocess_run_raises env cmd check w e :
  outcome (subprocess_run env cmd check w) = inl e ->
  is_CalledProcessError e = true \/ launch_failure env e.
Proof.
  unfold subprocess_run. destruct (spawn env (fs w) cmd) as [reason|status f] eqn:S; simpl.
  - intros H. injection H as <-. right. now exists (fs w), cmd, reason.
  - destruct (check && negb (status =? 0)); [|discriminate].
    intros H. injection H as <-. now left.
Qed.
(** ** transcriber.py, one file *)

Section TranscriberFile.
Variable env : Env.
Variable m : model.
Variables file in_path out_path language : string.

Let txt_path := Path.join out_path ((Path.splitext file).1 ++ ".txt").
Let mp3_path := Path.join in_path ((Path.splitext file).1 ++ ".mp3").
Let handler := fun e => print (TranscriptionError file e).
Let file_path :=
    if str_in (Str.lower (Path.splitext file).2)
              Transcriber.EXTENSIONS_REQUIRING_CONVERSION
    then mp3_path else Path.join in_path file.

  (** [convert_to_mp3] lets through the failure to start the converter,
      and nothing else. *)
Lemma T_convert_raises_only i o :
    raises_only (launch_failure env) (Transcriber.convert_to_mp3 env i o).
Proof.
    apply raises_only_try.
    - intros w e. cbv zeta. unfold bind.
      destruct (outcome (subprocess_run env _ true w)) as [e'|[]] eqn:E; simpl.
      + intros H Hd. injection H as <-.
        destruct (subprocess_run_raises _ _ _ _ _ E) as [Hc|Hl]; [congruence | exact Hl].
      + discriminate.
    - intros e. apply raises_only_never, never_raises_emit.
Qed.

Lemma T_resolve_raises_only :
    raises_only (launch_failure env) (Transcriber.resolve_file_path env file in_path).
Proof.
    unfold Transcriber.resolve_file_path. cbv zeta.
    destruct (str_in _ Transcriber.EXTENSIONS_REQUIRING_CONVERSION);
      [|apply raises_only_never, never_raises_ret].
    apply raises_only_bind; [apply raises_only_never, never_raises_emit | intros _].
    apply raises_only_bind; [apply raises_only_never, never_raises_get_fs | intros f].
    apply raises_only_bind; [|intros _; apply raises_only_never, never_raises_ret].
    destruct (negb _); [apply T_convert_raises_only|].
    apply raises_only_never, never_raises_emit.
Qed.

  (** The conversion block returns one path, whatever the converter did. *)
Lemma T_resolve_value w a :
    outcome (Transcriber.resolve_file_path env file in_path w) = inr a -> a = file_path.
Proof.
    unfold Transcriber.resolve_file_path, file_path. cbv zeta.
    destruct (str_in _ Transcriber.EXTENSIONS_REQUIRING_CONVERSION).
    - rewrite outcome_bind_print, bind_get_fs. intros H.
      apply bind_inr_inv in H as ([] & _ & H). simpl in H. now injection H as <-.
    - simpl. intros H. now injection H as <-.
Qed.

Lemma T_resolve_started w :
    converter_starts env ->
    outcome (Transcriber.resolve_file_path env file in_path w) = inr file_path.
Proof.
    intros Hs.
    destruct (never_raises_started _ _ Hs T_resolve_raises_only w) as [a Ha].
    rewrite Ha. f_equal. eapply T_resolve_value, Ha.
Qed.

Lemma T_single_raises_only :
    raises_only (launch_failure env)
      (Transcriber.transcribe_single_file env m file in_path out_path language).
Proof.
    unfold Transcriber.transcribe_single_file. cbv zeta.
    apply raises_only_bind; [apply raises_only_never, never_raises_emit | intros _].
    destruct (str_in _ Transcriber.EXTENSIONS_SUPPORTED);
      [|apply raises_only_never, never_raises_emit].
    apply raises_only_bind; [apply T_resolve_raises_only | intros fp].
    apply raises_only_never.
    apply never_raises_bind; [apply never_raises_emit | intros _].
    apply never_raises_try.
    - intros; apply is_Exception_all.
    - intros e. apply never_raises_emit.
Qed.

Lemma T_single_never_raises :
    converter_starts env ->
    never_raises (Transcriber.transcribe_single_file env m file in_path out_path language).
Proof. intros Hs. eapply never_raises_started; [exact Hs | apply T_single_raises_only]. Qed.

  (** The shape of a call on an allow-listed file whose conversion block
      returns. *)
Lemma T_single_supported w :
    str_in (Str.lower (Path.splitext file).2) Transcriber.EXTENSIONS_SUPPORTED = true ->
    let r0 := Transcriber.resolve_file_path env file in_path w in
    let r1 := try_except
                (Transcriber.transcription_attempt env m file file_path txt_path language)
                is_Exception handler (world r0) in
    outcome r0 = inr file_path ->
    Transcriber.transcribe_single_file env m file in_path out_path language w =
    mkRun (outcome r1) (world r1)
          (Print (FileHeader file) :: events r0 ++
           Print (StartingTranscription file) :: events r1).
Proof.
    intros Hs. cbv zeta. intros Hr. unfold Transcriber.transcribe_single_file. cbv zeta.
    rewrite Hs, bind_print. rewrite (bind_ok _ _ _ _ Hr).
    cbn [outcome world events]. rewrite bind_print. reflexivity.
Qed.

  (** The shape of a call whose conversion block raises: the exception
      leaves the call before the [try] statement is reached. *)
Lemma T_single_aborted w e :
    str_in (Str.lower (Path.splitext file).2) Transcriber.EXTENSIONS_SUPPORTED = true ->
    let r0 := Transcriber.resolve_file_path env file in_path w in
    outcome r0 = inl e ->
    Transcriber.transcribe_single_file env m file in_path out_path language w =
    mkRun (inl e) (world r0) (Print (FileHeader file) :: events r0).
Proof.
    intros Hs. cbv zeta. intros Hr. unfold Transcriber.transcribe_single_file. cbv zeta.
    rewrite Hs, bind_print. rewrite (bind_err _ _ _ _ Hr). reflexivity.
Qed.

Lemma T_single_unsupported w :
    str_in (Str.lower (Path.splitext file).2) Transcriber.EXTENSIONS_SUPPORTED = false ->
    Transcriber.transcribe_single_file env m file in_path out_path language w =
    mkRun (inr tt) w [Print (FileHeader file); Print (SkippingUnsupported file)].
Proof.
    intros Hs. unfold Transcriber.transcribe_single_file. cbv zeta.
    now rewrite Hs.
Qed.

  (** A call that returns went through its conversion block. *)
Lemma T_single_returned w :
    str_in (Str.lower (Path.splitext file).2) Transcriber.EXTENSIONS_SUPPORTED = true ->
    outcome (Transcriber.transcribe_single_file env m file in_path out_path language w)
      = inr tt ->
    outcome (Transcriber.resolve_file_path env file in_path w) = inr file_path.
Proof.
    intros Hs H.
    destruct (outcome (Transcriber.resolve_file_path env file in_path w)) as [e|a] eqn:E.
    - rewrite (T_single_aborted w e Hs E) in H. discriminate.
    - f_equal. eapply T_resolve_value, E.
Qed.
End TranscriberFile.

(** ** whisper_transcriber.py, one file *)

Section WhisperTranscriberFile.
Variable env : Env.
Variables model_name device : string.
Variables file in_path out_path language : string.

Let txt_path := Path.join out_path ((Path.splitext file).1 ++ ".txt").
Let mp3_path := Path.join in_path ((Path.splitext file).1 ++ ".mp3").
Let handler := fun e => print (TranscriptionError file e).
Let file_path :=
  if str_in (Str.lower (Path.splitext file).2)
            WhisperTranscriber.unsupported_extensions
  then mp3_path else Path.join in_path file.

Lemma W_convert_raises_only i o :
  raises_only (launch_failure env) (WhisperTranscriber.convert_to_mp3 env i o).
Proof.
  apply raises_only_try.
  - intros w e. cbv zeta. unfold bind.
    destruct (outcome (subprocess_run env _ false w)) as [e'|[]] eqn:E; simpl.
    + intros H Hd. injection H as <-.
      destruct (subprocess_run_raises _ _ _ _ _ E) as [Hc|Hl]; [congruence | exact Hl].
    + discriminate.
  - intros e. apply raises_only_never, never_raises_emit.
Qed.

Lemma W_resolve_raises_only :
  raises_only (launch_failure env)
    (WhisperTranscriber.resolve_file_path env file in_path).
Proof.
  unfold WhisperTranscriber.resolve_file_path. cbv zeta.
  destruct (str_in _ WhisperTranscriber.unsupported_extensions);
    [|apply raises_only_never, never_raises_ret].
  apply raises_only_bind; [apply raises_only_never, never_raises_emit | intros _].
  apply raises_only_bind; [apply raises_only_never, never_raises_get_fs | intros f].
  apply raises_only_bind; [|intros _; apply raises_only_never, never_raises_ret].
  destruct (negb _); [apply W_convert_raises_only|].
  apply raises_only_never, never_raises_emit.
Qed.

Lemma W_resolve_value w a :
  outcome (WhisperTranscriber.resolve_file_path env file in_path w) = inr a ->
  a = file_path.
Proof.
  unfold WhisperTranscriber.resolve_file_path, file_path. cbv zeta.
  destruct (str_in _ WhisperTranscriber.unsupported_extensions).
  - rewrite outcome_bind_print, bind_get_fs. intros H.
    apply bind_inr_inv in H as ([] & _ & H). simpl in H. now injection H as <-.
  - simpl. intros H. now injection H as <-.
Qed.

Lemma W_resolve_started w :
  converter_starts env ->
  outcome (WhisperTranscriber.resolve_file_path env file in_path w) = inr file_path.
Proof.
  intros Hs.
  destruct (never_raises_started _ _ Hs W_resolve_raises_only w) as [a Ha].
  rewrite Ha. f_equal. eapply W_resolve_value, Ha.
Qed.

Lemma W_single_raises_only :
  raises_only (launch_failure env)
    (WhisperTranscriber.transcribe_single_file env model_name device
       file in_path out_path language).
Proof.
  unfold WhisperTranscriber.transcribe_single_file. cbv zeta.
  apply raises_only_bind; [apply raises_only_never, never_raises_emit | intros _].
  apply raises_only_bind; [apply raises_only_never, never_raises_load_model | intros mdl].
  destruct (str_in _ WhisperTranscriber.extensions);
    [|apply raises_only_never, never_raises_emit].
  apply raises_only_bind; [apply W_resolve_raises_only | intros fp].
  apply raises_only_never.
  apply never_raises_bind; [apply never_raises_emit | intros _].
  apply never_raises_try.
  - intros; apply is_Exception_all.
  - intros e. apply never_raises_emit.
Qed.

Lemma W_single_never_raises :
  converter_starts env ->
  never_raises
    (WhisperTranscriber.transcribe_single_file env model_name device
       file in_path out_path language).
Proof. intros Hs. eapply never_raises_started; [exact Hs | apply W_single_raises_only]. Qed.

(** The shape of a call on an allow-listed file whose conversion block
    returns: the model is loaded, the conversion block runs, and the [try]
    block is entered with the path the conversion block returned. *)
Lemma W_single_supported w :
  str_in (Str.lower (Path.splitext file).2) WhisperTranscriber.extensions = true ->
  let mdl := Model (next_model w) model_name device in
  let r0 := WhisperTranscriber.resolve_file_path env file in_path (bump_model w) in
  let r1 := try_except
              (WhisperTranscriber.transcription_attempt env mdl file file_path in_path
                 txt_path language)
              is_Exception handler (world r0) in
  outcome r0 = inr file_path ->
  WhisperTranscriber.transcribe_single_file env model_name device
    file in_path out_path language w =
  mkRun (outcome r1) (world r1)
        (Print (FileHeader file) :: LoadModel mdl :: events r0 ++
         Print (StartingTranscription file) :: events r1).
Proof.
  intros Hs. cbv zeta. intros Hr. unfold WhisperTranscriber.transcribe_single_file.
  cbv zeta. rewrite bind_print, bind_load. cbv beta zeta.
  rewrite Hs. rewrite (bind_ok _ _ _ _ Hr).
  cbn [outcome world events]. rewrite bind_print.
  cbn [outcome world events app]. reflexivity.
Qed.

Lemma W_single_aborted w e :
  str_in (Str.lower (Path.splitext file).2) WhisperTranscriber.extensions = true ->
  let mdl := Model (next_model w) model_name device in
  let r0 := WhisperTranscriber.resolve_file_path env file in_path (bump_model w) in
  outcome r0 = inl e ->
  WhisperTranscriber.transcribe_single_file env model_name device
    file in_path out_path language w =
  mkRun (inl e) (world r0) (Print (FileHeader file) :: LoadModel mdl :: events r0).
Proof.
  intros Hs. cbv zeta. intros Hr. unfold WhisperTranscriber.transcribe_single_file.
  cbv zeta. rewrite bind_print, bind_load. cbv beta zeta.
  rewrite Hs. rewrite (bind_err _ _ _ _ Hr). reflexivity.
Qed.

Lemma W_single_unsupported w :
  str_in (Str.lower (Path.splitext file).2) WhisperTranscriber.extensions = false ->
  WhisperTranscriber.transcribe_single_file env model_name device
    file in_path out_path language w =
  mkRun (inr tt) (bump_model w)
        [Print (FileHeader file); LoadModel (Model (next_model w) model_name device);
         Print (SkippingUnsupported file)].
Proof.
  intros Hs. unfold WhisperTranscriber.transcribe_single_file. cbv zeta.
  rewrite bind_print, bind_load. cbv beta zeta.
  now rewrite Hs.
Qed.

Lemma W_single_returned w :
  str_in (Str.lower (Path.splitext file).2) WhisperTranscriber.extensions = true ->
  outcome (WhisperTranscriber.transcribe_single_file env model_name device
             file in_path out_path language w) = inr tt ->
  outcome (WhisperTranscriber.resolve_file_path env file in_path (bump_model w))
    = inr file_path.
Proof.
  intros Hs H.
  destruct (outcome (WhisperTranscriber.resolve_file_path env file in_path (bump_model w)))
    as [e|a] eqn:E.
  - rewrite (W_single_aborted w e Hs E) in H. discriminate.
  - f_equal. eapply W_resolve_value, E.
Qed.
End WhisperTranscriberFile.
(** ** The [try] block and its handler *)

(** The trace of the [try] statement of transcriber.py from a world [w]:
    the model is called once, on the path it is given; the text is written
    when the call, the opening of the output file and the writing succeed;
    a failure of any is reported, and a failed writing leaves the file
    with what it wrote. *)
Lemma T_try_run env m file fp txt language w :
  let handler := fun e => print (TranscriptionError file e) in
  let r := try_except (Transcriber.transcription_attempt env m file fp txt language)
             is_Exception handler w in
  let call := model_transcribe env m fp language w in
  outcome r = inr tt /\
  match outcome call with
  | inl e =>
      events r = [Transcribe m fp language; Print (TranscriptionError file e)] /\
      world r = w
  | inr text =>
      match open_w env (fs w) txt with
      | Some e =>
          events r = [Transcribe m fp language; Print (TranscriptionError file e)] /\
          world r = w
      | None =>
          match write_w env txt text with
          | Some (e, remains) =>
              events r = [Transcribe m fp language; Print (TranscriptionError file e)] /\
              world r = set_fs w (<[txt := File remains]> (fs w))
          | None =>
              events r = [Transcribe m fp language; WriteFile txt text;
                          Print (TranscriptionCompleted file)] /\
              world r = set_fs w (<[txt := File text]> (fs w))
          end
      end
  end.
Proof.
  cbv zeta. unfold try_except, Transcriber.transcription_attempt, bind, write_file.
  cbn [model_transcribe outcome world events].
  destruct (match fs w !! fp with
            | Some (File audio) => whisper env m audio language
            | _ => inl (RuntimeError "Failed to load audio")
            end) as [e|text]; cbn [outcome world events].
  - rewrite is_Exception_all. cbn. auto.
  - destruct (open_w env (fs w) txt) as [e|]; cbn [outcome world events].
    + rewrite is_Exception_all. cbn. auto.
    + destruct (write_w env txt text) as [[e remains]|]; cbn [outcome world events].
      * rewrite is_Exception_all. cbn. auto.
      * cbn. auto.
Qed.

(** The same for whisper_transcriber.py, where the call is on the path
    built from [in_path] and [file]. *)
Lemma W_try_run env m file fp in_path txt language w :
  let handler := fun e => print (TranscriptionError file e) in
  let r := try_except
             (WhisperTranscriber.transcription_attempt env m file fp in_path txt language)
             is_Exception handler w in
  let path := Path.join in_path file in
  let call := model_transcribe env m path language w in
  outcome r = inr tt /\
  match outcome call with
  | inl e =>
      events r = [Transcribe m path language; Print (TranscriptionError file e)] /\
      world r = w
  | inr text =>
      match open_w env (fs w) txt with
      | Some e =>
          events r = [Transcribe m path language; Print (TranscriptionError file e)] /\
          world r = w
      | None =>
          match write_w env txt text with
          | Some (e, remains) =>
              events r = [Transcribe m path language; Print (TranscriptionError file e)] /\
              world r = set_fs w (<[txt := File remains]> (fs w))
          | None =>
              events r = [Transcribe m path language; WriteFile txt text;
                          Print (TranscriptionCompleted file)] /\
              world r = set_fs w (<[txt := File text]> (fs w))
          end
      end
  end.
Proof.
  cbv zeta. unfold try_except, WhisperTranscriber.transcription_attempt, bind, write_file.
  cbn [model_transcribe outcome world events].
  destruct (match fs w !! Path.join in_path file with
            | Some (File audio) => whisper env m audio language
            | _ => inl (RuntimeError "Failed to load audio")
            end) as [e|text]; cbn [outcome world events].
  - rewrite is_Exception_all. cbn. auto.
  - destruct (open_w env (fs w) txt) as [e|]; cbn [outcome world events].
    + rewrite is_Exception_all. cbn. auto.
    + destruct (write_w env txt text) as [[e remains]|]; cbn [outcome world events].
      * rewrite is_Exception_all. cbn. auto.
      * cbn. auto.
Qed.

(** Taking the cases of a [try] statement apart: the events and the
    world of the statement are rewritten in the goal. *)
Ltac try_case R :=
  let He := fresh "He" in
  let Hw := fresh "Hw" in
  destruct R as [He Hw]; try rewrite He; try rewrite Hw.

Ltac try_cases R :=
  let Ho := fresh "Ho" in
  destruct R as [Ho R];
  match type of R with
  | match outcome ?c with _ => _ end =>
      let e := fresh "e" in
      let text := fresh "text" in
      destruct (outcome c) as [e|text] eqn:?;
      [ try_case R
      | match type of R with
        | match ?o with _ => _ end =>
            let e' := fresh "e" in
            destruct o as [e'|] eqn:?;
            [ try_case R
            | match type of R with
              | match ?wr with _ => _ end =>
                  let e'' := fresh "e" in
                  let remains := fresh "remains" in
                  destruct wr as [[e'' remains]|] eqn:?; try_case R
              end ]
        end ]
  end.

Lemma try_except_caught {A} (c : M A) handles (h : exn -> M A) w e :
  outcome (c w) = inl e -> handles e = true ->
  events (try_except c handles h w) =
    (events (c w) ++ events (h e (world (c w))))%list.
Proof. intros Hc Hh. unfold try_except. now rewrite Hc, Hh. Qed.

(** ** Marks of a loop

    [h] reads a mark off an event.  If each round leaves a prefix of the
    marks [g x], and all of them when it returns, the loop leaves a prefix of
    the marks of all rounds, and all of them when it returns. *)
Lemma for_each_omap_prefix {A B} (h : event -> option B) (g : A -> list B)
    (l : list A) (body : A -> M unit) :
  (forall x w, In x l -> omap h (events (body x w)) `prefix_of` g x) ->
  (forall x w, In x l -> outcome (body x w) = inr tt ->
               omap h (events (body x w)) = g x) ->
  forall w, omap h (events (for_each l body w)) `prefix_of` concat (List.map g l).
Proof.
  induction l as [|x l IH]; intros Hp Hr w; simpl.
  - apply prefix_nil.
  - destruct (outcome (body x w)) as [e|[]] eqn:E.
    + rewrite (events_bind_err _ _ _ _ E).
      etransitivity; [apply Hp; now left | now apply prefix_app_r].
    + rewrite (events_bind_ok _ _ _ _ E), omap_app, (Hr _ _ (or_introl eq_refl) E).
      apply prefix_app, IH; intros; [apply Hp | apply Hr]; auto; now right.
Qed.

Lemma for_each_omap_returns {A B} (h : event -> option B) (g : A -> list B)
    (l : list A) (body : A -> M unit) :
  (forall x w, In x l -> outcome (body x w) = inr tt ->
               omap h (events (body x w)) = g x) ->
  forall w, outcome (for_each l body w) = inr tt ->
            omap h (events (for_each l body w)) = concat (List.map g l).
Proof.
  induction l as [|x l IH]; intros Hr w; simpl; [reflexivity|].
  intros H. destruct (bind_inr_inv _ _ _ _ H) as ([] & E & H').
  rewrite (events_bind_ok _ _ _ _ E), omap_app, (Hr _ _ (or_introl eq_refl) E).
  f_equal. apply IH; [|exact H']. intros; apply Hr; auto; now right.
Qed.

(** Marks that every round leaves, returning or not. *)
Lemma for_each_omap_in {A B} (h : event -> option B) (g : A -> list B)
    (l : list A) (body : A -> M unit) :
  (forall x w, In x l -> omap h (events (body x w)) = g x) ->
  forall w, outcome (for_each l body w) = inr tt ->
            omap h (events (for_each l body w)) = concat (List.map g l).
Proof. intros Hb. apply for_each_omap_returns. intros; now apply Hb. Qed.

(** The conversion subset lies inside the allow-list, in both scripts. *)
Lemma T_conversion_subset e :
  str_in e Transcriber.EXTENSIONS_REQUIRING_CONVERSION = true ->
  str_in e Transcriber.EXTENSIONS_SUPPORTED = true.
Proof.
  rewrite str_in_In. unfold Transcriber.EXTENSIONS_REQUIRING_CONVERSION.
  cbn [In]. intros H.
  repeat (destruct H as [<-|H]; [reflexivity|]). destruct H.
Qed.

Lemma W_conversion_subset e :
  str_in e WhisperTranscriber.unsupported_extensions = true ->
  str_in e WhisperTranscriber.extensions = true.
Proof.
  rewrite str_in_In. unfold WhisperTranscriber.unsupported_extensions.
  cbn [In]. intros H.
  repeat (destruct H as [<-|H]; [reflexivity|]). destruct H.
Qed.

Lemma supported_files_In env allowed f in_path x :
  In x (supported_files env allowed f in_path) <->
  In x (listdir env in_path) /\
  isfile f (Path.join in_path x) = true /\
  str_in (Str.lower (Path.splitext x).2) allowed = true.
Proof.
  unfold supported_files. rewrite filter_In, andb_true_iff. tauto.
Qed.

Lemma sort_files_In env in_path order_criterion files x :
  In x (sort_files env in_path order_criterion files) <-> In x files.
Proof.
  split; apply Permutation_in;
    [apply sort_files_perm | symmetry; apply sort_files_perm].
Qed.
(** ** What the blocks of [transcribe_single_file] can emit *)

(** The conversion block prints lines other than a file header and spawns
    the converter; nothing else. *)
Lemma T_resolve_emits (P : event -> Prop) env file in_path :
  (forall m, header_of (Print m) = None -> P (Print m)) ->
  (forall cmd check, P (Spawn cmd check)) ->
  emits P (Transcriber.resolve_file_path env file in_path).
Proof.
  intros Hp Hs.
  unfold Transcriber.resolve_file_path, Transcriber.convert_to_mp3.
  emits_steps; solve [apply Hp; reflexivity | apply Hs].
Qed.

Lemma W_resolve_emits (P : event -> Prop) env file in_path :
  (forall m, header_of (Print m) = None -> P (Print m)) ->
  (forall cmd check, P (Spawn cmd check)) ->
  emits P (WhisperTranscriber.resolve_file_path env file in_path).
Proof.
  intros Hp Hs.
  unfold WhisperTranscriber.resolve_file_path, WhisperTranscriber.convert_to_mp3.
  emits_steps; solve [apply Hp; reflexivity | apply Hs].
Qed.

(** The [try] statement calls the model it is given, writes to the path it
    is given and prints lines other than a file header. *)
Lemma T_try_emits (P : event -> Prop) env m file fp txt language :
  (forall msg, header_of (Print msg) = None -> P (Print msg)) ->
  (forall path, P (Transcribe m path language)) ->
  (forall text, P (WriteFile txt text)) ->
  emits P (try_except (Transcriber.transcription_attempt env m file fp txt language)
             is_Exception (fun e => print (TranscriptionError file e))).
Proof.
  intros Hp Ht Hw. unfold Transcriber.transcription_attempt.
  emits_steps; solve [apply Hp; reflexivity | apply Ht | apply Hw].
Qed.

Lemma W_try_emits (P : event -> Prop) env m file fp in_path txt language :
  (forall msg, header_of (Print msg) = None -> P (Print msg)) ->
  (forall path, P (Transcribe m path language)) ->
  (forall text, P (WriteFile txt text)) ->
  emits P (try_except
             (WhisperTranscriber.transcription_attempt env m file fp in_path txt language)
             is_Exception (fun e => print (TranscriptionError file e))).
Proof.
  intros Hp Ht Hw. unfold WhisperTranscriber.transcription_attempt.
  emits_steps; solve [apply Hp; reflexivity | apply Ht | apply Hw].
Qed.

(** One call of transcriber.py's [transcribe_single_file]: events of the
    conversion block and of the [try] statement, after the header. *)
Lemma T_single_emits (P : event -> Prop) env m file in_path out_path language :
  P (Print (FileHeader file)) ->
  (forall msg, header_of (Print msg) = None -> P (Print msg)) ->
  (forall cmd check, P (Spawn cmd check)) ->
  (forall path, P (Transcribe m path language)) ->
  (forall text,
     P (WriteFile (Path.join out_path ((Path.splitext file).1 ++ ".txt")) text)) ->
  emits P (Transcriber.transcribe_single_file env m file in_path out_path language).
Proof.
  intros Hh Hp Hs Ht Hw. unfold Transcriber.transcribe_single_file. cbv zeta.
  apply emits_bind; [now apply emits_emit | intros _].
  destruct (str_in _ Transcriber.EXTENSIONS_SUPPORTED).
  - apply emits_bind; [now apply T_resolve_emits | intros fp].
    apply emits_bind; [apply emits_emit, Hp; reflexivity | intros _].
    now apply T_try_emits.
  - apply emits_emit, Hp. reflexivity.
Qed.

Lemma W_single_emits (P : event -> Prop) env model_name device
    file in_path out_path language :
  P (Print (FileHeader file)) ->
  (forall msg, header_of (Print msg) = None -> P (Print msg)) ->
  (forall cmd check, P (Spawn cmd check)) ->
  (forall i, P (LoadModel (Model i model_name device))) ->
  (forall i path, P (Transcribe (Model i model_name device) path language)) ->
  (forall text,
     P (WriteFile (Path.join out_path ((Path.splitext file).1 ++ ".txt")) text)) ->
  emits P (WhisperTranscriber.transcribe_single_file env model_name device
             file in_path out_path language).
Proof.
  intros Hh Hp Hs Hl Ht Hw w.
  unfold WhisperTranscriber.transcribe_single_file. cbv zeta.
  rewrite events_bind_print, events_bind_load.
  apply Forall_cons; split; [exact Hh|].
  apply Forall_cons; split; [apply Hl|].
  generalize (bump_model w). change (emits P
    (if str_in (Str.lower (Path.splitext file).2) WhisperTranscriber.extensions
     then
       let! file_path := WhisperTranscriber.resolve_file_path env file in_path in
       print (StartingTranscription file) >>
       try_except
         (WhisperTranscriber.transcription_attempt env
            (Model (next_model w) model_name device) file file_path in_path
            (Path.join out_path ((Path.splitext file).1 ++ ".txt")) language)
         is_Exception (fun e => print (TranscriptionError file e))
     else print (SkippingUnsupported file))).
  destruct (str_in _ WhisperTranscriber.extensions).
  - apply emits_bind; [now apply W_resolve_emits | intros fp].
    apply emits_bind; [apply emits_emit, Hp; reflexivity | intros _].
    now apply W_try_emits.
  - apply emits_emit, Hp. reflexivity.
Qed.
(** ** The marks one call leaves in the trace *)

Lemma T_try_calls env m file fp txt language w :
  model_calls
    (events (try_except (Transcriber.transcription_attempt env m file fp txt language)
               is_Exception (fun e => print (TranscriptionError file e)) w)) =
  [(m, fp)].
Proof.
  pose proof (T_try_run env m file fp txt language w) as H. cbv zeta in H.
  try_cases H; reflexivity.
Qed.

Lemma W_try_calls env m file fp in_path txt language w :
  model_calls
    (events (try_except
               (WhisperTranscriber.transcription_attempt env m file fp in_path txt
                  language)
               is_Exception (fun e => print (TranscriptionError file e)) w)) =
  [(m, Path.join in_path file)].
Proof.
  pose proof (W_try_run env m file fp in_path txt language w) as H. cbv zeta in H.
  try_cases H; reflexivity.
Qed.

Section SingleFileMarks.
Variable env : Env.
Variables file in_path out_path language : string.

(** A call prints the name of its file once, whatever comes after. *)
Lemma T_single_headers m w :
  processed_files
    (events (Transcriber.transcribe_single_file env m file in_path out_path language w))
  = [file].
Proof.
  unfold Transcriber.transcribe_single_file. cbv zeta. rewrite bind_print.
  cbn [events]. unfold processed_files. rewrite omap_cons. cbn [header_of]. f_equal.
  apply omap_none.
  destruct (str_in _ Transcriber.EXTENSIONS_SUPPORTED).
  - revert w. apply emits_bind; [now apply T_resolve_emits | intros fp].
    apply emits_bind; [now apply emits_emit | intros _].
    now apply T_try_emits.
  - repeat constructor.
Qed.

Lemma T_single_loads m w :
  loads
    (events (Transcriber.transcribe_single_file env m file in_path out_path language w))
  = [].
Proof. apply omap_none. now apply T_single_emits. Qed.

(** The model is called once when the conversion block returns, and not
    at all when it raises. *)
Lemma T_single_calls_resolved m w fp :
  str_in (Str.lower (Path.splitext file).2) Transcriber.EXTENSIONS_SUPPORTED = true ->
  outcome (Transcriber.resolve_file_path env file in_path w) = inr fp ->
  model_calls
    (events (Transcriber.transcribe_single_file env m file in_path out_path language w))
  = [(m, if str_in (Str.lower (Path.splitext file).2)
                   Transcriber.EXTENSIONS_REQUIRING_CONVERSION
         then Path.join in_path ((Path.splitext file).1 ++ ".mp3")
         else Path.join in_path file)].
Proof.
  intros Hs Hr. pose proof (T_resolve_value _ _ _ _ _ Hr) as ->.
  rewrite (T_single_supported _ _ _ _ _ _ _ Hs Hr). cbn [events].
  unfold model_calls. rewrite !omap_cons. cbn [call_of].
  rewrite omap_app, omap_cons. cbn [call_of].
  rewrite omap_none by now apply T_resolve_emits.
  apply T_try_calls.
Qed.

Lemma T_single_calls_aborted m w e :
  outcome (Transcriber.resolve_file_path env file in_path w) = inl e ->
  model_calls
    (events (Transcriber.transcribe_single_file env m file in_path out_path language w))
  = [].
Proof.
  intros Hr.
  destruct (str_in (Str.lower (Path.splitext file).2) Transcriber.EXTENSIONS_SUPPORTED)
    eqn:Hs.
  - rewrite (T_single_aborted _ _ _ _ _ _ _ _ Hs Hr). cbn [events].
    unfold model_calls. rewrite omap_cons. cbn [call_of].
    apply omap_none. now apply T_resolve_emits.
  - now rewrite (T_single_unsupported _ _ _ _ _ _ _ Hs).
Qed.

Lemma T_single_calls m w :
  str_in (Str.lower (Path.splitext file).2) Transcriber.EXTENSIONS_SUPPORTED = true ->
  outcome (Transcriber.transcribe_single_file env m file in_path out_path language w)
    = inr tt ->
  model_calls
    (events (Transcriber.transcribe_single_file env m file in_path out_path language w))
  = [(m, if str_in (Str.lower (Path.splitext file).2)
                   Transcriber.EXTENSIONS_REQUIRING_CONVERSION
         then Path.join in_path ((Path.splitext file).1 ++ ".mp3")
         else Path.join in_path file)].
Proof.
  intros Hs Ho. eapply T_single_calls_resolved; [exact Hs|].
  eapply T_single_returned; eauto.
Qed.

Lemma T_single_calls_prefix m w :
  str_in (Str.lower (Path.splitext file).2) Transcriber.EXTENSIONS_SUPPORTED = true ->
  model_calls
    (events (Transcriber.transcribe_single_file env m file in_path out_path language w))
  `prefix_of`
  [(m, if str_in (Str.lower (Path.splitext file).2)
                 Transcriber.EXTENSIONS_REQUIRING_CONVERSION
       then Path.join in_path ((Path.splitext file).1 ++ ".mp3")
       else Path.join in_path file)].
Proof.
  intros Hs.
  destruct (outcome (Transcriber.resolve_file_path env file in_path w)) as [e|a] eqn:E.
  - rewrite (T_single_calls_aborted _ _ _ E). apply prefix_nil.
  - now rewrite (T_single_calls_resolved _ _ _ Hs E).
Qed.

Lemma W_single_headers model_name device w :
  processed_files
    (events (WhisperTranscriber.transcribe_single_file env model_name device
               file in_path out_path language w))
  = [file].
Proof.
  unfold WhisperTranscriber.transcribe_single_file. cbv zeta.
  rewrite bind_print, bind_load. cbv beta zeta.
  cbn [events]. unfold processed_files. rewrite !omap_cons. cbn [header_of]. f_equal.
  apply omap_none.
  destruct (str_in _ WhisperTranscriber.extensions).
  - generalize (bump_model w). generalize (Model (next_model w) model_name device).
    intros mdl.
    apply emits_bind; [now apply W_resolve_emits | intros fp].
    apply emits_bind; [now apply emits_emit | intros _].
    now apply W_try_emits.
  - repeat constructor.
Qed.

(** A call loads the model once, whatever comes after. *)
Lemma W_single_loads model_name device w :
  loads
    (events (WhisperTranscriber.transcribe_single_file env model_name device
               file in_path out_path language w))
  = [Model (next_model w) model_name device].
Proof.
  unfold WhisperTranscriber.transcribe_single_file. cbv zeta.
  rewrite bind_print, bind_load. cbv beta zeta.
  cbn [events]. unfold loads. rewrite !omap_cons. cbn [load_of]. f_equal.
  apply omap_none.
  destruct (str_in _ WhisperTranscriber.extensions).
  - generalize (bump_model w). generalize (Model (next_model w) model_name device).
    intros mdl.
    apply emits_bind; [now apply W_resolve_emits | intros fp].
    apply emits_bind; [now apply emits_emit | intros _].
    now apply W_try_emits.
  - repeat constructor.
Qed.

Lemma W_single_calls_resolved model_name device w fp :
  str_in (Str.lower (Path.splitext file).2) WhisperTranscriber.extensions = true ->
  outcome (WhisperTranscriber.resolve_file_path env file in_path (bump_model w))
    = inr fp ->
  model_calls
    (events (WhisperTranscriber.transcribe_single_file env model_name device
               file in_path out_path language w))
  = [(Model (next_model w) model_name device, Path.join in_path file)].
Proof.
  intros Hs Hr. pose proof (W_resolve_value _ _ _ _ _ Hr) as ->.
  rewrite (W_single_supported _ _ _ _ _ _ _ _ Hs Hr). cbn [events].
  unfold model_calls. rewrite !omap_cons. cbn [call_of].
  rewrite omap_app, omap_cons. cbn [call_of].
  rewrite omap_none by now apply W_resolve_emits.
  apply W_try_calls.
Qed.

Lemma W_single_calls_aborted model_name device w e :
  outcome (WhisperTranscriber.resolve_file_path env file in_path (bump_model w))
    = inl e ->
  model_calls
    (events (WhisperTranscriber.transcribe_single_file env model_name device
               file in_path out_path language w))
  = [].
Proof.
  intros Hr.
  destruct (str_in (Str.lower (Path.splitext file).2) WhisperTranscriber.extensions)
    eqn:Hs.
  - rewrite (W_single_aborted _ _ _ _ _ _ _ _ _ Hs Hr). cbn [events].
    unfold model_calls. rewrite !omap_cons. cbn [call_of].
    apply omap_none. now apply W_resolve_emits.
  - now rewrite (W_single_unsupported _ _ _ _ _ _ _ _ Hs).
Qed.

Lemma W_single_calls model_name device w :
  str_in (Str.lower (Path.splitext file).2) WhisperTranscriber.extensions = true ->
  outcome (WhisperTranscriber.transcribe_single_file env model_name device
             file in_path out_path language w) = inr tt ->
  model_calls
    (events (WhisperTranscriber.transcribe_single_file env model_name device
               file in_path out_path language w))
  = [(Model (next_model w) model_name device, Path.join in_path file)].
Proof.
  intros Hs Ho. eapply W_single_calls_resolved; [exact Hs|].
  eapply W_single_returned; eauto.
Qed.

Lemma W_single_calls_prefix model_name device w :
  str_in (Str.lower (Path.splitext file).2) WhisperTranscriber.extensions = true ->
  model_calls
    (events (WhisperTranscriber.transcribe_single_file env model_name device
               file in_path out_path language w))
  `prefix_of` [(Model (next_model w) model_name device, Path.join in_path file)].
Proof.
  intros Hs.
  destruct (outcome (WhisperTranscriber.resolve_file_path env file in_path
                       (bump_model w))) as [e|a] eqn:E.
  - rewrite (W_single_calls_aborted _ _ _ _ E). apply prefix_nil.
  - now rewrite (W_single_calls_resolved _ _ _ _ Hs E).
Qed.
End SingleFileMarks.

(** ** The batch *)

Lemma T_batch_run env m in_path out_path language order_criterion w :
  Transcriber.transcribe_multiple_files env m in_path out_path language
    order_criterion w =
  for_each
    (sort_files env in_path order_criterion
       (supported_files env Transcriber.EXTENSIONS_SUPPORTED (fs w) in_path))
    (fun file => Transcriber.transcribe_single_file env m file in_path out_path language)
    w.
Proof. unfold Transcriber.transcribe_multiple_files. now rewrite bind_get_fs. Qed.

Lemma W_batch_run env model_name device in_path out_path language order_criterion w :
  WhisperTranscriber.transcribe_multiple_files env model_name device in_path out_path
    language order_criterion w =
  for_each
    (sort_files env in_path order_criterion
       (supported_files env WhisperTranscriber.extensions (fs w) in_path))
    (fun file =>
       WhisperTranscriber.transcribe_single_file env model_name device file in_path
         out_path language)
    w.
Proof. unfold WhisperTranscriber.transcribe_multiple_files. now rewrite bind_get_fs. Qed.

(** A loop cut at a position it reaches: when the rounds before the
    position and the round at the position return, the loop goes on with
    the rounds after it. *)
Lemma for_each_reached {A} (l : list A) (body : A -> M unit) (N : nat) (x : A) w :
  l !! N = Some x ->
  let before := for_each (take N l) body w in
  let at_N := body x (world before) in
  let after := for_each (drop (S N) l) body (world at_N) in
  outcome before = inr tt -> outcome at_N = inr tt ->
  outcome (for_each l body w) = outcome after /\
  events (for_each l body w) = (events before ++ events at_N ++ events after)%list.
Proof.
  intros Hx. cbv zeta. intros Hb Ha.
  assert (E : for_each l body w =
              bind (for_each (take N l) body)
                   (fun _ => for_each (x :: drop (S N) l) body) w).
  { rewrite <- for_each_app. now rewrite (take_drop_middle l N x Hx). }
  rewrite E, (bind_ok _ _ _ _ Hb).
  cbn [events outcome for_each].
  rewrite (bind_ok _ _ _ _ Ha). split; reflexivity.
Qed.

(** A loop whose body returns normally, cut at a position. *)
Lemma for_each_split {A} (l : list A) (body : A -> M unit) (N : nat) (x : A) w :
  (forall y, never_raises (body y)) ->
  l !! N = Some x ->
  let before := for_each (take N l) body w in
  let at_N := body x (world before) in
  let after := for_each (drop (S N) l) body (world at_N) in
  outcome (for_each l body w) = inr tt /\
  events (for_each l body w) = (events before ++ events at_N ++ events after)%list.
Proof.
  intros Hn Hx. cbv zeta.
  split; [apply never_raises_tt, never_raises_for_each, Hn|].
  apply (for_each_reached l body N x w Hx).
  - apply never_raises_tt, never_raises_for_each, Hn.
  - apply never_raises_tt, Hn.
Qed.

Lemma T_batch_raises_only env m in_path out_path language order_criterion :
  raises_only (launch_failure env)
    (Transcriber.transcribe_multiple_files env m in_path out_path language
       order_criterion).
Proof.
  unfold Transcriber.transcribe_multiple_files.
  apply raises_only_bind; [apply raises_only_never, never_raises_get_fs | intros f].
  cbv zeta. apply raises_only_for_each. intros x. apply T_single_raises_only.
Qed.

Lemma W_batch_raises_only env model_name device in_path out_path language
    order_criterion :
  raises_only (launch_failure env)
    (WhisperTranscriber.transcribe_multiple_files env model_name device in_path
       out_path language order_criterion).
Proof.
  unfold WhisperTranscriber.transcribe_multiple_files.
  apply raises_only_bind; [apply raises_only_never, never_raises_get_fs | intros f].
  cbv zeta. apply raises_only_for_each. intros x. apply W_single_raises_only.
Qed.

Lemma T_batch_never_raises env m in_path out_path language order_criterion :
  converter_starts env ->
  never_raises
    (Transcriber.transcribe_multiple_files env m in_path out_path language
       order_criterion).
Proof.
  intros Hs. eapply never_raises_started; [exact Hs | apply T_batch_raises_only].
Qed.

Lemma W_batch_never_raises env model_name device in_path out_path language
    order_criterion :
  converter_starts env ->
  never_raises
    (WhisperTranscriber.transcribe_multiple_files env model_name device in_path
       out_path language order_criterion).
Proof.
  intros Hs. eapply never_raises_started; [exact Hs | apply W_batch_raises_only].
Qed.

(** The files of a loop of calls: a prefix of the list, all of it when
    the loop returns. *)
Lemma T_loop_headers_prefix env m in_path out_path language l w :
  processed_files
    (events (for_each l
       (fun file => Transcriber.transcribe_single_file env m file in_path out_path
                      language) w))
  `prefix_of` l.
Proof.
  unfold processed_files. rewrite <- (concat_singletons l) at 2.
  apply (for_each_omap_prefix header_of (fun x => [x])).
  - intros x w' _.
    pose proof (T_single_headers env x in_path out_path language m w') as H.
    unfold processed_files in H. now rewrite H.
  - intros x w' _ _. exact (T_single_headers env x in_path out_path language m w').
Qed.

Lemma T_loop_headers env m in_path out_path language l w :
  outcome (for_each l
     (fun file => Transcriber.transcribe_single_file env m file in_path out_path
                    language) w) = inr tt ->
  processed_files
    (events (for_each l
       (fun file => Transcriber.transcribe_single_file env m file in_path out_path
                      language) w))
  = l.
Proof.
  intros Ho. unfold processed_files.
  rewrite (for_each_omap_returns header_of (fun x => [x])).
  - apply concat_singletons.
  - intros x w' _ _. exact (T_single_headers env x in_path out_path language m w').
  - exact Ho.
Qed.

Lemma W_loop_headers_prefix env model_name device in_path out_path language l w :
  processed_files
    (events (for_each l
       (fun file => WhisperTranscriber.transcribe_single_file env model_name device
                      file in_path out_path language) w))
  `prefix_of` l.
Proof.
  unfold processed_files. rewrite <- (concat_singletons l) at 2.
  apply (for_each_omap_prefix header_of (fun x => [x])).
  - intros x w' _.
    pose proof (W_single_headers env x in_path out_path language model_name device w')
      as H.
    unfold processed_files in H. now rewrite H.
  - intros x w' _ _.
    exact (W_single_headers env x in_path out_path language model_name device w').
Qed.

Lemma W_loop_headers env model_name device in_path out_path language l w :
  outcome (for_each l
     (fun file => WhisperTranscriber.transcribe_single_file env model_name device
                    file in_path out_path language) w) = inr tt ->
  processed_files
    (events (for_each l
       (fun file => WhisperTranscriber.transcribe_single_file env model_name device
                      file in_path out_path language) w))
  = l.
Proof.
  intros Ho. unfold processed_files.
  rewrite (for_each_omap_returns header_of (fun x => [x])).
  - apply concat_singletons.
  - intros x w' _ _.
    exact (W_single_headers env x in_path out_path language model_name device w').
  - exact Ho.
Qed.

Lemma T_batch_headers_prefix env m in_path out_path language order_criterion w :
  processed_files
    (events (Transcriber.transcribe_multiple_files env m in_path out_path language
               order_criterion w))
  `prefix_of`
  sort_files env in_path order_criterion
    (supported_files env Transcriber.EXTENSIONS_SUPPORTED (fs w) in_path).
Proof. rewrite T_batch_run. apply T_loop_headers_prefix. Qed.

Lemma T_batch_headers env m in_path out_path language order_criterion w :
  outcome (Transcriber.transcribe_multiple_files env m in_path out_path language
             order_criterion w) = inr tt ->
  processed_files
    (events (Transcriber.transcribe_multiple_files env m in_path out_path language
               order_criterion w)) =
  sort_files env in_path order_criterion
    (supported_files env Transcriber.EXTENSIONS_SUPPORTED (fs w) in_path).
Proof. rewrite T_batch_run. apply T_loop_headers. Qed.

Lemma W_batch_headers_prefix env model_name device in_path out_path language
    order_criterion w :
  processed_files
    (events (WhisperTranscriber.transcribe_multiple_files env model_name device
               in_path out_path language order_criterion w))
  `prefix_of`
  sort_files env in_path order_criterion
    (supported_files env WhisperTranscriber.extensions (fs w) in_path).
Proof. rewrite W_batch_run. apply W_loop_headers_prefix. Qed.

Lemma W_batch_headers env model_name device in_path out_path language
    order_criterion w :
  outcome (WhisperTranscriber.transcribe_multiple_files env model_name device
             in_path out_path language order_criterion w) = inr tt ->
  processed_files
    (events (WhisperTranscriber.transcribe_multiple_files env model_name device
               in_path out_path language order_criterion w)) =
  sort_files env in_path order_criterion
    (supported_files env WhisperTranscriber.extensions (fs w) in_path).
Proof. rewrite W_batch_run. apply W_loop_headers. Qed.

Lemma sorted_supported env allowed f in_path order_criterion x :
  In x (sort_files env in_path order_criterion (supported_files env allowed f in_path)) ->
  str_in (Str.lower (Path.splitext x).2) allowed = true.
Proof. rewrite sort_files_In, supported_files_In. tauto. Qed.

Lemma In_drop {A} (x : A) (n : nat) (l : list A) : In x (drop n l) -> In x l.
Proof.
  revert l. induction n as [|n IH]; intros [|y l]; simpl; auto.
Qed.

Lemma In_lookup {A} (l : list A) (i : nat) (x : A) : l !! i = Some x -> In x l.
Proof. intros H. apply list_elem_of_In. eapply list_elem_of_lookup_2, H. Qed.

(** The model calls of a loop of calls over allow-listed files: one per
    file when the loop returns, a prefix of that otherwise. *)
Lemma T_loop_calls_prefix env m in_path out_path language l w :
  (forall x, In x l ->
     str_in (Str.lower (Path.splitext x).2) Transcriber.EXTENSIONS_SUPPORTED = true) ->
  model_calls
    (events (for_each l
       (fun file => Transcriber.transcribe_single_file env m file in_path out_path
                      language) w))
  `prefix_of`
  List.map (fun file =>
         (m, if str_in (Str.lower (Path.splitext file).2)
                       Transcriber.EXTENSIONS_REQUIRING_CONVERSION
             then Path.join in_path ((Path.splitext file).1 ++ ".mp3")
             else Path.join in_path file)) l.
Proof.
  intros Hs. unfold model_calls.
  rewrite <- (concat_singletons (List.map _ l)), List.map_map.
  apply (for_each_omap_prefix call_of).
  - intros x w' Hin. apply T_single_calls_prefix, Hs, Hin.
  - intros x w' Hin Ho. apply T_single_calls; [apply Hs, Hin | exact Ho].
Qed.

Lemma T_loop_calls env m in_path out_path language l w :
  (forall x, In x l ->
     str_in (Str.lower (Path.splitext x).2) Transcriber.EXTENSIONS_SUPPORTED = true) ->
  outcome (for_each l
     (fun file => Transcriber.transcribe_single_file env m file in_path out_path
                    language) w) = inr tt ->
  model_calls
    (events (for_each l
       (fun file => Transcriber.transcribe_single_file env m file in_path out_path
                      language) w))
  = List.map (fun file =>
         (m, if str_in (Str.lower (Path.splitext file).2)
                       Transcriber.EXTENSIONS_REQUIRING_CONVERSION
             then Path.join in_path ((Path.splitext file).1 ++ ".mp3")
             else Path.join in_path file)) l.
Proof.
  intros Hs Ho. unfold model_calls.
  rewrite <- (concat_singletons (List.map _ l)), List.map_map.
  apply (for_each_omap_returns call_of); [|exact Ho].
  intros x w' Hin Hx. apply T_single_calls; [apply Hs, Hin | exact Hx].
Qed.

Lemma W_loop_calls_length env model_name device in_path out_path language l w :
  (forall x, In x l ->
     str_in (Str.lower (Path.splitext x).2) WhisperTranscriber.extensions = true) ->
  outcome (for_each l
     (fun file => WhisperTranscriber.transcribe_single_file env model_name device
                    file in_path out_path language) w) = inr tt ->
  length (model_calls
    (events (for_each l
       (fun file => WhisperTranscriber.transcribe_single_file env model_name device
                      file in_path out_path language) w)))
  = length l.
Proof.
  intros Hs. revert w. induction l as [|x l IH]; intros w; [reflexivity|].
  cbn [for_each]. intros H. destruct (bind_inr_inv _ _ _ _ H) as ([] & E & H').
  rewrite (events_bind_ok _ _ _ _ E). unfold model_calls. rewrite omap_app, length_app.
  change (omap call_of) with model_calls.
  rewrite (W_single_calls env x in_path out_path language model_name device w)
    by (auto; apply Hs; now left).
  cbn [length]. f_equal. apply IH; [|exact H']. intros; apply Hs; now right.
Qed.
(** * The claims *)

(** ** C8 *)

(** C8. [extract_number] applied to "clip_(12).wav" returns the integer 12,
    and applied to "clip.wav" it returns no value. *)
Theorem extract_number_examples :
  extract_number "clip_(12).wav" = Some 12%N /\ extract_number "clip.wav" = None.
Proof. split; reflexivity. Qed.

(** ** C3 *)

Lemma sort_files_5 env in_path files :
  sort_files env in_path "5" files = list_sort number_key false files.
Proof. reflexivity. Qed.

Example criterion_5_numeric_not_lexical :
  sort_files sample_env "/in" "5" ["t(10).wav"; "t.wav"; "t(9).wav"; "t(009).mp3"] =
  ["t(9).wav"; "t(009).mp3"; "t(10).wav"; "t.wav"].
Proof. reflexivity. Qed.

(** C3. Under ordering criterion "5", for every list of files: a file whose
    name has no parenthesized integer comes after every file that has one
    (its key is positive infinity), and the files that have one are in
    ascending order of the value of that integer. *)
Theorem criterion_5_order (env : Env) (in_path : string) (files : list string) :
  let ordered := sort_files env in_path "5" files in
  (forall i j x y n,
     ordered !! i = Some x -> ordered !! j = Some y ->
     extract_number x = None -> extract_number y = Some n ->
     number_key x = PosInf /\ (j < i)%nat) /\
  (forall i j x y a b,
     ordered !! i = Some x -> ordered !! j = Some y -> (i < j)%nat ->
     extract_number x = Some a -> extract_number y = Some b ->
     (a <= b)%N).
Proof.
  cbv zeta. rewrite sort_files_5.
  pose proof (list_sort_sorted number_key false files) as Hs.
  split.
  - intros i j x y n Hi Hj Hx Hy.
    split; [unfold number_key; now rewrite Hx|].
    destruct (Nat.lt_trichotomy j i) as [Hlt|[Heq|Hgt]]; [exact Hlt| |].
    + subst j. rewrite Hi in Hj. injection Hj as <-. congruence.
    + pose proof (StronglySorted_lookup _ _ _ _ _ _ Hs Hgt Hi Hj) as Hle.
      unfold key_le, key_lt, number_key in Hle. rewrite Hx, Hy in Hle.
      discriminate.
  - intros i j x y a b Hi Hj Hij Hx Hy.
    pose proof (StronglySorted_lookup _ _ _ _ _ _ Hs Hij Hi Hj) as Hle.
    unfold key_le, key_lt, number_key in Hle. rewrite Hx, Hy in Hle.
    simpl in Hle. lia.
Qed.

Lemma criterion_5_order_witness :
  (number_key "t.wav" = PosInf /\ (1 < 2)%nat) /\ (9 <= 10)%N.
Proof.
  pose proof (criterion_5_order sample_env "/in" ["t(10).wav"; "t.wav"; "t(9).wav"])
    as [H1 H2].
  split.
  - apply (H1 2%nat 1%nat "t.wav" "t(10).wav" 10%N); reflexivity.
  - apply (H2 0%nat 1%nat "t(9).wav" "t(10).wav" 9%N 10%N);
      [reflexivity | reflexivity | lia | reflexivity | reflexivity].
Defined.

(** ** C4 *)

(** With a converter that cannot be started, the batch of transcriber.py
    over the sample directory ends at the second of its four supported
    files, and so does the batch of whisper_transcriber.py: the files
    processed are not a permutation of the filtered listing. *)
Lemma aborted_batch_drops_supported_files :
  let m := Model 0 "tiny" "cpu" in
  let supported :=
    supported_files unstartable_env Transcriber.EXTENSIONS_SUPPORTED
      (fs sample_world) "/in" in
  let T_batch :=
    Transcriber.transcribe_multiple_files unstartable_env m "/in" "/out" "Italian"
      "6" sample_world in
  let W_batch :=
    WhisperTranscriber.transcribe_multiple_files unstartable_env "tiny" "cpu" "/in"
      "/out" "Italian" "6" sample_world in
  supported = ["b(10).wav"; "a.mkv"; "c(9).mp3"; "d(9).MKV"] /\
  supported_files unstartable_env WhisperTranscriber.extensions (fs sample_world) "/in"
    = supported /\
  outcome T_batch = inl (OSError "ffmpeg") /\
  processed_files (events T_batch) = ["b(10).wav"; "a.mkv"] /\
  ~ Permutation (processed_files (events T_batch)) supported /\
  outcome W_batch = inl (OSError "ffmpeg") /\
  processed_files (events W_batch) = ["b(10).wav"; "a.mkv"] /\
  ~ Permutation (processed_files (events W_batch)) supported.
Proof.
  cbv zeta.
  assert (Es : supported_files unstartable_env Transcriber.EXTENSIONS_SUPPORTED
                 (fs sample_world) "/in"
               = ["b(10).wav"; "a.mkv"; "c(9).mp3"; "d(9).MKV"])
    by (vm_compute; reflexivity).
  assert (ET : processed_files
                 (events (Transcriber.transcribe_multiple_files unstartable_env
                            (Model 0 "tiny" "cpu") "/in" "/out" "Italian" "6"
                            sample_world))
               = ["b(10).wav"; "a.mkv"]) by (vm_compute; reflexivity).
  assert (EW : processed_files
                 (events (WhisperTranscriber.transcribe_multiple_files unstartable_env
                            "tiny" "cpu" "/in" "/out" "Italian" "6" sample_world))
               = ["b(10).wav"; "a.mkv"]) by (vm_compute; reflexivity).
  rewrite Es, ET, EW.
  repeat split; try (vm_compute; reflexivity);
    intros H; apply Permutation_length in H; discriminate H.
Qed.

(** C4. For every directory listing and every ordering
    criterion, in both scripts: the ordered sequence the multi-file
    dispatcher iterates over is a permutation of the filtered listing; the
    files it processes are a prefix of that sequence, hence all of them in
    the filtered listing; when the batch runs to its end, which it does
    whenever the converter can be started, they are the whole sequence, a
    permutation of the filtered listing.  The filtered listing holds
    exactly the entries of the listing that are regular files with an
    allow-listed extension. *)
Theorem processed_is_prefix_of_ordered_supported
    (env : Env) (w : World) (in_path out_path language order_criterion : string) :
  (forall allowed,
     Permutation
       (sort_files env in_path order_criterion
          (supported_files env allowed (fs w) in_path))
       (supported_files env allowed (fs w) in_path)) /\
  (forall m,
     let batch :=
       Transcriber.transcribe_multiple_files env m in_path out_path language
         order_criterion w in
     let supported :=
       supported_files env Transcriber.EXTENSIONS_SUPPORTED (fs w) in_path in
     processed_files (events batch)
       `prefix_of` sort_files env in_path order_criterion supported /\
     (forall x, In x (processed_files (events batch)) -> In x supported) /\
     (outcome batch = inr tt ->
      Permutation (processed_files (events batch)) supported) /\
     (converter_starts env -> outcome batch = inr tt)) /\
  (forall model_name device,
     let batch :=
       WhisperTranscriber.transcribe_multiple_files env model_name device in_path
         out_path language order_criterion w in
     let supported :=
       supported_files env WhisperTranscriber.extensions (fs w) in_path in
     processed_files (events batch)
       `prefix_of` sort_files env in_path order_criterion supported /\
     (forall x, In x (processed_files (events batch)) -> In x supported) /\
     (outcome batch = inr tt ->
      Permutation (processed_files (events batch)) supported) /\
     (converter_starts env -> outcome batch = inr tt)) /\
  (forall allowed x,
     In x (supported_files env allowed (fs w) in_path) <->
     In x (listdir env in_path) /\
     isfile (fs w) (Path.join in_path x) = true /\
     str_in (Str.lower (Path.splitext x).2) allowed = true).
Proof.
  split; [|split; [|split]].
  - intros allowed. apply sort_files_perm.
  - intros m. cbv zeta. repeat split.
    + apply T_batch_headers_prefix.
    + intros x Hx. eapply sort_files_In.
      apply list_elem_of_In.
      eapply elem_of_prefix; [apply list_elem_of_In, Hx | apply T_batch_headers_prefix].
    + intros Ho. rewrite (T_batch_headers _ _ _ _ _ _ _ Ho). apply sort_files_perm.
    + intros Hs. apply never_raises_tt, T_batch_never_raises, Hs.
  - intros model_name device. cbv zeta. repeat split.
    + apply W_batch_headers_prefix.
    + intros x Hx. eapply sort_files_In.
      apply list_elem_of_In.
      eapply elem_of_prefix; [apply list_elem_of_In, Hx | apply W_batch_headers_prefix].
    + intros Ho. rewrite (W_batch_headers _ _ _ _ _ _ _ _ Ho). apply sort_files_perm.
    + intros Hs. apply never_raises_tt, W_batch_never_raises, Hs.
  - intros allowed x. apply supported_files_In.
Qed.

Lemma processed_is_prefix_of_ordered_supported_witness :
  let m := Model 0 "tiny" "cpu" in
  let T_batch :=
    Transcriber.transcribe_multiple_files sample_env m "/in" "/out" "Italian" "5"
      sample_world in
  let W_batch :=
    WhisperTranscriber.transcribe_multiple_files sample_env "tiny" "cpu" "/in" "/out"
      "Italian" "5" sample_world in
  (converter_starts sample_env /\ outcome T_batch = inr tt /\
   Permutation (processed_files (events T_batch))
     ["b(10).wav"; "a.mkv"; "c(9).mp3"; "d(9).MKV"] /\
   In "a.mkv" (processed_files (events T_batch))) /\
  (outcome W_batch = inr tt /\
   Permutation (processed_files (events W_batch))
     ["b(10).wav"; "a.mkv"; "c(9).mp3"; "d(9).MKV"]).
Proof.
  cbv zeta.
  pose proof (processed_is_prefix_of_ordered_supported sample_env sample_world
                "/in" "/out" "Italian" "5") as (_ & HT & HW & _).
  split.
  - destruct (HT (Model 0 "tiny" "cpu")) as (_ & _ & Hperm & Hend).
    split; [exact sample_env_starts|].
    split; [exact (Hend sample_env_starts)|].
    split; [exact (Hperm (Hend sample_env_starts))|].
    vm_compute. auto.
  - destruct (HW "tiny" "cpu") as (_ & _ & Hperm & Hend).
    split; [exact (Hend sample_env_starts) | exact (Hperm (Hend sample_env_starts))].
Defined.
(** ** C2 *)

(** A sequence starts with the first event of its first part. *)
Lemma head_bind {A B} (c : M A) (k : A -> M B) w e :
  head (events (c w)) = Some e -> head (events (bind c k w)) = Some e.
Proof.
  unfold bind. destruct (outcome (c w)); simpl; [auto|].
  destruct (events (c w)); simpl; [discriminate | auto].
Qed.

(** A loop that has a round left starts it: the first event is the
    header of the next file. *)
Lemma T_loop_head env m in_path out_path language l N next w :
  l !! N = Some next ->
  head (events (for_each (drop N l)
         (fun f => Transcriber.transcribe_single_file env m f in_path out_path
                     language) w))
  = Some (Print (FileHeader next)).
Proof.
  intros H. rewrite (drop_S _ _ _ H). cbn [for_each]. apply head_bind.
  unfold Transcriber.transcribe_single_file. now rewrite events_bind_print.
Qed.

Lemma W_loop_head env model_name device in_path out_path language l N next w :
  l !! N = Some next ->
  head (events (for_each (drop N l)
         (fun f => WhisperTranscriber.transcribe_single_file env model_name device f
                     in_path out_path language) w))
  = Some (Print (FileHeader next)).
Proof.
  intros H. rewrite (drop_S _ _ _ H). cbn [for_each]. apply head_bind.
  unfold WhisperTranscriber.transcribe_single_file. now rewrite events_bind_print.
Qed.

(** With a converter that cannot be started, the model fails on the file
    at position 0 of the batch of transcriber.py over the sample directory
    and the failure is caught and logged; the converter is then asked for
    at position 1, the [OSError] of the launch leaves the batch, and the
    files at positions 2 and 3 are not processed.  The same in
    whisper_transcriber.py. *)
Lemma transcription_failure_then_aborted_batch :
  let m := Model 0 "tiny" "cpu" in
  let files :=
    sort_files unstartable_env "/in" "6"
      (supported_files unstartable_env Transcriber.EXTENSIONS_SUPPORTED
         (fs sample_world) "/in") in
  let T_batch :=
    Transcriber.transcribe_multiple_files unstartable_env m "/in" "/out" "Italian"
      "6" sample_world in
  let W_batch :=
    WhisperTranscriber.transcribe_multiple_files unstartable_env "tiny" "cpu" "/in"
      "/out" "Italian" "6" sample_world in
  files = ["b(10).wav"; "a.mkv"; "c(9).mp3"; "d(9).MKV"] /\
  outcome (Transcriber.transcription_attempt unstartable_env m "b(10).wav"
             "/in/b(10).wav" "/out/b(10).txt" "Italian" sample_world)
    = inl (RuntimeError "out of memory") /\
  In (Print (TranscriptionError "b(10).wav" (RuntimeError "out of memory")))
     (events T_batch) /\
  outcome T_batch = inl (OSError "ffmpeg") /\
  processed_files (events T_batch) = ["b(10).wav"; "a.mkv"] /\
  ~ (forall x, In x (drop 1 files) -> In x (processed_files (events T_batch))) /\
  In (Print (TranscriptionError "b(10).wav" (RuntimeError "out of memory")))
     (events W_batch) /\
  outcome W_batch = inl (OSError "ffmpeg") /\
  processed_files (events W_batch) = ["b(10).wav"; "a.mkv"].
Proof.
  cbv zeta.
  assert (ET : processed_files
                 (events (Transcriber.transcribe_multiple_files unstartable_env
                            (Model 0 "tiny" "cpu") "/in" "/out" "Italian" "6"
                            sample_world))
               = ["b(10).wav"; "a.mkv"]) by (vm_compute; reflexivity).
  rewrite ET.
  repeat split; try (vm_compute; reflexivity).
  - vm_compute. auto 10.
  - intros H. specialize (H "c(9).mp3").
    assert (Hin : In "c(9).mp3"
              (drop 1 (sort_files unstartable_env "/in" "6"
                         (supported_files unstartable_env
                            Transcriber.EXTENSIONS_SUPPORTED (fs sample_world) "/in"))))
      by (vm_compute; auto).
    apply H in Hin. cbn in Hin. intuition discriminate.
  - vm_compute. auto 10.
Qed.

(** C2. For every batch run over a directory and every position
    [N] of the ordered sequence of files, in both scripts.
    - When the run reaches the [try] statement of the file at [N] (the
      calls before [N] and the conversion block at [N] return): the call
      for the file at [N] ends normally, and when its [try] block fails
      with an exception the failure is printed for that file; the batch
      goes on with the files after [N], starting with the next one, and
      the files processed after [N] are a prefix of the rest of the
      sequence.
    - The only exception that ends a batch is that of a converter that
      could not be started.
    - When the converter can be started, the batch ends normally and all
      of the above holds with every file after [N] entered, in order, and
      handed to the model. *)
Theorem transcription_failure_does_not_abort_batch :
  (forall env m in_path out_path language order_criterion w N file,
     let files :=
       sort_files env in_path order_criterion
         (supported_files env Transcriber.EXTENSIONS_SUPPORTED (fs w) in_path) in
     let body := fun f =>
       Transcriber.transcribe_single_file env m f in_path out_path language in
     let batch :=
       Transcriber.transcribe_multiple_files env m in_path out_path language
         order_criterion w in
     let before := for_each (take N files) body w in
     let at_N := body file (world before) in
     let after := for_each (drop (S N) files) body (world at_N) in
     let path :=
       if str_in (Str.lower (Path.splitext file).2)
                 Transcriber.EXTENSIONS_REQUIRING_CONVERSION
       then Path.join in_path ((Path.splitext file).1 ++ ".mp3")
       else Path.join in_path file in
     let txt := Path.join out_path ((Path.splitext file).1 ++ ".txt") in
     let conversion := Transcriber.resolve_file_path env file in_path (world before) in
     let try_world := world conversion in
     let logged := forall e,
       outcome (Transcriber.transcription_attempt env m file path txt language
                  try_world) = inl e ->
       In (Print (TranscriptionError file e)) (events at_N) in
     files !! N = Some file ->
     (outcome before = inr tt -> outcome conversion = inr path ->
        outcome at_N = inr tt /\
        logged /\
        outcome batch = outcome after /\
        events batch = (events before ++ events at_N ++ events after)%list /\
        (forall next, files !! S N = Some next ->
                      head (events after) = Some (Print (FileHeader next))) /\
        processed_files (events after) `prefix_of` drop (S N) files) /\
     (forall e, outcome batch = inl e -> launch_failure env e) /\
     (converter_starts env ->
        outcome batch = inr tt /\
        events batch = (events before ++ events at_N ++ events after)%list /\
        outcome at_N = inr tt /\
        logged /\
        processed_files (events after) = drop (S N) files /\
        length (model_calls (events after)) = length (drop (S N) files))) /\
  (forall env model_name device in_path out_path language order_criterion w N file,
     let files :=
       sort_files env in_path order_criterion
         (supported_files env WhisperTranscriber.extensions (fs w) in_path) in
     let body := fun f =>
       WhisperTranscriber.transcribe_single_file env model_name device f in_path
         out_path language in
     let batch :=
       WhisperTranscriber.transcribe_multiple_files env model_name device in_path
         out_path language order_criterion w in
     let before := for_each (take N files) body w in
     let at_N := body file (world before) in
     let after := for_each (drop (S N) files) body (world at_N) in
     let mdl := Model (next_model (world before)) model_name device in
     let path :=
       if str_in (Str.lower (Path.splitext file).2)
                 WhisperTranscriber.unsupported_extensions
       then Path.join in_path ((Path.splitext file).1 ++ ".mp3")
       else Path.join in_path file in
     let txt := Path.join out_path ((Path.splitext file).1 ++ ".txt") in
     let conversion :=
       WhisperTranscriber.resolve_file_path env file in_path
         (bump_model (world before)) in
     let try_world := world conversion in
     let logged := forall e,
       outcome (WhisperTranscriber.transcription_attempt env mdl file path in_path
                  txt language try_world) = inl e ->
       In (Print (TranscriptionError file e)) (events at_N) in
     files !! N = Some file ->
     (outcome before = inr tt -> outcome conversion = inr path ->
        outcome at_N = inr tt /\
        logged /\
        outcome batch = outcome after /\
        events batch = (events before ++ events at_N ++ events after)%list /\
        (forall next, files !! S N = Some next ->
                      head (events after) = Some (Print (FileHeader next))) /\
        processed_files (events after) `prefix_of` drop (S N) files) /\
     (forall e, outcome batch = inl e -> launch_failure env e) /\
     (converter_starts env ->
        outcome batch = inr tt /\
        events batch = (events before ++ events at_N ++ events after)%list /\
        outcome at_N = inr tt /\
        logged /\
        processed_files (events after) = drop (S N) files /\
        length (model_calls (events after)) = length (drop (S N) files))).
Proof.
  split.
  - intros env m in_path out_path language order_criterion w N file.
    cbv zeta. intros Hx.
    set (files := sort_files _ _ _ _) in *.
    set (body := fun f => Transcriber.transcribe_single_file env m f in_path out_path
                            language).
    assert (Hs : forall y, In y files ->
              str_in (Str.lower (Path.splitext y).2) Transcriber.EXTENSIONS_SUPPORTED
              = true) by (intros y; apply sorted_supported).
    set (path := if str_in (Str.lower (Path.splitext file).2)
                           Transcriber.EXTENSIONS_REQUIRING_CONVERSION
                 then Path.join in_path ((Path.splitext file).1 ++ ".mp3")
                 else Path.join in_path file).
    set (txt := Path.join out_path ((Path.splitext file).1 ++ ".txt")).
    assert (Hlog : forall w0,
              outcome (Transcriber.resolve_file_path env file in_path w0) = inr path ->
              forall e,
              outcome (Transcriber.transcription_attempt env m file path txt language
                         (world (Transcriber.resolve_file_path env file in_path w0)))
                = inl e ->
              In (Print (TranscriptionError file e)) (events (body file w0))).
    { intros w0 Hc e Hatt. unfold body.
      rewrite (T_single_supported _ _ _ _ _ _ _ (Hs _ (In_lookup _ _ _ Hx)) Hc).
      cbn [events]. right. apply in_or_app. right. right.
      rewrite (try_except_caught _ _ _ _ e Hatt (is_Exception_all e)).
      apply in_or_app. right. now left. }
    split; [|split].
    + intros Hb Hc.
      assert (Ha : outcome (body file (world (for_each (take N files) body w))) = inr tt).
      { unfold body.
        rewrite (T_single_supported _ _ _ _ _ _ _ (Hs _ (In_lookup _ _ _ Hx)) Hc).
        cbn [outcome]. apply T_try_run. }
      rewrite T_batch_run. fold files. fold body.
      destruct (for_each_reached files body N file w Hx Hb Ha) as [Ho He].
      split; [exact Ha|]. split; [exact (Hlog _ Hc)|].
      split; [exact Ho|]. split; [exact He|]. split.
      * intros next Hnext.
        exact (T_loop_head env m in_path out_path language files (S N) next _ Hnext).
      * apply T_loop_headers_prefix.
    + apply T_batch_raises_only.
    + intros Hst. rewrite T_batch_run. fold files. fold body.
      assert (Hn : forall y, never_raises (body y))
        by exact (fun y => T_single_never_raises env m y in_path out_path language Hst).
      destruct (for_each_split files body N file w Hn Hx) as [Ho He].
      split; [exact Ho|]. split; [exact He|].
      split; [apply never_raises_tt, Hn|].
      split; [apply Hlog, T_resolve_started, Hst|].
      split.
      * apply T_loop_headers. apply never_raises_tt, never_raises_for_each, Hn.
      * unfold body. rewrite T_loop_calls.
        -- apply length_map.
        -- intros y Hy. eapply Hs, In_drop, Hy.
        -- apply never_raises_tt, never_raises_for_each, Hn.
  - intros env model_name device in_path out_path language order_criterion w N file.
    cbv zeta. intros Hx.
    set (files := sort_files _ _ _ _) in *.
    set (body := fun f => WhisperTranscriber.transcribe_single_file env model_name
                            device f in_path out_path language).
    assert (Hs : forall y, In y files ->
              str_in (Str.lower (Path.splitext y).2) WhisperTranscriber.extensions
              = true) by (intros y; apply sorted_supported).
    set (path := if str_in (Str.lower (Path.splitext file).2)
                           WhisperTranscriber.unsupported_extensions
                 then Path.join in_path ((Path.splitext file).1 ++ ".mp3")
                 else Path.join in_path file).
    set (txt := Path.join out_path ((Path.splitext file).1 ++ ".txt")).
    assert (Hlog : forall w0,
              outcome (WhisperTranscriber.resolve_file_path env file in_path
                         (bump_model w0)) = inr path ->
              forall e,
              outcome (WhisperTranscriber.transcription_attempt env
                         (Model (next_model w0) model_name device) file path in_path txt
                         language
                         (world (WhisperTranscriber.resolve_file_path env file in_path
                                   (bump_model w0))))
                = inl e ->
              In (Print (TranscriptionError file e)) (events (body file w0))).
    { intros w0 Hc e Hatt. unfold body.
      rewrite (W_single_supported _ _ _ _ _ _ _ _ (Hs _ (In_lookup _ _ _ Hx)) Hc).
      cbn [events]. right. right. apply in_or_app. right. right.
      rewrite (try_except_caught _ _ _ _ e Hatt (is_Exception_all e)).
      apply in_or_app. right. now left. }
    split; [|split].
    + intros Hb Hc.
      assert (Ha : outcome (body file (world (for_each (take N files) body w))) = inr tt).
      { unfold body.
        rewrite (W_single_supported _ _ _ _ _ _ _ _ (Hs _ (In_lookup _ _ _ Hx)) Hc).
        cbn [outcome]. apply W_try_run. }
      rewrite W_batch_run. fold files. fold body.
      destruct (for_each_reached files body N file w Hx Hb Ha) as [Ho He].
      split; [exact Ha|]. split; [exact (Hlog _ Hc)|].
      split; [exact Ho|]. split; [exact He|]. split.
      * intros next Hnext.
        exact (W_loop_head env model_name device in_path out_path language files (S N)
                 next _ Hnext).
      * apply W_loop_headers_prefix.
    + apply W_batch_raises_only.
    + intros Hst. rewrite W_batch_run. fold files. fold body.
      assert (Hn : forall y, never_raises (body y))
        by exact (fun y =>
                    W_single_never_raises env model_name device y in_path out_path
                      language Hst).
      destruct (for_each_split files body N file w Hn Hx) as [Ho He].
      split; [exact Ho|]. split; [exact He|].
      split; [apply never_raises_tt, Hn|].
      split; [apply Hlog, W_resolve_started, Hst|].
      split.
      * apply W_loop_headers. apply never_raises_tt, never_raises_for_each, Hn.
      * unfold body. apply W_loop_calls_length.
        -- intros y Hy. eapply Hs, In_drop, Hy.
        -- apply never_raises_tt, never_raises_for_each, Hn.
Qed.

Lemma transcription_failure_does_not_abort_batch_witness :
  let m := Model 0 "tiny" "cpu" in
  let T_body := fun f =>
    Transcriber.transcribe_single_file flaky_env m f "/in" "/out" "Italian" in
  let T_before := for_each ["c(9).mp3"; "d(9).MKV"] T_body sample_world in
  let T_at := T_body "b(10).wav" (world T_before) in
  let T_after := for_each ["a.mkv"] T_body (world T_at) in
  let W_body := fun f =>
    WhisperTranscriber.transcribe_single_file flaky_env "tiny" "cpu" f "/in" "/out"
      "Italian" in
  let W_before := for_each ["c(9).mp3"; "d(9).MKV"] W_body sample_world in
  let W_at := W_body "b(10).wav" (world W_before) in
  let W_after := for_each ["a.mkv"] W_body (world W_at) in
  (outcome (Transcriber.transcribe_multiple_files flaky_env m "/in" "/out" "Italian"
              "5" sample_world) = inr tt /\
   In (Print (TranscriptionError "b(10).wav" (RuntimeError "out of memory")))
      (events T_at) /\
   head (events T_after) = Some (Print (FileHeader "a.mkv")) /\
   processed_files (events T_after) = ["a.mkv"]) /\
  (outcome (WhisperTranscriber.transcribe_multiple_files flaky_env "tiny" "cpu" "/in"
              "/out" "Italian" "5" sample_world) = inr tt /\
   In (Print (TranscriptionError "b(10).wav" (RuntimeError "out of memory")))
      (events W_at) /\
   head (events W_after) = Some (Print (FileHeader "a.mkv")) /\
   processed_files (events W_after) = ["a.mkv"]).
Proof.
  cbv zeta. split.
  - destruct (proj1 transcription_failure_does_not_abort_batch
                flaky_env (Model 0 "tiny" "cpu") "/in" "/out" "Italian" "5"
                sample_world 2%nat "b(10).wav" eq_refl)
      as (HA & _ & HB).
    destruct (HA eq_refl eq_refl) as (_ & _ & _ & _ & Hnext & _).
    destruct (HB flaky_env_starts) as (H1 & _ & _ & H4 & H5 & _).
    split; [exact H1|]. split; [|split; [exact (Hnext "a.mkv" eq_refl) | exact H5]].
    apply (H4 (RuntimeError "out of memory")). reflexivity.
  - destruct (proj2 transcription_failure_does_not_abort_batch
                flaky_env "tiny" "cpu" "/in" "/out" "Italian" "5"
                sample_world 2%nat "b(10).wav" eq_refl)
      as (HA & _ & HB).
    destruct (HA eq_refl eq_refl) as (_ & _ & _ & _ & Hnext & _).
    destruct (HB flaky_env_starts) as (H1 & _ & _ & H4 & H5 & _).
    split; [exact H1|]. split; [|split; [exact (Hnext "a.mkv" eq_refl) | exact H5]].
    apply (H4 (RuntimeError "out of memory")). reflexivity.
Defined.
(** ** C5 *)

Lemma T_resolve_existing env file in_path w :
  str_in (Str.lower (Path.splitext file).2)
         Transcriber.EXTENSIONS_REQUIRING_CONVERSION = true ->
  path_exists (fs w) (Path.join in_path ((Path.splitext file).1 ++ ".mp3")) = true ->
  Transcriber.resolve_file_path env file in_path w =
  mkRun (inr (Path.join in_path ((Path.splitext file).1 ++ ".mp3"))) w
        [Print (StartingConversion file (Path.splitext file).2);
         Print (AlreadyConverted file)].
Proof.
  intros Hc He. unfold Transcriber.resolve_file_path. cbv zeta.
  rewrite Hc, bind_print, bind_get_fs, He. reflexivity.
Qed.

Lemma W_resolve_existing env file in_path w :
  str_in (Str.lower (Path.splitext file).2)
         WhisperTranscriber.unsupported_extensions = true ->
  path_exists (fs w) (Path.join in_path ((Path.splitext file).1 ++ ".mp3")) = true ->
  WhisperTranscriber.resolve_file_path env file in_path w =
  mkRun (inr (Path.join in_path ((Path.splitext file).1 ++ ".mp3"))) w
        [Print (StartingConversion file (Path.splitext file).2);
         Print (AlreadyConverted file)].
Proof.
  intros Hc He. unfold WhisperTranscriber.resolve_file_path. cbv zeta.
  rewrite Hc, bind_print, bind_get_fs, He. reflexivity.
Qed.

(** C5. For every file whose extension is in the conversion subset, if the
    derived [.mp3] sibling path exists when the file is processed, no
    process is spawned for that file, in both scripts: the call prints that
    an mp3 version is already there. *)
Theorem existing_mp3_skips_converter :
  (forall env m file in_path out_path language w,
     str_in (Str.lower (Path.splitext file).2)
            Transcriber.EXTENSIONS_REQUIRING_CONVERSION = true ->
     path_exists (fs w) (Path.join in_path ((Path.splitext file).1 ++ ".mp3")) = true ->
     let r := Transcriber.transcribe_single_file env m file in_path out_path language w in
     Forall (fun e => is_spawn e = false) (events r) /\
     In (Print (AlreadyConverted file)) (events r)) /\
  (forall env model_name device file in_path out_path language w,
     str_in (Str.lower (Path.splitext file).2)
            WhisperTranscriber.unsupported_extensions = true ->
     path_exists (fs w) (Path.join in_path ((Path.splitext file).1 ++ ".mp3")) = true ->
     let r := WhisperTranscriber.transcribe_single_file env model_name device file
                in_path out_path language w in
     Forall (fun e => is_spawn e = false) (events r) /\
     In (Print (AlreadyConverted file)) (events r)).
Proof.
  split.
  - intros env m file in_path out_path language w Hc He. cbv zeta.
    assert (Hr : outcome (Transcriber.resolve_file_path env file in_path w) =
                 inr (if str_in (Str.lower (Path.splitext file).2)
                                Transcriber.EXTENSIONS_REQUIRING_CONVERSION
                      then Path.join in_path ((Path.splitext file).1 ++ ".mp3")
                      else Path.join in_path file))
      by (rewrite (T_resolve_existing _ _ _ _ Hc He), Hc; reflexivity).
    rewrite (T_single_supported _ _ _ _ _ _ _ (T_conversion_subset _ Hc) Hr).
    rewrite (T_resolve_existing _ _ _ _ Hc He). cbn [events world app].
    split; [|right; right; now left].
    repeat (apply Forall_cons; split; [reflexivity|]).
    now apply T_try_emits.
  - intros env model_name device file in_path out_path language w Hc He. cbv zeta.
    assert (Hr : outcome (WhisperTranscriber.resolve_file_path env file in_path
                            (bump_model w)) =
                 inr (if str_in (Str.lower (Path.splitext file).2)
                                WhisperTranscriber.unsupported_extensions
                      then Path.join in_path ((Path.splitext file).1 ++ ".mp3")
                      else Path.join in_path file))
      by (rewrite (W_resolve_existing _ _ _ (bump_model w) Hc He), Hc; reflexivity).
    rewrite (W_single_supported _ _ _ _ _ _ _ _ (W_conversion_subset _ Hc) Hr).
    rewrite (W_resolve_existing _ _ _ (bump_model w) Hc He). cbn [events world app].
    split; [|right; right; right; now left].
    repeat (apply Forall_cons; split; [reflexivity|]).
    now apply W_try_emits.
Qed.

(** In [sample_fs] the directory holds [c(9).mp3]; a file [c(9).mkv] beside
    it is not converted. *)
Lemma existing_mp3_skips_converter_witness :
  (Forall (fun e => is_spawn e = false)
     (events (Transcriber.transcribe_single_file converting_env (Model 0 "tiny" "cpu")
                "c(9).mkv" "/in" "/out" "Italian" sample_world)) /\
   In (Print (AlreadyConverted "c(9).mkv"))
     (events (Transcriber.transcribe_single_file converting_env (Model 0 "tiny" "cpu")
                "c(9).mkv" "/in" "/out" "Italian" sample_world))) /\
  (Forall (fun e => is_spawn e = false)
     (events (WhisperTranscriber.transcribe_single_file converting_env "tiny" "cpu"
                "c(9).mkv" "/in" "/out" "Italian" sample_world)) /\
   In (Print (AlreadyConverted "c(9).mkv"))
     (events (WhisperTranscriber.transcribe_single_file converting_env "tiny" "cpu"
                "c(9).mkv" "/in" "/out" "Italian" sample_world))).
Proof.
  split.
  - apply (proj1 existing_mp3_skips_converter converting_env (Model 0 "tiny" "cpu")
             "c(9).mkv" "/in" "/out" "Italian" sample_world); reflexivity.
  - apply (proj2 existing_mp3_skips_converter converting_env "tiny" "cpu"
             "c(9).mkv" "/in" "/out" "Italian" sample_world); reflexivity.
Defined.

(** ** C7 *)

(** A text written by the [try] statement is at the path it was given, and
    it is what that path holds afterwards. *)
Lemma T_try_write env m file fp txt language w p t :
  let r := try_except (Transcriber.transcription_attempt env m file fp txt language)
             is_Exception (fun e => print (TranscriptionError file e)) w in
  In (WriteFile p t) (events r) ->
  p = txt /\ fs (world r) !! p = Some (File t).
Proof.
  cbv zeta. pose proof (T_try_run env m file fp txt language w) as H.
  cbv zeta in H. try_cases H; cbn [In].
  - intros [H|[H|[]]]; discriminate.
  - intros [H|[H|[]]]; discriminate.
  - intros [H|[H|[]]]; discriminate.
  - intros [H|[H|[H|[]]]]; try discriminate.
    injection H as <- <-. split; [reflexivity|]. cbn [set_fs fs].
    apply lookup_insert_eq.
Qed.

Lemma W_try_write env m file fp in_path txt language w p t :
  let r := try_except
             (WhisperTranscriber.transcription_attempt env m file fp in_path txt
                language)
             is_Exception (fun e => print (TranscriptionError file e)) w in
  In (WriteFile p t) (events r) ->
  p = txt /\ fs (world r) !! p = Some (File t).
Proof.
  cbv zeta. pose proof (W_try_run env m file fp in_path txt language w) as H.
  cbv zeta in H. try_cases H; cbn [In].
  - intros [H|[H|[]]]; discriminate.
  - intros [H|[H|[]]]; discriminate.
  - intros [H|[H|[]]]; discriminate.
  - intros [H|[H|[H|[]]]]; try discriminate.
    injection H as <- <-. split; [reflexivity|]. cbn [set_fs fs].
    apply lookup_insert_eq.
Qed.

Lemma T_single_write env m file in_path out_path language w p t :
  let r := Transcriber.transcribe_single_file env m file in_path out_path language w in
  In (WriteFile p t) (events r) ->
  p = Path.join out_path ((Path.splitext file).1 ++ ".txt") /\
  fs (world r) !! p = Some (File t).
Proof.
  cbv zeta.
  destruct (str_in (Str.lower (Path.splitext file).2) Transcriber.EXTENSIONS_SUPPORTED)
    eqn:Hs.
  - pose proof (T_resolve_emits not_a_write env file in_path
                  (fun _ _ => I) (fun _ _ => I) w) as Hf.
    rewrite Forall_forall in Hf.
    destruct (outcome (Transcriber.resolve_file_path env file in_path w)) as [e|a] eqn:Hr.
    + rewrite (T_single_aborted _ _ _ _ _ _ _ _ Hs Hr). cbn [events world].
      intros [H|H]; [discriminate|].
      exfalso. apply (Hf _ (proj2 (list_elem_of_In _ _) H)).
    + pose proof (T_resolve_value _ _ _ _ _ Hr) as ->.
      rewrite (T_single_supported _ _ _ _ _ _ _ Hs Hr). cbn [events world].
      intros [H|H]; [discriminate|].
      apply in_app_or in H. destruct H as [H|[H|H]]; [|discriminate|].
      * exfalso. apply (Hf _ (proj2 (list_elem_of_In _ _) H)).
      * eapply T_try_write, H.
  - rewrite (T_single_unsupported _ _ _ _ _ _ _ Hs). cbn.
    intros [H|[H|[]]]; discriminate.
Qed.

Lemma W_single_write env model_name device file in_path out_path language w p t :
  let r := WhisperTranscriber.transcribe_single_file env model_name device file
             in_path out_path language w in
  In (WriteFile p t) (events r) ->
  p = Path.join out_path ((Path.splitext file).1 ++ ".txt") /\
  fs (world r) !! p = Some (File t).
Proof.
  cbv zeta.
  destruct (str_in (Str.lower (Path.splitext file).2) WhisperTranscriber.extensions)
    eqn:Hs.
  - pose proof (W_resolve_emits not_a_write env file in_path
                  (fun _ _ => I) (fun _ _ => I) (bump_model w)) as Hf.
    rewrite Forall_forall in Hf.
    destruct (outcome (WhisperTranscriber.resolve_file_path env file in_path
                         (bump_model w))) as [e|a] eqn:Hr.
    + rewrite (W_single_aborted _ _ _ _ _ _ _ _ _ Hs Hr). cbn [events world].
      intros [H|[H|H]]; [discriminate|discriminate|].
      exfalso. apply (Hf _ (proj2 (list_elem_of_In _ _) H)).
    + pose proof (W_resolve_value _ _ _ _ _ Hr) as ->.
      rewrite (W_single_supported _ _ _ _ _ _ _ _ Hs Hr). cbn [events world].
      intros [H|[H|H]]; [discriminate|discriminate|].
      apply in_app_or in H. destruct H as [H|[H|H]]; [|discriminate|].
      * exfalso. apply (Hf _ (proj2 (list_elem_of_In _ _) H)).
      * eapply W_try_write, H.
  - rewrite (W_single_unsupported _ _ _ _ _ _ _ _ Hs). cbn.
    intros [H|[H|[H|[]]]]; discriminate.
Qed.

(** C7. The output path is the output directory joined with the stem of the
    input name plus ".txt": "meeting.wav" with "/out" gives
    "/out/meeting.txt"; whatever a call writes, it writes there, in both
    scripts.  So when two files share a stem and both calls write, they
    write to one path, which holds the first text after the first call and
    the second text after the second. *)
Theorem output_path_is_stem_txt :
  (Path.join "/out" ((Path.splitext "meeting.wav").1 ++ ".txt") = "/out/meeting.txt" /\
   In (WriteFile "/out/meeting.txt" "text of M")
      (events (Transcriber.transcribe_single_file sample_env (Model 0 "tiny" "cpu")
                 "meeting.wav" "/in" "/out" "Italian" sample_world)) /\
   In (WriteFile "/out/meeting.txt" "text of M")
      (events (WhisperTranscriber.transcribe_single_file sample_env "tiny" "cpu"
                 "meeting.wav" "/in" "/out" "Italian" sample_world))) /\
  (forall env m in_path out_path language w file1 file2 p1 t1 p2 t2,
     let r1 := Transcriber.transcribe_single_file env m file1 in_path out_path
                 language w in
     let r2 := Transcriber.transcribe_single_file env m file2 in_path out_path
                 language (world r1) in
     (Path.splitext file1).1 = (Path.splitext file2).1 ->
     In (WriteFile p1 t1) (events r1) ->
     In (WriteFile p2 t2) (events r2) ->
     p1 = Path.join out_path ((Path.splitext file1).1 ++ ".txt") /\
     p2 = p1 /\
     fs (world r1) !! p1 = Some (File t1) /\
     fs (world r2) !! p1 = Some (File t2)) /\
  (forall env model_name device in_path out_path language w file1 file2 p1 t1 p2 t2,
     let r1 := WhisperTranscriber.transcribe_single_file env model_name device file1
                 in_path out_path language w in
     let r2 := WhisperTranscriber.transcribe_single_file env model_name device file2
                 in_path out_path language (world r1) in
     (Path.splitext file1).1 = (Path.splitext file2).1 ->
     In (WriteFile p1 t1) (events r1) ->
     In (WriteFile p2 t2) (events r2) ->
     p1 = Path.join out_path ((Path.splitext file1).1 ++ ".txt") /\
     p2 = p1 /\
     fs (world r1) !! p1 = Some (File t1) /\
     fs (world r2) !! p1 = Some (File t2)).
Proof.
  split; [|split].
  - split; [reflexivity|]. split; vm_compute; tauto.
  - intros env m in_path out_path language w file1 file2 p1 t1 p2 t2.
    cbv zeta. intros Hstem H1 H2.
    apply T_single_write in H1. apply T_single_write in H2.
    destruct H1 as [-> H1], H2 as [-> H2]. rewrite Hstem in *. auto.
  - intros env model_name device in_path out_path language w file1 file2 p1 t1 p2 t2.
    cbv zeta. intros Hstem H1 H2.
    apply W_single_write in H1. apply W_single_write in H2.
    destruct H1 as [-> H1], H2 as [-> H2]. rewrite Hstem in *. auto.
Qed.

Lemma output_path_is_stem_txt_witness :
  let T_r1 := Transcriber.transcribe_single_file sample_env (Model 0 "tiny" "cpu")
                "talk.wav" "/in" "/out" "Italian" shared_stem_world in
  let T_r2 := Transcriber.transcribe_single_file sample_env (Model 0 "tiny" "cpu")
                "talk.mp4" "/in" "/out" "Italian" (world T_r1) in
  let W_r1 := WhisperTranscriber.transcribe_single_file sample_env "tiny" "cpu"
                "talk.wav" "/in" "/out" "Italian" shared_stem_world in
  let W_r2 := WhisperTranscriber.transcribe_single_file sample_env "tiny" "cpu"
                "talk.mp4" "/in" "/out" "Italian" (world W_r1) in
  (fs (world T_r1) !! "/out/talk.txt" = Some (File "text of W") /\
   fs (world T_r2) !! "/out/talk.txt" = Some (File "text of V")) /\
  (fs (world W_r1) !! "/out/talk.txt" = Some (File "text of W") /\
   fs (world W_r2) !! "/out/talk.txt" = Some (File "text of V")).
Proof.
  cbv zeta. split.
  - destruct (proj1 (proj2 output_path_is_stem_txt)
                sample_env (Model 0 "tiny" "cpu") "/in" "/out" "Italian"
                shared_stem_world "talk.wav" "talk.mp4"
                "/out/talk.txt" "text of W" "/out/talk.txt" "text of V")
      as (_ & _ & H1 & H2);
      [reflexivity | vm_compute; tauto | vm_compute; tauto |].
    split; [exact H1 | exact H2].
  - destruct (proj2 (proj2 output_path_is_stem_txt)
                sample_env "tiny" "cpu" "/in" "/out" "Italian"
                shared_stem_world "talk.wav" "talk.mp4"
                "/out/talk.txt" "text of W" "/out/talk.txt" "text of V")
      as (_ & _ & H1 & H2);
      [reflexivity | vm_compute; tauto | vm_compute; tauto |].
    split; [exact H1 | exact H2].
Defined.

(** ** The whole run *)

Lemma run_failure_prompt env q norm1 norm2 valid :
  raises_only (run_failure env) (prompt q norm1 norm2 valid).
Proof.
  eapply raises_only_impl; [|apply raises_only_prompt]. intros e ->. now left.
Qed.

Lemma run_failure_launch {A} env (c : M A) :
  raises_only (launch_failure env) c -> raises_only (run_failure env) c.
Proof. apply raises_only_impl. intros e H. now right. Qed.

Ltac run_failure_step :=
  match goal with
  | |- raises_only _ (bind _ _) => apply raises_only_bind; [|intros ?]
  | |- raises_only _ (prompt _ _ _ _) => apply run_failure_prompt
  | |- raises_only _ (print _) => apply raises_only_never, never_raises_emit
  | |- raises_only _ get_fs => apply raises_only_never, never_raises_get_fs
  | |- raises_only _ (load_model _ _) =>
      apply raises_only_never, never_raises_load_model
  | |- raises_only _ (Transcriber.transcribe_single_file _ _ _ _ _ _) =>
      apply run_failure_launch, T_single_raises_only
  | |- raises_only _ (Transcriber.transcribe_multiple_files _ _ _ _ _ _) =>
      apply run_failure_launch, T_batch_raises_only
  | |- raises_only _ (WhisperTranscriber.transcribe_single_file _ _ _ _ _ _ _) =>
      apply run_failure_launch, W_single_raises_only
  | |- raises_only _ (WhisperTranscriber.transcribe_multiple_files _ _ _ _ _ _ _) =>
      apply run_failure_launch, W_batch_raises_only
  | |- raises_only _ (if ?b then _ else _) => destruct b
  end.

Ltac run_failure_steps := cbv zeta; repeat (run_failure_step; cbv zeta).

Lemma T_main_raises_only env : raises_only (run_failure env) (Transcriber.main env).
Proof.
  unfold Transcriber.main, user_device_choice, get_model_name, get_language,
    get_order_criterion, Transcriber.get_input_path, Transcriber.get_output_path.
  run_failure_steps.
Qed.

Lemma W_main_raises_only env :
  raises_only (run_failure env) (WhisperTranscriber.main env).
Proof.
  unfold WhisperTranscriber.main, user_device_choice, get_model_name, get_language,
    get_order_criterion, WhisperTranscriber.get_input_path,
    WhisperTranscriber.get_output_path.
  run_failure_steps.
Qed.

Lemma T_batch_emits (P : event -> Prop) env m in_path out_path language
    order_criterion :
  (forall msg, P (Print msg)) ->
  (forall cmd check, P (Spawn cmd check)) ->
  (forall path, P (Transcribe m path language)) ->
  (forall path text, P (WriteFile path text)) ->
  emits P (Transcriber.transcribe_multiple_files env m in_path out_path language
             order_criterion).
Proof.
  intros Hp Hs Ht Hw. unfold Transcriber.transcribe_multiple_files.
  apply emits_bind; [apply emits_get_fs | intros f]. cbv zeta.
  apply emits_for_each. intros x. apply T_single_emits; auto.
Qed.

Lemma W_batch_emits (P : event -> Prop) env model_name device in_path out_path
    language order_criterion :
  (forall msg, P (Print msg)) ->
  (forall cmd check, P (Spawn cmd check)) ->
  (forall i, P (LoadModel (Model i model_name device))) ->
  (forall i path, P (Transcribe (Model i model_name device) path language)) ->
  (forall path text, P (WriteFile path text)) ->
  emits P (WhisperTranscriber.transcribe_multiple_files env model_name device in_path
             out_path language order_criterion).
Proof.
  intros Hp Hs Hl Ht Hw. unfold WhisperTranscriber.transcribe_multiple_files.
  apply emits_bind; [apply emits_get_fs | intros f]. cbv zeta.
  apply emits_for_each. intros x. apply W_single_emits; auto.
Qed.

(** The prompts read lines: the files and the count of loaded models stay. *)
Lemma fs_user_device_choice w : fs (world (user_device_choice w)) = fs w.
Proof. apply fs_prompt. Qed.
Lemma fs_get_model_name w : fs (world (get_model_name w)) = fs w.
Proof. apply fs_prompt. Qed.
Lemma fs_get_language w : fs (world (get_language w)) = fs w.
Proof. apply fs_prompt. Qed.
Lemma fs_get_order_criterion w : fs (world (get_order_criterion w)) = fs w.
Proof. apply fs_prompt. Qed.
Lemma T_fs_get_input_path w : fs (world (Transcriber.get_input_path w)) = fs w.
Proof. apply fs_prompt. Qed.
Lemma T_fs_get_output_path s w : fs (world (Transcriber.get_output_path s w)) = fs w.
Proof. apply fs_prompt. Qed.
Lemma W_fs_get_input_path w : fs (world (WhisperTranscriber.get_input_path w)) = fs w.
Proof. apply fs_prompt. Qed.
Lemma W_fs_get_output_path s w :
  fs (world (WhisperTranscriber.get_output_path s w)) = fs w.
Proof. destruct s; apply fs_prompt. Qed.

Lemma next_model_user_device_choice w :
  next_model (world (user_device_choice w)) = next_model w.
Proof. apply next_model_prompt. Qed.
Lemma next_model_get_model_name w :
  next_model (world (get_model_name w)) = next_model w.
Proof. apply next_model_prompt. Qed.

Lemma next_model_get_language w : next_model (world (get_language w)) = next_model w.
Proof. apply next_model_prompt. Qed.
Lemma next_model_get_order_criterion w :
  next_model (world (get_order_criterion w)) = next_model w.
Proof. apply next_model_prompt. Qed.
Lemma T_next_model_get_input_path w :
  next_model (world (Transcriber.get_input_path w)) = next_model w.
Proof. apply next_model_prompt. Qed.
Lemma T_next_model_get_output_path s w :
  next_model (world (Transcriber.get_output_path s w)) = next_model w.
Proof. apply next_model_prompt. Qed.
Lemma W_next_model_get_input_path w :
  next_model (world (WhisperTranscriber.get_input_path w)) = next_model w.
Proof. apply next_model_prompt. Qed.
Lemma W_next_model_get_output_path s w :
  next_model (world (WhisperTranscriber.get_output_path s w)) = next_model w.
Proof. destruct s; apply next_model_prompt. Qed.

Ltac next_model_of_run :=
  repeat first
    [ rewrite next_model_get_order_criterion | rewrite T_next_model_get_output_path
    | rewrite W_next_model_get_output_path | rewrite next_model_get_language
    | rewrite T_next_model_get_input_path | rewrite W_next_model_get_input_path
    | rewrite next_model_get_model_name | rewrite next_model_user_device_choice ].

(** The prompts ask, and leave no other event. *)
Lemma asks_only_prompt q norm1 norm2 valid : asks_only (prompt q norm1 norm2 valid).
Proof.
  intros w. eapply Forall_impl; [apply prompt_asks|].
  intros e [again ->]. now exists again, q.
Qed.

Create HintDb asks.

Lemma asks_user_device_choice : asks_only user_device_choice.
Proof. apply asks_only_prompt. Qed.
Lemma asks_get_model_name : asks_only get_model_name.
Proof. apply asks_only_prompt. Qed.
Lemma asks_get_language : asks_only get_language.
Proof. apply asks_only_prompt. Qed.
Lemma asks_get_order_criterion : asks_only get_order_criterion.
Proof. apply asks_only_prompt. Qed.
Lemma T_asks_get_input_path : asks_only Transcriber.get_input_path.
Proof. apply asks_only_prompt. Qed.
Lemma T_asks_get_output_path s : asks_only (Transcriber.get_output_path s).
Proof. apply asks_only_prompt. Qed.
Lemma W_asks_get_input_path : asks_only WhisperTranscriber.get_input_path.
Proof. apply asks_only_prompt. Qed.
Lemma W_asks_get_output_path s : asks_only (WhisperTranscriber.get_output_path s).
Proof. destruct s; apply asks_only_prompt. Qed.

#[global] Hint Resolve asks_user_device_choice asks_get_model_name asks_get_language
  asks_get_order_criterion T_asks_get_input_path T_asks_get_output_path
  W_asks_get_input_path W_asks_get_output_path : asks.

(** What reads nothing off a question reads nothing off a prompt. *)
Lemma omap_asks {A B} (h : event -> option B) (c : M A) w :
  asks_only c -> (forall again q, h (Ask again q) = None) ->
  omap h (events (c w)) = [].
Proof.
  intros Hc Hh. apply omap_none. eapply Forall_impl; [apply Hc|].
  intros e (again & q & ->). apply Hh.
Qed.

Lemma filter_asks {A} (p : event -> bool) (c : M A) w :
  asks_only c -> (forall again q, p (Ask again q) = false) ->
  List.filter p (events (c w)) = [].
Proof.
  intros Hc Hp. specialize (Hc w).
  induction Hc as [|e l (again & q & ->) _ IH]; [reflexivity|]. simpl. now rewrite Hp.
Qed.

Ltac omap_of_asks :=
  repeat (rewrite omap_asks by (first [solve [auto with asks] | intros; reflexivity])).

Ltac fs_of_run :=
  repeat first
    [ rewrite fs_get_order_criterion | rewrite T_fs_get_output_path
    | rewrite W_fs_get_output_path | rewrite fs_get_language
    | rewrite T_fs_get_input_path | rewrite W_fs_get_input_path
    | rewrite fs_bump_model | rewrite fs_get_model_name
    | rewrite fs_user_device_choice ].

(** *** transcriber.py: the run of [main], prompt by prompt *)

Section TranscriberMain.
Variables (env : Env) (w : World).
Variables answ name in_path language out_path : string.

Let r_device := user_device_choice w.
Let r_name := get_model_name (world r_device).
Let device := if String.eqb answ "N" then "cpu" else get_device env.
Let m := Model (next_model w) name device.
Let r_in := Transcriber.get_input_path (bump_model (world r_name)).
Let r_language := get_language (world r_in).
Let r_out := Transcriber.get_output_path (isfile (fs w) in_path) (world r_language).
Let r_order := get_order_criterion (world r_out).

Hypothesis device_answered : outcome r_device = inr answ.
Hypothesis name_answered : outcome r_name = inr name.

(** After the first two prompts the model is loaded, once. *)
Lemma T_main_loads_model :
    exists tail,
      events (Transcriber.main env w) =
        (events r_device ++ events r_name ++
         Print (LoadingModel name device) :: LoadModel m :: Print ModelLoaded :: tail)%list
      /\ loads tail = []
      /\ forall m' path language',
           In (Transcribe m' path language') tail -> m' = m.
Proof.
    unfold Transcriber.main. cbv zeta.
    rewrite (events_bind_ok _ _ _ _ device_answered). cbv beta.
    rewrite (events_bind_ok _ _ _ _ name_answered). cbv beta.
    rewrite events_bind_print, events_bind_load, events_bind_print.
    fold r_device r_name device.
    replace (next_model (world r_name)) with (next_model w)
      by (unfold r_name, r_device;
          now rewrite next_model_get_model_name, next_model_user_device_choice).
    fold m. eexists. split; [reflexivity|].
    set (P := fun e => load_of e = None /\
                       forall m' path language',
                         e = Transcribe m' path language' -> m' = m).
    match goal with
    | |- context [events (?c (bump_model (world r_name)))] =>
        assert (Hf : Forall P (events (c (bump_model (world r_name)))))
    end.
    { generalize (bump_model (world r_name)).
      assert (Hp : forall msg, P (Print msg))
        by (intros msg; split; [reflexivity | intros; discriminate]).
      assert (Ha : forall again q, P (Ask again q))
        by (intros again q; split; [reflexivity | intros; discriminate]).
      unfold get_language, get_order_criterion,
        Transcriber.get_input_path, Transcriber.get_output_path.
      apply emits_bind; [apply emits_prompt; intros ?; apply Ha | intros ?].
      emits_steps;
        try solve [ apply Hp | apply Ha
                  | apply T_single_emits; unfold P; intros;
                    (split; [reflexivity | intros; congruence])
                  | apply T_batch_emits; unfold P; intros;
                    (split; [reflexivity | intros; congruence]) ]. }
    split.
    - apply omap_none. eapply Forall_impl; [exact Hf|]. now intros e [He _].
    - intros m' path language' Hin.
      rewrite Forall_forall in Hf.
      apply (Hf _ (proj2 (list_elem_of_In _ _) Hin)) with path language'. reflexivity.
Qed.

Hypothesis in_answered : outcome r_in = inr in_path.
Hypothesis language_answered : outcome r_language = inr language.
Hypothesis out_answered : outcome r_out = inr out_path.

Let asked (tail : list event) : list event :=
    (events r_device ++ events r_name ++
     Print (LoadingModel name device) :: LoadModel m :: Print ModelLoaded ::
     events r_in ++ events r_language ++ events r_out ++ tail)%list.

Lemma T_fs_asked : fs (world r_language) = fs w.
Proof. unfold r_language, r_in, r_name, r_device. now fs_of_run. Qed.

Lemma T_next_model_asked : next_model (world r_name) = next_model w.
Proof.
    unfold r_name, r_device.
    now rewrite next_model_get_model_name, next_model_user_device_choice.
Qed.

  (** A path to a regular file: [main] hands its base name and its
      directory to [transcribe_single_file]. *)
Lemma T_main_single :
    isfile (fs w) in_path = true ->
    let run :=
      Transcriber.transcribe_single_file env m (Path.basename in_path)
        (Path.dirname in_path) out_path language (world r_out) in
    outcome (Transcriber.main env w) = outcome run /\
    world (Transcriber.main env w) = world run /\
    events (Transcriber.main env w) = asked (Print Separator :: events run).
Proof.
    intros Hsingle. cbv zeta.
    pose proof T_fs_asked as Hfs. pose proof T_next_model_asked as Hnm.
    pose proof out_answered as Hout.
    unfold asked, m, r_out, r_language, r_in, r_name, r_device in *.
    rewrite Hsingle in Hout |- *.
    unfold Transcriber.main. cbv zeta.
    rewrite (outcome_bind_ok _ _ _ _ device_answered),
      (world_bind_ok _ _ _ _ device_answered),
      (events_bind_ok _ _ _ _ device_answered). cbv beta.
    rewrite (outcome_bind_ok _ _ _ _ name_answered),
      (world_bind_ok _ _ _ _ name_answered),
      (events_bind_ok _ _ _ _ name_answered). cbv beta.
    rewrite outcome_bind_print, world_bind_print, events_bind_print. cbv beta.
    rewrite outcome_bind_load, world_bind_load, events_bind_load. cbv beta.
    rewrite outcome_bind_print, world_bind_print, events_bind_print. cbv beta.
    rewrite (outcome_bind_ok _ _ _ _ in_answered),
      (world_bind_ok _ _ _ _ in_answered),
      (events_bind_ok _ _ _ _ in_answered). cbv beta.
    rewrite (outcome_bind_ok _ _ _ _ language_answered),
      (world_bind_ok _ _ _ _ language_answered),
      (events_bind_ok _ _ _ _ language_answered). cbv beta.
    rewrite bind_get_fs, Hfs, Hsingle.
    rewrite (outcome_bind_ok _ _ _ _ Hout),
      (world_bind_ok _ _ _ _ Hout),
      (events_bind_ok _ _ _ _ Hout). cbv beta.
    rewrite outcome_bind_print, world_bind_print, events_bind_print.
    rewrite Hnm. repeat split.
Qed.

  (** Any other path: [main] asks for the order and hands the path to
      [transcribe_multiple_files]. *)
Lemma T_main_batch order_criterion :
    isfile (fs w) in_path = false ->
    outcome r_order = inr order_criterion ->
    let run :=
      Transcriber.transcribe_multiple_files env m in_path out_path language
        order_criterion (world r_order) in
    outcome (Transcriber.main env w) = outcome run /\
    world (Transcriber.main env w) = world run /\
    events (Transcriber.main env w) =
      asked (events r_order ++ Print Separator :: events run).
Proof.
    intros Hsingle Horder. cbv zeta.
    pose proof T_fs_asked as Hfs. pose proof T_next_model_asked as Hnm.
    pose proof out_answered as Hout.
    unfold asked, m, r_order, r_out, r_language, r_in, r_name, r_device in *.
    rewrite Hsingle in Hout, Horder |- *.
    unfold Transcriber.main. cbv zeta.
    rewrite (outcome_bind_ok _ _ _ _ device_answered),
      (world_bind_ok _ _ _ _ device_answered),
      (events_bind_ok _ _ _ _ device_answered). cbv beta.
    rewrite (outcome_bind_ok _ _ _ _ name_answered),
      (world_bind_ok _ _ _ _ name_answered),
      (events_bind_ok _ _ _ _ name_answered). cbv beta.
    rewrite outcome_bind_print, world_bind_print, events_bind_print. cbv beta.
    rewrite outcome_bind_load, world_bind_load, events_bind_load. cbv beta.
    rewrite outcome_bind_print, world_bind_print, events_bind_print. cbv beta.
    rewrite (outcome_bind_ok _ _ _ _ in_answered),
      (world_bind_ok _ _ _ _ in_answered),
      (events_bind_ok _ _ _ _ in_answered). cbv beta.
    rewrite (outcome_bind_ok _ _ _ _ language_answered),
      (world_bind_ok _ _ _ _ language_answered),
      (events_bind_ok _ _ _ _ language_answered). cbv beta.
    rewrite bind_get_fs, Hfs, Hsingle.
    rewrite (outcome_bind_ok _ _ _ _ Hout),
      (world_bind_ok _ _ _ _ Hout),
      (events_bind_ok _ _ _ _ Hout). cbv beta.
    rewrite (outcome_bind_ok _ _ _ _ Horder),
      (world_bind_ok _ _ _ _ Horder),
      (events_bind_ok _ _ _ _ Horder). cbv beta.
    rewrite outcome_bind_print, world_bind_print, events_bind_print.
    rewrite Hnm. repeat split.
Qed.
End TranscriberMain.

(** *** whisper_transcriber.py: the run of [main], prompt by prompt *)

Section WhisperTranscriberMain.
Variables (env : Env) (w : World).
Variables answ name in_path language out_path : string.

Let r_device := user_device_choice w.
Let r_name := get_model_name (world r_device).
Let device := if String.eqb answ "N" then "cpu" else get_device env.
Let r_in := WhisperTranscriber.get_input_path (world r_name).
Let r_language := get_language (world r_in).
Let r_out :=
    WhisperTranscriber.get_output_path (isfile (fs w) in_path) (world r_language).
Let r_order := get_order_criterion (world r_out).

Hypothesis device_answered : outcome r_device = inr answ.
Hypothesis name_answered : outcome r_name = inr name.
Hypothesis in_answered : outcome r_in = inr in_path.
Hypothesis language_answered : outcome r_language = inr language.
Hypothesis out_answered : outcome r_out = inr out_path.

Let asked (tail : list event) : list event :=
    (events r_device ++ events r_name ++ events r_in ++ events r_language ++
     events r_out ++ tail)%list.

Lemma W_fs_asked : fs (world r_language) = fs w.
Proof. unfold r_language, r_in, r_name, r_device. now fs_of_run. Qed.

Lemma W_main_single :
    isfile (fs w) in_path = true ->
    let run :=
      WhisperTranscriber.transcribe_single_file env name device
        (Path.basename in_path) (Path.dirname in_path) out_path language
        (world r_out) in
    outcome (WhisperTranscriber.main env w) = outcome run /\
    world (WhisperTranscriber.main env w) = world run /\
    events (WhisperTranscriber.main env w) = asked (Print Separator :: events run).
Proof.
    intros Hsingle. cbv zeta.
    pose proof W_fs_asked as Hfs.
    pose proof out_answered as Hout.
    unfold asked, r_out, r_language, r_in, r_name, r_device in *.
    rewrite Hsingle in Hout |- *.
    unfold WhisperTranscriber.main. cbv zeta.
    rewrite (outcome_bind_ok _ _ _ _ device_answered),
      (world_bind_ok _ _ _ _ device_answered),
      (events_bind_ok _ _ _ _ device_answered). cbv beta.
    rewrite (outcome_bind_ok _ _ _ _ name_answered),
      (world_bind_ok _ _ _ _ name_answered),
      (events_bind_ok _ _ _ _ name_answered). cbv beta.
    rewrite (outcome_bind_ok _ _ _ _ in_answered),
      (world_bind_ok _ _ _ _ in_answered),
      (events_bind_ok _ _ _ _ in_answered). cbv beta.
    rewrite (outcome_bind_ok _ _ _ _ language_answered),
      (world_bind_ok _ _ _ _ language_answered),
      (events_bind_ok _ _ _ _ language_answered). cbv beta.
    rewrite bind_get_fs, Hfs, Hsingle.
    rewrite (outcome_bind_ok _ _ _ _ Hout),
      (world_bind_ok _ _ _ _ Hout),
      (events_bind_ok _ _ _ _ Hout). cbv beta.
    rewrite outcome_bind_print, world_bind_print, events_bind_print.
    repeat split.
Qed.

Lemma W_main_batch order_criterion :
    isfile (fs w) in_path = false ->
    outcome r_order = inr order_criterion ->
    let run :=
      WhisperTranscriber.transcribe_multiple_files env name device in_path out_path
        language order_criterion (world r_order) in
    outcome (WhisperTranscriber.main env w) = outcome run /\
    world (WhisperTranscriber.main env w) = world run /\
    events (WhisperTranscriber.main env w) =
      asked (events r_order ++ Print Separator :: events run).
Proof.
    intros Hsingle Horder. cbv zeta.
    pose proof W_fs_asked as Hfs.
    pose proof out_answered as Hout.
    unfold asked, r_order, r_out, r_language, r_in, r_name, r_device in *.
    rewrite Hsingle in Hout, Horder |- *.
    unfold WhisperTranscriber.main. cbv zeta.
    rewrite (outcome_bind_ok _ _ _ _ device_answered),
      (world_bind_ok _ _ _ _ device_answered),
      (events_bind_ok _ _ _ _ device_answered). cbv beta.
    rewrite (outcome_bind_ok _ _ _ _ name_answered),
      (world_bind_ok _ _ _ _ name_answered),
      (events_bind_ok _ _ _ _ name_answered). cbv beta.
    rewrite (outcome_bind_ok _ _ _ _ in_answered),
      (world_bind_ok _ _ _ _ in_answered),
      (events_bind_ok _ _ _ _ in_answered). cbv beta.
    rewrite (outcome_bind_ok _ _ _ _ language_answered),
      (world_bind_ok _ _ _ _ language_answered),
      (events_bind_ok _ _ _ _ language_answered). cbv beta.
    rewrite bind_get_fs, Hfs, Hsingle.
    rewrite (outcome_bind_ok _ _ _ _ Hout),
      (world_bind_ok _ _ _ _ Hout),
      (events_bind_ok _ _ _ _ Hout). cbv beta.
    rewrite (outcome_bind_ok _ _ _ _ Horder),
      (world_bind_ok _ _ _ _ Horder),
      (events_bind_ok _ _ _ _ Horder). cbv beta.
    rewrite outcome_bind_print, world_bind_print, events_bind_print.
    repeat split.
Qed.
End WhisperTranscriberMain.

(** Every model load of a run is on the device chosen from the answer to
    the first prompt. *)
Lemma T_main_load_device env w answ :
  outcome (user_device_choice w) = inr answ ->
  Forall (fun e => forall m, e = LoadModel m ->
                   m_device m = if String.eqb answ "N" then "cpu" else get_device env)
         (events (Transcriber.main env w)).
Proof.
  intros Ha. unfold Transcriber.main. cbv zeta.
  rewrite (events_bind_ok _ _ _ _ Ha). cbv beta.
  set (d := if String.eqb answ "N" then "cpu" else get_device env).
  set (P := fun e => forall m, e = LoadModel m -> m_device m = d).
  assert (Hp : forall msg, P (Print msg)) by (intros msg m' H; discriminate).
  assert (Hq : forall again q, P (Ask again q)) by (intros again q m' H; discriminate).
  apply Forall_app; split.
  { unfold user_device_choice. apply emits_prompt. intros again. apply Hq. }
  generalize (world (user_device_choice w)).
  unfold get_model_name, get_language, get_order_criterion,
    Transcriber.get_input_path, Transcriber.get_output_path.
  apply emits_bind; [apply emits_prompt; intros ?; apply Hq | intros model_name].
  emits_steps;
    try solve [ apply Hp | apply Hq
              | intros m' H; injection H as <-; reflexivity
              | apply T_single_emits; unfold P; intros; discriminate
              | apply T_batch_emits; unfold P; intros; discriminate ].
Qed.

Ltac load_eq :=
  match goal with
  | H : LoadModel _ = LoadModel _ |- _ => injection H as <-; reflexivity
  end.

Lemma W_main_load_device env w answ :
  outcome (user_device_choice w) = inr answ ->
  Forall (fun e => forall m, e = LoadModel m ->
                   m_device m = if String.eqb answ "N" then "cpu" else get_device env)
         (events (WhisperTranscriber.main env w)).
Proof.
  intros Ha. unfold WhisperTranscriber.main. cbv zeta.
  rewrite (events_bind_ok _ _ _ _ Ha). cbv beta.
  set (d := if String.eqb answ "N" then "cpu" else get_device env).
  set (P := fun e => forall m, e = LoadModel m -> m_device m = d).
  assert (Hp : forall msg, P (Print msg)) by (intros msg m' H; discriminate).
  assert (Hq : forall again q, P (Ask again q)) by (intros again q m' H; discriminate).
  apply Forall_app; split.
  { unfold user_device_choice. apply emits_prompt. intros again. apply Hq. }
  generalize (world (user_device_choice w)).
  unfold get_model_name, get_language, get_order_criterion,
    WhisperTranscriber.get_input_path, WhisperTranscriber.get_output_path.
  apply emits_bind; [apply emits_prompt; intros ?; apply Hq | intros model_name].
  emits_steps;
    try solve [ apply Hp | apply Hq
              | apply W_single_emits; unfold P; intros;
                first [discriminate | load_eq]
              | apply W_batch_emits; unfold P; intros;
                first [discriminate | load_eq] ].
Qed.
(** ** The loads of whisper_transcriber.py *)

Lemma W_resolve_next_model env file in_path w :
  next_model (world (WhisperTranscriber.resolve_file_path env file in_path w)) =
  next_model w.
Proof.
  unfold WhisperTranscriber.resolve_file_path. cbv zeta.
  destruct (str_in _ WhisperTranscriber.unsupported_extensions); [|reflexivity].
  rewrite world_bind_print, bind_get_fs.
  destruct (negb _); [|reflexivity].
  unfold WhisperTranscriber.convert_to_mp3, bind, try_except, subprocess_run.
  destruct (spawn env (fs w) _) as [reason|status f]; reflexivity.
Qed.

Lemma W_try_next_model env m file fp in_path txt language w :
  next_model
    (world (try_except
              (WhisperTranscriber.transcription_attempt env m file fp in_path txt
                 language)
              is_Exception (fun e => print (TranscriptionError file e)) w)) =
  next_model w.
Proof.
  pose proof (W_try_run env m file fp in_path txt language w) as H.
  cbv zeta in H. try_cases H; reflexivity.
Qed.

Lemma W_single_next_model env model_name device file in_path out_path language w :
  next_model
    (world (WhisperTranscriber.transcribe_single_file env model_name device file
              in_path out_path language w)) =
  S (next_model w).
Proof.
  unfold WhisperTranscriber.transcribe_single_file. cbv zeta.
  rewrite world_bind_print, world_bind_load.
  destruct (str_in _ WhisperTranscriber.extensions); [|reflexivity].
  destruct (outcome (WhisperTranscriber.resolve_file_path env file in_path
                       (bump_model w))) as [e|fp] eqn:E.
  - rewrite (world_bind_err _ _ _ _ E). now rewrite W_resolve_next_model.
  - rewrite (world_bind_ok _ _ _ _ E), world_bind_print.
    now rewrite W_try_next_model, W_resolve_next_model.
Qed.

(** A loop of calls loads one instance for each file it enters, with
    consecutive identifiers. *)
Lemma W_loop_loads env model_name device in_path out_path language
    (l : list string) w :
  let run :=
    for_each l
      (fun file =>
         WhisperTranscriber.transcribe_single_file env model_name device file
           in_path out_path language) w in
  loads (events run) =
  List.map (fun i => Model i model_name device)
    (seq (next_model w) (length (processed_files (events run)))).
Proof.
  cbv zeta. revert w. induction l as [|x l IH]; intros w; [reflexivity|].
  cbn [for_each].
  pose proof (W_single_loads env x in_path out_path language model_name device w)
    as Hl.
  pose proof (W_single_headers env x in_path out_path language model_name device w)
    as Hh.
  destruct (outcome (WhisperTranscriber.transcribe_single_file env model_name device x
                       in_path out_path language w)) as [e|[]] eqn:E.
  - rewrite (events_bind_err _ _ _ _ E), Hl, Hh. reflexivity.
  - rewrite (events_bind_ok _ _ _ _ E). unfold loads, processed_files.
    rewrite !omap_app, length_app.
    change (omap load_of) with loads. change (omap header_of) with processed_files.
    rewrite Hl, Hh, IH, W_single_next_model. reflexivity.
Qed.

Lemma W_batch_loads env model_name device in_path out_path language order_criterion w :
  let run :=
    WhisperTranscriber.transcribe_multiple_files env model_name device in_path
      out_path language order_criterion w in
  loads (events run) =
  List.map (fun i => Model i model_name device)
    (seq (next_model w) (length (processed_files (events run)))).
Proof. cbv zeta. rewrite W_batch_run. apply W_loop_loads. Qed.

(** A batch that runs to its end has processed as many files as the
    filtered listing holds. *)
Lemma W_batch_count env model_name device in_path out_path language order_criterion w :
  let run :=
    WhisperTranscriber.transcribe_multiple_files env model_name device in_path
      out_path language order_criterion w in
  outcome run = inr tt ->
  length (processed_files (events run)) =
  length (supported_files env WhisperTranscriber.extensions (fs w) in_path).
Proof.
  cbv zeta. intros Ho. rewrite (W_batch_headers _ _ _ _ _ _ _ _ Ho).
  apply Permutation_length, sort_files_perm.
Qed.

Lemma T_batch_count env m in_path out_path language order_criterion w :
  let run :=
    Transcriber.transcribe_multiple_files env m in_path out_path language
      order_criterion w in
  outcome run = inr tt ->
  length (processed_files (events run)) =
  length (supported_files env Transcriber.EXTENSIONS_SUPPORTED (fs w) in_path).
Proof.
  cbv zeta. intros Ho. rewrite (T_batch_headers _ _ _ _ _ _ _ Ho).
  apply Permutation_length, sort_files_perm.
Qed.

(** The count of the files processed never exceeds that of the filtered
    listing. *)
Lemma W_batch_count_le env model_name device in_path out_path language
    order_criterion w :
  (length (processed_files
            (events (WhisperTranscriber.transcribe_multiple_files env model_name
                       device in_path out_path language order_criterion w)))
   <= length (supported_files env WhisperTranscriber.extensions (fs w) in_path))%nat.
Proof.
  etransitivity; [apply prefix_length, W_batch_headers_prefix|].
  now rewrite (Permutation_length (sort_files_perm env in_path order_criterion _)).
Qed.
(** ** C10 *)

Lemma device_choice answ env :
  answ = "Y" \/ answ = "N" ->
  (if String.eqb answ "N" then "cpu" else get_device env) =
  (if cuda_is_available env && String.eqb answ "Y" then "cuda" else "cpu").
Proof.
  unfold get_device. intros [-> | ->]; destruct (cuda_is_available env); reflexivity.
Qed.

Lemma user_device_choice_valid w answ :
  outcome (user_device_choice w) = inr answ -> answ = "Y" \/ answ = "N".
Proof.
  intros Ha. apply prompt_valid in Ha. apply orb_true_iff in Ha.
  destruct Ha as [H|H]; apply String.eqb_eq in H; auto.
Qed.

(** The loads of a run of transcriber.py in which the first two prompts
    are answered: one, of the model named, on the device chosen. *)
Lemma T_main_loads env w answ name :
  outcome (user_device_choice w) = inr answ ->
  outcome (get_model_name (world (user_device_choice w))) = inr name ->
  loads (events (Transcriber.main env w)) =
  [Model (next_model w) name (if String.eqb answ "N" then "cpu" else get_device env)].
Proof.
  intros Ha Hn.
  destruct (T_main_loads_model env w answ name Ha Hn) as (tail & -> & Hl & _).
  unfold loads. rewrite !omap_app. omap_of_asks.
  rewrite !omap_cons. cbn [load_of app]. f_equal. exact Hl.
Qed.

Section WhisperTranscriberLoads.
Variables (env : Env) (w : World).
Variables answ name in_path language out_path : string.

Let r_device := user_device_choice w.
Let r_name := get_model_name (world r_device).
Let device := if String.eqb answ "N" then "cpu" else get_device env.
Let r_in := WhisperTranscriber.get_input_path (world r_name).
Let r_language := get_language (world r_in).
Let r_out :=
    WhisperTranscriber.get_output_path (isfile (fs w) in_path) (world r_language).
Let r_order := get_order_criterion (world r_out).

Hypothesis device_answered : outcome r_device = inr answ.
Hypothesis name_answered : outcome r_name = inr name.
Hypothesis in_answered : outcome r_in = inr in_path.
Hypothesis language_answered : outcome r_language = inr language.
Hypothesis out_answered : outcome r_out = inr out_path.

  (** A path to a regular file: one load, on the device chosen. *)
Lemma W_main_single_loads :
    isfile (fs w) in_path = true ->
    loads (events (WhisperTranscriber.main env w)) = [Model (next_model w) name device].
Proof.
    intros Hsingle.
    destruct (W_main_single env w answ name in_path language out_path
                device_answered name_answered in_answered language_answered
                out_answered Hsingle) as (_ & _ & ->).
    unfold loads. rewrite !omap_app. omap_of_asks.
    rewrite omap_cons. cbn [load_of app]. change (omap load_of) with loads.
    rewrite W_single_loads. now next_model_of_run.
Qed.

  (** Any other path: one load for each file processed, on the device
      chosen; as many as the filtered listing holds when the run ends
      normally. *)
Lemma W_main_batch_loads order_criterion :
    isfile (fs w) in_path = false ->
    outcome r_order = inr order_criterion ->
    let run := WhisperTranscriber.main env w in
    let N := length (supported_files env WhisperTranscriber.extensions (fs w) in_path) in
    loads (events run) =
      List.map (fun i => Model i name device)
        (seq (next_model w) (length (processed_files (events run)))) /\
    (length (processed_files (events run)) <= N)%nat /\
    (outcome run = inr tt -> length (processed_files (events run)) = N).
Proof.
    intros Hsingle Horder. cbv zeta.
    destruct (W_main_batch env w answ name in_path language out_path
                device_answered name_answered in_answered language_answered
                out_answered order_criterion Hsingle Horder) as (-> & _ & ->).
    unfold loads, processed_files. rewrite !omap_app. omap_of_asks.
    rewrite !omap_cons. cbn [load_of header_of app].
    change (omap load_of) with loads. change (omap header_of) with processed_files.
    pose proof (W_batch_loads env name device in_path out_path language
                  order_criterion (world (get_order_criterion (world
                    (WhisperTranscriber.get_output_path (isfile (fs w) in_path)
                       (world (get_language (world (WhisperTranscriber.get_input_path
                          (world (get_model_name (world (user_device_choice w)))))))))))))
      as Hl.
    cbv zeta in Hl. revert Hl. next_model_of_run. intros Hl.
    split; [exact Hl|]. split.
    - etransitivity; [apply W_batch_count_le|]. now fs_of_run.
    - intros Ho. rewrite (W_batch_count _ _ _ _ _ _ _ _ Ho). now fs_of_run.
Qed.
End WhisperTranscriberLoads.

(** C10. For every run of either script in which the GPU prompt is
    answered: the answer is "Y" or "N", and the device is "cuda" exactly
    when a CUDA GPU is available and the answer is "Y", and "cpu"
    otherwise, so "Y" without a GPU gives "cpu".
    - Every model load of the run is on that device.
    - transcriber.py: once the model prompt is answered, the run loads
      the model named, once, on that device.
    - whisper_transcriber.py: once the prompts are answered, the run for a
      single file loads the model named, once, on that device; the run
      for a directory loads it on that device once for each file it
      processes, which are all the files of the filtered listing when the
      run ends normally.
    - The device raises no error: a run ends with an exception only at the
      end of the standard input or for a converter that could not be
      started. *)
Theorem device_is_cuda_iff_available_and_yes (env : Env) (w : World) (answ : string) :
  outcome (user_device_choice w) = inr answ ->
  let device := if cuda_is_available env && String.eqb answ "Y" then "cuda" else "cpu" in
  let r_name := get_model_name (world (user_device_choice w)) in
  (answ = "Y" \/ answ = "N") /\
  (device = "cuda" <-> cuda_is_available env = true /\ answ = "Y") /\
  (forall m,
     In (LoadModel m) (events (Transcriber.main env w)) \/
     In (LoadModel m) (events (WhisperTranscriber.main env w)) ->
     m_device m = device) /\
  (forall name,
     outcome r_name = inr name ->
     loads (events (Transcriber.main env w)) = [Model (next_model w) name device]) /\
  (forall name in_path language out_path,
     let r_in := WhisperTranscriber.get_input_path (world r_name) in
     let r_language := get_language (world r_in) in
     let r_out :=
       WhisperTranscriber.get_output_path (isfile (fs w) in_path) (world r_language) in
     let run := WhisperTranscriber.main env w in
     outcome r_name = inr name ->
     outcome r_in = inr in_path ->
     outcome r_language = inr language ->
     outcome r_out = inr out_path ->
     (isfile (fs w) in_path = true ->
      loads (events run) = [Model (next_model w) name device]) /\
     (forall order_criterion,
        isfile (fs w) in_path = false ->
        outcome (get_order_criterion (world r_out)) = inr order_criterion ->
        loads (events run) =
          List.map (fun i => Model i name device)
            (seq (next_model w) (length (processed_files (events run)))) /\
        (outcome run = inr tt ->
         length (processed_files (events run)) =
         length (supported_files env WhisperTranscriber.extensions (fs w) in_path)))) /\
  (forall e,
     outcome (Transcriber.main env w) = inl e \/
     outcome (WhisperTranscriber.main env w) = inl e ->
     e = EOFError \/ launch_failure env e).
Proof.
  intros Ha. cbv zeta.
  pose proof (user_device_choice_valid w answ Ha) as Hv.
  rewrite <- (device_choice answ env Hv).
  split; [exact Hv|]. split; [|split; [|split; [|split]]].
  - unfold get_device.
    destruct Hv as [-> | ->]; cbn [String.eqb Ascii.eqb Bool.eqb];
      destruct (cuda_is_available env); cbn.
    + tauto.
    + split; [discriminate | intros [? _]; discriminate].
    + split; [discriminate | intros [_ ?]; discriminate].
    + split; [discriminate | intros [? _]; discriminate].
  - intros m [Hm|Hm].
    + pose proof (T_main_load_device env w answ Ha) as Hf.
      rewrite Forall_forall in Hf.
      apply (Hf _ (proj2 (list_elem_of_In _ _) Hm)). reflexivity.
    + pose proof (W_main_load_device env w answ Ha) as Hf.
      rewrite Forall_forall in Hf.
      apply (Hf _ (proj2 (list_elem_of_In _ _) Hm)). reflexivity.
  - intros name Hn. exact (T_main_loads env w answ name Ha Hn).
  - intros name in_path language out_path Hn Hi Hl Ho. split.
    + exact (W_main_single_loads env w answ name in_path language out_path
               Ha Hn Hi Hl Ho).
    + intros order_criterion Hsingle Horder.
      destruct (W_main_batch_loads env w answ name in_path language out_path
                  Ha Hn Hi Hl Ho order_criterion Hsingle Horder) as (H1 & _ & H3).
      split; [exact H1 | exact H3].
  - intros e [He|He].
    + eapply T_main_raises_only, He.
    + eapply W_main_raises_only, He.
Qed.

(** The first line of the sample input is " y "; [sample_env] has no GPU:
    both sample runs load on "cpu", transcriber.py once and
    whisper_transcriber.py once for each of the four files. *)
Lemma device_is_cuda_iff_available_and_yes_witness :
  ("Y" = "Y" \/ "Y" = "N") /\
  loads (events (Transcriber.main sample_env sample_world)) = [Model 0 "tiny" "cpu"] /\
  loads (events (WhisperTranscriber.main sample_env sample_world)) =
  [Model 0 "tiny" "cpu"; Model 1 "tiny" "cpu"; Model 2 "tiny" "cpu";
   Model 3 "tiny" "cpu"].
Proof.
  destruct (device_is_cuda_iff_available_and_yes sample_env sample_world "Y" eq_refl)
    as (H1 & _ & _ & HT & HW & _).
  split; [exact H1|]. split; [exact (HT "tiny" eq_refl)|].
  destruct (HW "tiny" "/in" "Italian" "/out" eq_refl eq_refl eq_refl eq_refl)
    as [_ Hb].
  destruct (Hb "5" eq_refl eq_refl) as [Hl Hc].
  rewrite Hl, (Hc eq_refl). reflexivity.
Defined.
(** ** C9 *)

Lemma not_asked {A} (c : M A) w e :
  asks_only c -> In e (events (c w)) -> exists again q, e = Ask again q.
Proof.
  intros Hc Hin. specialize (Hc w). rewrite Forall_forall in Hc.
  apply Hc, list_elem_of_In, Hin.
Qed.

Lemma T_main_one_load env w :
  outcome (Transcriber.main env w) = inr tt ->
  exists m,
    loads (events (Transcriber.main env w)) = [m] /\
    forall m' path language,
      In (Transcribe m' path language) (events (Transcriber.main env w)) -> m' = m.
Proof.
  intros H. pose proof H as H0. unfold Transcriber.main in H0. cbv zeta in H0.
  destruct (bind_inr_inv _ _ _ _ H0) as (answ & Ha & H1).
  destruct (bind_inr_inv _ _ _ _ H1) as (name & Hn & _). clear H0 H1.
  eexists. split; [exact (T_main_loads env w answ name Ha Hn)|].
  destruct (T_main_loads_model env w answ name Ha Hn) as (tail & -> & _ & Hc).
  intros m' path language Hin.
  apply in_app_or in Hin. destruct Hin as [Hin|Hin].
  { apply not_asked in Hin; [|auto with asks].
    destruct Hin as (again & q & Hq). discriminate Hq. }
  apply in_app_or in Hin. destruct Hin as [Hin|Hin].
  { apply not_asked in Hin; [|auto with asks].
    destruct Hin as (again & q & Hq). discriminate Hq. }
  destruct Hin as [Hin|[Hin|[Hin|Hin]]]; try discriminate Hin.
  exact (Hc _ _ _ Hin).
Qed.

(** C9. The scripts differ in how they load the model.  A run of
    transcriber.py that ends normally has loaded exactly one model, and
    every model call of the run is on that instance; its batch function
    loads nothing and calls the model it was given, once per file when it
    runs to its end.  In whisper_transcriber.py every call of
    [transcribe_single_file] loads a new instance, so a batch loads one for
    each file it processes, and a batch of N files that runs to its end
    performs N loads.  A batch runs to its end whenever the converter can
    be started. *)
Theorem model_loading_differs :
  (forall env w,
     outcome (Transcriber.main env w) = inr tt ->
     exists m,
       loads (events (Transcriber.main env w)) = [m] /\
       forall m' path language,
         In (Transcribe m' path language) (events (Transcriber.main env w)) ->
         m' = m) /\
  (forall env m in_path out_path language order_criterion w,
     let r := Transcriber.transcribe_multiple_files env m in_path out_path language
                order_criterion w in
     let N := length (supported_files env Transcriber.EXTENSIONS_SUPPORTED (fs w)
                        in_path) in
     loads (events r) = [] /\
     Forall (fun call => call.1 = m) (model_calls (events r)) /\
     (length (model_calls (events r)) <= N)%nat /\
     (outcome r = inr tt -> length (model_calls (events r)) = N) /\
     (converter_starts env -> outcome r = inr tt)) /\
  (forall env model_name device in_path out_path language order_criterion w,
     let r := WhisperTranscriber.transcribe_multiple_files env model_name device
                in_path out_path language order_criterion w in
     let N := length (supported_files env WhisperTranscriber.extensions (fs w)
                        in_path) in
     length (loads (events r)) = length (processed_files (events r)) /\
     (length (loads (events r)) <= N)%nat /\
     (outcome r = inr tt ->
      length (loads (events r)) = N /\ length (model_calls (events r)) = N) /\
     (converter_starts env -> outcome r = inr tt)) /\
  (forall env model_name device file in_path out_path language w,
     loads (events (WhisperTranscriber.transcribe_single_file env model_name device
                      file in_path out_path language w)) =
     [Model (next_model w) model_name device]).
Proof.
  split; [exact T_main_one_load|]. split; [|split].
  - intros env m in_path out_path language order_criterion w. cbv zeta.
    split; [|split; [|split; [|split]]].
    + apply omap_none. apply T_batch_emits; reflexivity.
    + apply Forall_forall. intros [m' path] Hin.
      apply list_elem_of_omap in Hin. destruct Hin as (e & He & Hc).
      pose proof (T_batch_emits
                    (fun e => forall c, call_of e = Some c -> c.1 = m)
                    env m in_path out_path language order_criterion) as Hf.
      specialize (Hf (fun _ _ H => ltac:(discriminate))
                     (fun _ _ _ H => ltac:(discriminate))
                     (fun _ _ H => ltac:(now injection H as <-))
                     (fun _ _ _ H => ltac:(discriminate)) w).
      rewrite Forall_forall in Hf. exact (Hf e He _ Hc).
    + rewrite T_batch_run.
      etransitivity;
        [apply prefix_length, T_loop_calls_prefix; intros x; apply sorted_supported|].
      rewrite length_map.
      now rewrite (Permutation_length (sort_files_perm env in_path order_criterion _)).
    + rewrite T_batch_run. intros Ho.
      rewrite T_loop_calls; [|intros x; apply sorted_supported | exact Ho].
      rewrite length_map. apply Permutation_length, sort_files_perm.
    + intros Hs. apply never_raises_tt, T_batch_never_raises, Hs.
  - intros env model_name device in_path out_path language order_criterion w.
    cbv zeta.
    pose proof (W_batch_loads env model_name device in_path out_path language
                  order_criterion w) as Hl. cbv zeta in Hl.
    assert (Hlen : length (loads (events (WhisperTranscriber.transcribe_multiple_files
                     env model_name device in_path out_path language order_criterion w)))
                   = length (processed_files (events
                       (WhisperTranscriber.transcribe_multiple_files
                          env model_name device in_path out_path language
                          order_criterion w))))
      by (rewrite Hl at 1; now rewrite length_map, length_seq).
    split; [exact Hlen|]. split; [|split].
    + rewrite Hlen. apply W_batch_count_le.
    + intros Ho. split.
      * rewrite Hlen. now apply W_batch_count.
      * rewrite W_batch_run in Ho |- *.
        rewrite W_loop_calls_length; [|intros x; apply sorted_supported | exact Ho].
        apply Permutation_length, sort_files_perm.
    + intros Hs. apply never_raises_tt, W_batch_never_raises, Hs.
  - intros env model_name device file in_path out_path language w.
    apply W_single_loads.
Qed.

(** The sample run of transcriber.py ends normally, with one model for its
    four files; the sample batch of whisper_transcriber.py ends normally,
    with four. *)
Lemma model_loading_differs_witness :
  (exists m,
     loads (events (Transcriber.main sample_env sample_world)) = [m] /\
     forall m' path language,
       In (Transcribe m' path language)
          (events (Transcriber.main sample_env sample_world)) ->
       m' = m) /\
  length (model_calls
            (events (Transcriber.transcribe_multiple_files sample_env
                       (Model 0 "tiny" "cpu") "/in" "/out" "Italian" "5"
                       sample_world))) = 4%nat /\
  length (loads
            (events (WhisperTranscriber.transcribe_multiple_files sample_env "tiny"
                       "cpu" "/in" "/out" "Italian" "5" sample_world))) = 4%nat.
Proof.
  destruct model_loading_differs as (H1 & H2 & H3 & _).
  split; [apply (H1 sample_env sample_world); reflexivity|]. split.
  - destruct (H2 sample_env (Model 0 "tiny" "cpu") "/in" "/out" "Italian" "5"
                sample_world) as (_ & _ & _ & Hc & Hs).
    exact (Hc (Hs sample_env_starts)).
  - destruct (H3 sample_env "tiny" "cpu" "/in" "/out" "Italian" "5" sample_world)
      as (_ & _ & Hc & Hs).
    exact (proj1 (Hc (Hs sample_env_starts))).
Defined.

Example whisper_transcriber_sample_loads :
  loads (events (WhisperTranscriber.main sample_env sample_world)) =
  [Model 0 "tiny" "cpu"; Model 1 "tiny" "cpu"; Model 2 "tiny" "cpu";
   Model 3 "tiny" "cpu"].
Proof. reflexivity. Qed.
(** ** C1 *)

(** transcriber.py does what C1 says: for an extension of the conversion
    subset, when the conversion block returns, the one model call of the
    file is on the [.mp3] sibling, and when that call returns a text and
    the output file can be opened and written, the text is what the output
    path holds afterwards. *)
Lemma T_transcribes_converted_path env m file in_path out_path language w :
  str_in (Str.lower (Path.splitext file).2)
         Transcriber.EXTENSIONS_REQUIRING_CONVERSION = true ->
  let mp3_path := Path.join in_path ((Path.splitext file).1 ++ ".mp3") in
  let txt_path := Path.join out_path ((Path.splitext file).1 ++ ".txt") in
  let w1 := world (Transcriber.resolve_file_path env file in_path w) in
  let r := Transcriber.transcribe_single_file env m file in_path out_path language w in
  outcome (Transcriber.resolve_file_path env file in_path w) = inr mp3_path ->
  model_calls (events r) = [(m, mp3_path)] /\
  (forall text,
     outcome (model_transcribe env m mp3_path language w1) = inr text ->
     open_w env (fs w1) txt_path = None ->
     write_w env txt_path text = None ->
     In (WriteFile txt_path text) (events r) /\
     fs (world r) !! txt_path = Some (File text)).
Proof.
  intros Hc. cbv zeta. intros Hr.
  pose proof (T_conversion_subset _ Hc) as Hs.
  split.
  - rewrite (T_single_calls_resolved _ _ _ _ _ _ _ _ Hs Hr). now rewrite Hc.
  - intros text Ht Ho Hw.
    pose proof (T_single_supported env m file in_path out_path language w Hs) as Hrun.
    cbv zeta in Hrun. rewrite Hc in Hrun. rewrite (Hrun Hr).
    cbn [events world].
    pose proof (T_try_run env m file
                  (Path.join in_path ((Path.splitext file).1 ++ ".mp3"))
                  (Path.join out_path ((Path.splitext file).1 ++ ".txt")) language
                  (world (Transcriber.resolve_file_path env file in_path w))) as H.
    cbv zeta in H. destruct H as [_ H]. rewrite Ht, Ho, Hw in H.
    destruct H as [-> ->]. split.
    + right. apply in_or_app. right. right. right. now left.
    + cbn [set_fs fs]. apply lookup_insert_eq.
Qed.

(** C1, at whisper_transcriber.py.  The converter succeeds on [a.mkv] and
    writes [/in/a.mp3]; the [try] block then builds the path again from
    [in_path] and [file], so the model is called on [/in/a.mkv], and the
    text written is that of the original file. *)
Theorem whisper_transcriber_transcribes_original_path :
  let r := WhisperTranscriber.transcribe_single_file converting_env "tiny" "cpu"
             "a.mkv" "/in" "/out" "Italian" sample_world in
  events r =
    [Print (FileHeader "a.mkv");
     LoadModel (Model 0 "tiny" "cpu");
     Print (StartingConversion "a.mkv" ".mkv");
     Spawn ["ffmpeg"; "-i"; "/in/a.mkv"; "-q:a"; "0"; "-map"; "a"; "/in/a.mp3"] false;
     Print (ConversionCompleted "/in/a.mkv" "/in/a.mp3");
     Print (StartingTranscription "a.mkv");
     Transcribe (Model 0 "tiny" "cpu") "/in/a.mkv" "Italian";
     WriteFile "/out/a.txt" "text of A";
     Print (TranscriptionCompleted "a.mkv")] /\
  fs (world r) !! "/in/a.mp3" = Some (File "mp3 audio") /\
  model_calls (events r) = [(Model 0 "tiny" "cpu", "/in/a.mkv")] /\
  model_calls
    (events (Transcriber.transcribe_single_file converting_env (Model 0 "tiny" "cpu")
               "a.mkv" "/in" "/out" "Italian" sample_world)) =
    [(Model 0 "tiny" "cpu", "/in/a.mp3")].
Proof. cbv zeta. repeat split; vm_compute; reflexivity. Qed.

(** ** C6 *)

(** transcriber.py does what C6 says: when the converter exits with a
    nonzero status, [convert_to_mp3] returns normally after printing the
    error, with a time stamp; and when the converted path still does not
    exist, the call for the file ends by reporting a transcription
    failure, without writing. *)
Lemma T_conversion_failure_reported env input_path output_path w status f :
  spawn env (fs w)
    ["ffmpeg"; "-i"; input_path; "-q:a"; "0"; "-map"; "a"; output_path]
    = Exited status f ->
  status <> 0 ->
  let cmd := ["ffmpeg"; "-i"; input_path; "-q:a"; "0"; "-map"; "a"; output_path] in
  let r := Transcriber.convert_to_mp3 env input_path output_path w in
  outcome r = inr tt /\
  events r = [Spawn cmd true;
              Print (ConversionError input_path (CalledProcessError cmd status))] /\
  has_timestamp (ConversionError input_path (CalledProcessError cmd status)) = true /\
  world r = set_fs w f.
Proof.
  intros Hsp Hst. cbv zeta.
  unfold Transcriber.convert_to_mp3, try_except, bind, subprocess_run. cbv zeta.
  rewrite Hsp. cbn [outcome world events andb].
  destruct (status =? 0) eqn:E; [lia|]. cbn. auto.
Qed.

Lemma T_failed_conversion_skips_file env m file in_path out_path language w status f :
  str_in (Str.lower (Path.splitext file).2)
         Transcriber.EXTENSIONS_REQUIRING_CONVERSION = true ->
  let mp3_path := Path.join in_path ((Path.splitext file).1 ++ ".mp3") in
  let cmd := ["ffmpeg"; "-i"; Path.join in_path file; "-q:a"; "0"; "-map"; "a";
              mp3_path] in
  path_exists (fs w) mp3_path = false ->
  spawn env (fs w) cmd = Exited status f ->
  status <> 0 ->
  f !! mp3_path = None ->
  let r := Transcriber.transcribe_single_file env m file in_path out_path language w in
  outcome r = inr tt /\
  events r =
    [Print (FileHeader file);
     Print (StartingConversion file (Path.splitext file).2);
     Spawn cmd true;
     Print (ConversionError (Path.join in_path file) (CalledProcessError cmd status));
     Print (StartingTranscription file);
     Transcribe m mp3_path language;
     Print (TranscriptionError file (RuntimeError "Failed to load audio"))].
Proof.
  intros Hc. cbv zeta. intros He Hsp Hst Hf.
  pose proof (T_conversion_failure_reported env (Path.join in_path file)
                (Path.join in_path ((Path.splitext file).1 ++ ".mp3")) w status f
                Hsp Hst) as Hconv.
  cbv zeta in Hconv. destruct Hconv as (Hco & Hce & _ & Hcw).
  assert (Hr : Transcriber.resolve_file_path env file in_path w =
               mkRun (inr (Path.join in_path ((Path.splitext file).1 ++ ".mp3")))
                     (set_fs w f)
                     [Print (StartingConversion file (Path.splitext file).2);
                      Spawn ["ffmpeg"; "-i"; Path.join in_path file; "-q:a"; "0";
                             "-map"; "a";
                             Path.join in_path ((Path.splitext file).1 ++ ".mp3")] true;
                      Print (ConversionError (Path.join in_path file)
                               (CalledProcessError
                                  ["ffmpeg"; "-i"; Path.join in_path file; "-q:a"; "0";
                                   "-map"; "a";
                                   Path.join in_path ((Path.splitext file).1 ++ ".mp3")]
                                  status))]).
  { unfold Transcriber.resolve_file_path. cbv zeta.
    rewrite Hc, bind_print, bind_get_fs, He. cbn [negb].
    rewrite (bind_ok _ _ _ _ Hco). cbn [outcome world events ret].
    rewrite Hce, Hcw. reflexivity. }
  pose proof (T_single_supported env m file in_path out_path language w
                (T_conversion_subset _ Hc)) as Hrun.
  cbv zeta in Hrun. rewrite Hc, Hr in Hrun. rewrite (Hrun eq_refl).
  cbn [outcome world events].
  pose proof (T_try_run env m file
                (Path.join in_path ((Path.splitext file).1 ++ ".mp3"))
                (Path.join out_path ((Path.splitext file).1 ++ ".txt")) language
                (set_fs w f)) as H.
  cbv zeta in H. destruct H as [Ho H].
  cbn [model_transcribe outcome set_fs fs] in H. rewrite Hf in H.
  destruct H as [Hev _]. split; [exact Ho|]. rewrite Hev. reflexivity.
Qed.

(** C6, at whisper_transcriber.py.  The converter exits with status 1 on
    [a.mkv] and writes nothing.  [subprocess.run] is called without
    [check], so no exception reaches the handler: the script prints that
    the conversion completed, and the file is not skipped, since the model
    is called on the original path. *)
Theorem whisper_transcriber_ignores_converter_status :
  let cmd := ["ffmpeg"; "-i"; "/in/a.mkv"; "-q:a"; "0"; "-map"; "a"; "/in/a.mp3"] in
  spawn sample_env (fs sample_world) cmd = Exited 1 (fs sample_world) /\
  events (WhisperTranscriber.convert_to_mp3 sample_env "/in/a.mkv" "/in/a.mp3"
            sample_world) =
    [Spawn cmd false; Print (ConversionCompleted "/in/a.mkv" "/in/a.mp3")] /\
  events (WhisperTranscriber.transcribe_single_file sample_env "tiny" "cpu"
            "a.mkv" "/in" "/out" "Italian" sample_world) =
    [Print (FileHeader "a.mkv");
     LoadModel (Model 0 "tiny" "cpu");
     Print (StartingConversion "a.mkv" ".mkv");
     Spawn cmd false;
     Print (ConversionCompleted "/in/a.mkv" "/in/a.mp3");
     Print (StartingTranscription "a.mkv");
     Transcribe (Model 0 "tiny" "cpu") "/in/a.mkv" "Italian";
     WriteFile "/out/a.txt" "text of A";
     Print (TranscriptionCompleted "a.mkv")] /\
  events (Transcriber.transcribe_single_file sample_env (Model 0 "tiny" "cpu")
            "a.mkv" "/in" "/out" "Italian" sample_world) =
    [Print (FileHeader "a.mkv");
     Print (StartingConversion "a.mkv" ".mkv");
     Spawn cmd true;
     Print (ConversionError "/in/a.mkv" (CalledProcessError cmd 1));
     Print (StartingTranscription "a.mkv");
     Transcribe (Model 0 "tiny" "cpu") "/in/a.mp3" "Italian";
     Print (TranscriptionError "a.mkv" (RuntimeError "Failed to load audio"))].
Proof. cbv zeta. repeat split; vm_compute; reflexivity. Qed.

(** * Further properties *)

(** ** [extract_number] in general *)

Lemma digits_then_close_sound s acc n :
  digits_then_close s acc = Some n ->
  exists ds post,
    s = ds ++ ")" ++ post /\ all_digits ds = true /\
    n = decimal ds (default 0%N acc) /\ (acc = None -> ds <> "").
Proof.
  revert acc. induction s as [|c s IH]; intros acc; cbn [digits_then_close];
    [discriminate|].
  destruct (Str.is_digit c) eqn:Ed.
  - intros H. destruct (IH _ H) as (ds & post & -> & Hd & -> & _).
    exists (String c ds), post. split; [reflexivity|]. split; [|split].
    + unfold all_digits in *.
      change (Str.is_digit c && Str.forallb Str.is_digit ds = true).
      now rewrite Ed, Hd.
    + reflexivity.
    + discriminate.
  - destruct (Ascii.eqb c ")") eqn:Ec; [|discriminate].
    apply Ascii.eqb_eq in Ec. subst c. intros ->.
    exists "", s. repeat split. discriminate.
Qed.

Lemma digits_then_close_complete ds post acc :
  all_digits ds = true ->
  digits_then_close (ds ++ ")" ++ post) acc =
  match ds with
  | EmptyString => acc
  | _ => Some (decimal ds (default 0%N acc))
  end.
Proof.
  revert acc. induction ds as [|c ds IH]; intros acc Hd.
  - reflexivity.
  - unfold all_digits in Hd. cbn [Str.forallb] in Hd.
    apply andb_true_iff in Hd. destruct Hd as [Hc Hd].
    change (String c ds ++ ")" ++ post) with (String c (ds ++ ")" ++ post)).
    cbn [digits_then_close]. rewrite Hc.
    rewrite (IH _ Hd). cbn [default decimal]. now destruct ds.
Qed.

(** X1. [extract_number] returns a number only for a name that holds an
    opening parenthesis, one or more digits and a closing parenthesis, and
    the number is the decimal value of those digits. *)
Theorem extract_number_sound (filename : string) (n : N) :
  extract_number filename = Some n ->
  exists pre ds post,
    filename = pre ++ "(" ++ ds ++ ")" ++ post /\
    ds <> "" /\ all_digits ds = true /\ n = int_of_digits ds.
Proof.
  induction filename as [|c s IH]; cbn [extract_number]; [discriminate|].
  assert (Hrec : extract_number s = Some n ->
                 exists pre ds post,
                   String c s = pre ++ "(" ++ ds ++ ")" ++ post /\
                   ds <> "" /\ all_digits ds = true /\ n = int_of_digits ds).
  { intros H. destruct (IH H) as (pre & ds & post & -> & Hne & Hd & ->).
    exists (String c pre), ds, post. repeat split; assumption. }
  destruct (Ascii.eqb c "(") eqn:Ec; [|exact Hrec].
  apply Ascii.eqb_eq in Ec. subst c.
  destruct (digits_then_close s None) as [k|] eqn:Ek; [|exact Hrec].
  intros H. injection H as <-.
  destruct (digits_then_close_sound _ _ _ Ek) as (ds & post & -> & Hd & -> & Hne).
  exists "", ds, post. repeat split; auto.
Qed.

Lemma extract_number_sound_witness :
  exists pre ds post,
    "clip_(12).wav" = pre ++ "(" ++ ds ++ ")" ++ post /\
    ds <> "" /\ all_digits ds = true /\ 12%N = int_of_digits ds.
Proof. apply (extract_number_sound "clip_(12).wav" 12%N). reflexivity. Defined.

(** X2. The match is the leftmost one: when nothing before the parenthesized
    digits opens a parenthesis, their value is the result, whatever
    follows; and a name that holds parenthesized digits anywhere always
    gets a number. *)
Theorem extract_number_leftmost (pre ds post : string) :
  ds <> "" -> all_digits ds = true ->
  (no_open_paren pre = true ->
   extract_number (pre ++ "(" ++ ds ++ ")" ++ post) = Some (int_of_digits ds)) /\
  extract_number (pre ++ "(" ++ ds ++ ")" ++ post) <> None.
Proof.
  intros Hne Hd.
  assert (H0 : extract_number ("(" ++ ds ++ ")" ++ post) = Some (int_of_digits ds)).
  { change ("(" ++ ds ++ ")" ++ post) with (String "(" (ds ++ ")" ++ post)).
    cbn [extract_number Ascii.eqb Bool.eqb].
    rewrite (digits_then_close_complete ds post None Hd).
    destruct ds; [congruence | reflexivity]. }
  split.
  - induction pre as [|c pre IH]; intros Hp; [exact H0|].
    cbn [no_open_paren Str.forallb] in Hp. apply andb_true_iff in Hp.
    destruct Hp as [Hc Hp].
    change (String c pre ++ "(" ++ ds ++ ")" ++ post)
      with (String c (pre ++ "(" ++ ds ++ ")" ++ post)).
    cbn [extract_number].
    apply negb_true_iff in Hc. rewrite Hc. apply IH, Hp.
  - induction pre as [|c pre IH].
    { change (extract_number ("(" ++ ds ++ ")" ++ post) <> None). now rewrite H0. }
    change (String c pre ++ "(" ++ ds ++ ")" ++ post)
      with (String c (pre ++ "(" ++ ds ++ ")" ++ post)).
    cbn [extract_number].
    destruct (Ascii.eqb c "("); [|exact IH].
    destruct (digits_then_close _ None); [discriminate | exact IH].
Qed.

Lemma extract_number_leftmost_witness :
  extract_number ("take (a) " ++ "(" ++ "007" ++ ")" ++ "(8).wav") <> None /\
  extract_number ("take_" ++ "(" ++ "007" ++ ")" ++ "(8).wav") = Some 7%N.
Proof.
  split.
  - apply (extract_number_leftmost "take (a) " "007" "(8).wav");
      [discriminate | reflexivity].
  - apply (proj1 (extract_number_leftmost "take_" "007" "(8).wav"
                    ltac:(discriminate) eq_refl)). reflexivity.
Defined.

(** X3. A name without an opening parenthesis has no number. *)
Theorem extract_number_no_paren (filename : string) :
  no_open_paren filename = true -> extract_number filename = None.
Proof.
  induction filename as [|c s IH]; [reflexivity|].
  cbn [no_open_paren Str.forallb extract_number]. intros H.
  apply andb_true_iff in H. destruct H as [Hc H].
  apply negb_true_iff in Hc. rewrite Hc. apply IH, H.
Qed.

Lemma extract_number_no_paren_witness : extract_number "clip 12).wav" = None.
Proof. apply extract_number_no_paren. reflexivity. Defined.

(** ** The ordering criteria *)

Lemma sort_files_1 env in_path files :
  sort_files env in_path "1" files =
  list_sort (fun x => Num (getctime env (Path.join in_path x))) false files.
Proof. reflexivity. Qed.

Lemma sort_files_2 env in_path files :
  sort_files env in_path "2" files =
  list_sort (fun x => Num (getctime env (Path.join in_path x))) true files.
Proof. reflexivity. Qed.

Lemma sort_files_3 env in_path files :
  sort_files env in_path "3" files =
  list_sort (fun x => Num (getmtime env (Path.join in_path x))) false files.
Proof. reflexivity. Qed.

Lemma sort_files_4 env in_path files :
  sort_files env in_path "4" files =
  list_sort (fun x => Num (getmtime env (Path.join in_path x))) true files.
Proof. reflexivity. Qed.

Lemma list_sort_lookup_le {A} (key : A -> pynum) (reverse : bool) (l : list A)
    (i j : nat) (x y : A) :
  list_sort key reverse l !! i = Some x ->
  list_sort key reverse l !! j = Some y ->
  (i < j)%nat ->
  key_lt key reverse y x = false.
Proof.
  intros Hi Hj Hij.
  exact (StronglySorted_lookup _ _ _ _ _ _ (list_sort_sorted key reverse l) Hij Hi Hj).
Qed.

(** X4. Criteria "1" and "3" put the files in ascending order of creation
    time and of modification time: of two positions, the earlier one holds
    the file with the smaller or equal time. *)
Theorem time_criteria_ascending (env : Env) (in_path : string) (files : list string) :
  (forall i j x y,
     sort_files env in_path "1" files !! i = Some x ->
     sort_files env in_path "1" files !! j = Some y ->
     (i < j)%nat ->
     getctime env (Path.join in_path x) <= getctime env (Path.join in_path y)) /\
  (forall i j x y,
     sort_files env in_path "3" files !! i = Some x ->
     sort_files env in_path "3" files !! j = Some y ->
     (i < j)%nat ->
     getmtime env (Path.join in_path x) <= getmtime env (Path.join in_path y)).
Proof.
  split; intros i j x y Hi Hj Hij.
  - rewrite sort_files_1 in Hi, Hj.
    pose proof (list_sort_lookup_le _ _ _ _ _ _ _ Hi Hj Hij) as H.
    unfold key_lt in H. simpl in H. lia.
  - rewrite sort_files_3 in Hi, Hj.
    pose proof (list_sort_lookup_le _ _ _ _ _ _ _ Hi Hj Hij) as H.
    unfold key_lt in H. simpl in H. lia.
Qed.

Lemma time_criteria_ascending_witness :
  getctime sample_env (Path.join "/in" "a.mkv") <=
  getctime sample_env (Path.join "/in" "b(10).wav") /\
  getmtime sample_env (Path.join "/in" "b(10).wav") <=
  getmtime sample_env (Path.join "/in" "a.mkv").
Proof.
  destruct (time_criteria_ascending sample_env "/in" ["b(10).wav"; "a.mkv"])
    as [H1 H3].
  split.
  - apply (H1 0%nat 1%nat); [reflexivity | reflexivity | lia].
  - apply (H3 0%nat 1%nat); [reflexivity | reflexivity | lia].
Defined.

(** X5. Criteria "2" and "4" put the files in descending order of creation
    time and of modification time. *)
Theorem time_criteria_descending (env : Env) (in_path : string) (files : list string) :
  (forall i j x y,
     sort_files env in_path "2" files !! i = Some x ->
     sort_files env in_path "2" files !! j = Some y ->
     (i < j)%nat ->
     getctime env (Path.join in_path y) <= getctime env (Path.join in_path x)) /\
  (forall i j x y,
     sort_files env in_path "4" files !! i = Some x ->
     sort_files env in_path "4" files !! j = Some y ->
     (i < j)%nat ->
     getmtime env (Path.join in_path y) <= getmtime env (Path.join in_path x)).
Proof.
  split; intros i j x y Hi Hj Hij.
  - rewrite sort_files_2 in Hi, Hj.
    pose proof (list_sort_lookup_le _ _ _ _ _ _ _ Hi Hj Hij) as H.
    unfold key_lt in H. simpl in H. lia.
  - rewrite sort_files_4 in Hi, Hj.
    pose proof (list_sort_lookup_le _ _ _ _ _ _ _ Hi Hj Hij) as H.
    unfold key_lt in H. simpl in H. lia.
Qed.

Lemma time_criteria_descending_witness :
  getctime sample_env (Path.join "/in" "a.mkv") <=
  getctime sample_env (Path.join "/in" "b(10).wav") /\
  getmtime sample_env (Path.join "/in" "b(10).wav") <=
  getmtime sample_env (Path.join "/in" "a.mkv").
Proof.
  destruct (time_criteria_descending sample_env "/in" ["a.mkv"; "b(10).wav"])
    as [H2 H4].
  split.
  - apply (H2 0%nat 1%nat); [reflexivity | reflexivity | lia].
  - apply (H4 0%nat 1%nat); [reflexivity | reflexivity | lia].
Defined.

(** X6. Ties keep the order of the listing, under every criterion and also
    when the order is descending: the files of any one key appear in the
    sorted sequence as they do in the listing. *)
Theorem ordering_is_stable (env : Env) (in_path order_criterion : string)
    (files : list string) (k : pynum) :
  List.filter (fun x => pynum_eqb (criterion_key env in_path order_criterion x) k)
              (sort_files env in_path order_criterion files) =
  List.filter (fun x => pynum_eqb (criterion_key env in_path order_criterion x) k)
              files.
Proof.
  unfold sort_files, criterion_key.
  destruct (String.eqb order_criterion "1"); [apply list_sort_stable|].
  destruct (String.eqb order_criterion "2"); [apply list_sort_stable|].
  destruct (String.eqb order_criterion "3"); [apply list_sort_stable|].
  destruct (String.eqb order_criterion "4"); [apply list_sort_stable|].
  destruct (String.eqb order_criterion "5"); [apply list_sort_stable|].
  reflexivity.
Qed.

(** X7. Under criterion "6", and under any string that is none of "1" to
    "5", the batch processes the supported files in the order of the
    directory listing, in both scripts: the files processed are a prefix
    of the filtered listing, and the whole of it when the batch runs to its
    end, which it does whenever the converter can be started. *)
Theorem unordered_criterion_keeps_listing_order
    (env : Env) (w : World) (in_path out_path language order_criterion : string) :
  str_in order_criterion ["1"; "2"; "3"; "4"; "5"] = false ->
  (forall m,
     let batch :=
       Transcriber.transcribe_multiple_files env m in_path out_path language
         order_criterion w in
     let listing :=
       supported_files env Transcriber.EXTENSIONS_SUPPORTED (fs w) in_path in
     processed_files (events batch) `prefix_of` listing /\
     (outcome batch = inr tt -> processed_files (events batch) = listing) /\
     (converter_starts env -> outcome batch = inr tt)) /\
  (forall model_name device,
     let batch :=
       WhisperTranscriber.transcribe_multiple_files env model_name device in_path
         out_path language order_criterion w in
     let listing :=
       supported_files env WhisperTranscriber.extensions (fs w) in_path in
     processed_files (events batch) `prefix_of` listing /\
     (outcome batch = inr tt -> processed_files (events batch) = listing) /\
     (converter_starts env -> outcome batch = inr tt)).
Proof.
  intros H.
  assert (Hs : forall files, sort_files env in_path order_criterion files = files).
  { intros files. unfold sort_files. unfold str_in in H. cbn [existsb] in H.
    repeat (apply orb_false_iff in H; destruct H as [-> H]). reflexivity. }
  split.
  - intros m. cbv zeta. split; [|split].
    + rewrite <- (Hs (supported_files _ _ _ _)). apply T_batch_headers_prefix.
    + intros Ho. now rewrite (T_batch_headers _ _ _ _ _ _ _ Ho), Hs.
    + intros Hst. apply never_raises_tt, T_batch_never_raises, Hst.
  - intros model_name device. cbv zeta. split; [|split].
    + rewrite <- (Hs (supported_files _ _ _ _)). apply W_batch_headers_prefix.
    + intros Ho. now rewrite (W_batch_headers _ _ _ _ _ _ _ _ Ho), Hs.
    + intros Hst. apply never_raises_tt, W_batch_never_raises, Hst.
Qed.

Lemma unordered_criterion_keeps_listing_order_witness :
  processed_files
    (events (Transcriber.transcribe_multiple_files sample_env (Model 0 "tiny" "cpu")
               "/in" "/out" "Italian" "6" sample_world)) =
  supported_files sample_env Transcriber.EXTENSIONS_SUPPORTED (fs sample_world) "/in".
Proof.
  destruct (proj1 (unordered_criterion_keeps_listing_order sample_env sample_world
                     "/in" "/out" "Italian" "6" eq_refl) (Model 0 "tiny" "cpu"))
    as (_ & He & Hs).
  exact (He (Hs sample_env_starts)).
Defined.
(** ** The prompts *)

Lemma read_until_first_valid q norm valid bad good rest :
  Forall (fun l => valid (norm l) = false) bad ->
  valid (norm good) = true ->
  read_until q norm valid (bad ++ good :: rest)%list =
  (inr (norm good), rest, repeat (Ask true q) (S (length bad))).
Proof.
  intros Hb Hg. induction Hb as [|l bad Hl _ IH]; cbn [app read_until].
  - now rewrite Hg.
  - now rewrite Hl, IH.
Qed.

Lemma read_until_all_invalid q norm valid lines :
  Forall (fun l => valid (norm l) = false) lines ->
  read_until q norm valid lines =
  (inl EOFError, [], repeat (Ask true q) (S (length lines))).
Proof.
  induction 1 as [|l lines Hl _ IH]; cbn [read_until]; [reflexivity|].
  now rewrite Hl, IH.
Qed.

(** A prompt that normalises every line the same way returns the first
    line that is valid and leaves the lines after it unread; it asks its
    first question, and its second one once for each line it discards. *)
Lemma prompt_first_valid q norm valid w bad good rest :
  stdin w = (bad ++ good :: rest)%list ->
  Forall (fun l => valid (fs w) (norm l) = false) bad ->
  valid (fs w) (norm good) = true ->
  prompt q norm norm valid w =
  mkRun (inr (norm good)) (set_stdin w rest)
        (Ask false q :: repeat (Ask true q) (length bad)).
Proof.
  intros Hs Hb Hg. unfold prompt, bind, input. rewrite Hs.
  destruct Hb as [|l bad Hl Hb]; cbn [app outcome world events set_stdin fs stdin].
  - rewrite Hg. reflexivity.
  - rewrite Hl. rewrite (read_until_first_valid _ _ _ _ _ _ Hb Hg). reflexivity.
Qed.

Lemma prompt_all_invalid q norm valid w :
  Forall (fun l => valid (fs w) (norm l) = false) (stdin w) ->
  prompt q norm norm valid w =
  mkRun (inl EOFError) (set_stdin w [])
        (Ask false q :: repeat (Ask true q) (length (stdin w))).
Proof.
  intros Hb. unfold prompt, bind, input.
  destruct w as [f lines n]. cbn [stdin fs] in *.
  destruct Hb as [|l bad Hl Hb]; cbn [app outcome world events set_stdin fs stdin].
  - reflexivity.
  - rewrite Hl. rewrite (read_until_all_invalid _ _ _ _ Hb). reflexivity.
Qed.

(** X8. The prompts for the device, the model and the language discard
    every line that is not a valid answer, return the first valid one in
    its normal form (upper case, lower case, capitalized; surrounding
    white space removed) and leave the lines after it unread.  They write
    their question before each line they read: the first text once, then
    the text of the loop once for each line discarded; nothing else is
    printed. *)
Theorem prompts_return_first_valid_line (w : World) (bad : list string)
    (good : string) (rest : list string) :
  stdin w = (bad ++ good :: rest)%list ->
  (Forall (fun l => Str.upper (Str.strip l) <> "Y" /\ Str.upper (Str.strip l) <> "N")
          bad ->
   Str.upper (Str.strip good) = "Y" \/ Str.upper (Str.strip good) = "N" ->
   user_device_choice w =
     mkRun (inr (Str.upper (Str.strip good))) (set_stdin w rest)
           (Ask false AskDevice :: repeat (Ask true AskDevice) (length bad))) /\
  (Forall (fun l => ~ In (Str.lower (Str.strip l)) AVAILABLE_MODELS) bad ->
   In (Str.lower (Str.strip good)) AVAILABLE_MODELS ->
   get_model_name w =
     mkRun (inr (Str.lower (Str.strip good))) (set_stdin w rest)
           (Ask false AskModel :: repeat (Ask true AskModel) (length bad))) /\
  (Forall (fun l => ~ In (Str.capitalize (Str.strip l)) AVAILABLE_LANGUAGES) bad ->
   In (Str.capitalize (Str.strip good)) AVAILABLE_LANGUAGES ->
   get_language w =
     mkRun (inr (Str.capitalize (Str.strip good))) (set_stdin w rest)
           (Ask false AskLanguage :: repeat (Ask true AskLanguage) (length bad))).
Proof.
  intros Hs. split; [|split].
  - intros Hb Hg. unfold user_device_choice. cbv zeta.
    apply (prompt_first_valid _ (fun l => Str.upper (Str.strip l)) _ _ _ _ _ Hs).
    + eapply Forall_impl; [exact Hb|]. intros l [H1 H2]. cbv beta.
      apply orb_false_iff. split; apply String.eqb_neq; assumption.
    + cbv beta. apply orb_true_iff.
      destruct Hg as [Hg|Hg]; [left|right]; now apply String.eqb_eq.
  - intros Hb Hg. unfold get_model_name. cbv zeta.
    apply (prompt_first_valid _ (fun l => Str.lower (Str.strip l)) _ _ _ _ _ Hs).
    + eapply Forall_impl; [exact Hb|]. intros l Hl. cbv beta.
      destruct (str_in _ AVAILABLE_MODELS) eqn:E; [|reflexivity].
      apply str_in_In in E. contradiction.
    + now apply str_in_In.
  - intros Hb Hg. unfold get_language. cbv zeta.
    apply (prompt_first_valid _ (fun l => Str.capitalize (Str.strip l)) _ _ _ _ _ Hs).
    + eapply Forall_impl; [exact Hb|]. intros l Hl. cbv beta.
      destruct (str_in _ AVAILABLE_LANGUAGES) eqn:E; [|reflexivity].
      apply str_in_In in E. contradiction.
    + now apply str_in_In.
Qed.

(** Two lines are discarded before " Tiny " is taken. *)
Lemma prompts_return_first_valid_line_witness :
  get_model_name (set_stdin sample_world ["x"; "huge"; " Tiny "; "/in"]) =
  mkRun (inr "tiny") (set_stdin (set_stdin sample_world ["x"; "huge"; " Tiny "; "/in"])
                                ["/in"])
        [Ask false AskModel; Ask true AskModel; Ask true AskModel].
Proof.
  apply (proj1 (proj2 (prompts_return_first_valid_line
                         (set_stdin sample_world ["x"; "huge"; " Tiny "; "/in"])
                         ["x"; "huge"] " Tiny " ["/in"] eq_refl))).
  - repeat constructor; vm_compute; intuition discriminate.
  - vm_compute. tauto.
Defined.

(** [str.strip] removes the no-break space and the next-line character
    as it removes the other white space. *)
Example strip_no_break_space :
  Str.strip (String (ascii_of_nat 160) ("y" ++ String (ascii_of_nat 133) "")) = "y".
Proof. reflexivity. Qed.

(** X9. When no line of the standard input is a valid answer, these
    prompts end with [EOFError], having read every line: they ask once
    for each line and once more at the end of the input. *)
Theorem prompts_end_with_eof (w : World) :
  (Forall (fun l => ~ In (Str.lower (Str.strip l)) AVAILABLE_MODELS) (stdin w) ->
   get_model_name w =
     mkRun (inl EOFError) (set_stdin w [])
           (Ask false AskModel :: repeat (Ask true AskModel) (length (stdin w)))) /\
  (Forall (fun l => ~ In (Str.capitalize (Str.strip l)) AVAILABLE_LANGUAGES) (stdin w) ->
   get_language w =
     mkRun (inl EOFError) (set_stdin w [])
           (Ask false AskLanguage :: repeat (Ask true AskLanguage) (length (stdin w)))).
Proof.
  split; intros Hb;
    [ unfold get_model_name; cbv zeta;
      apply (prompt_all_invalid _ (fun l => Str.lower (Str.strip l)))
    | unfold get_language; cbv zeta;
      apply (prompt_all_invalid _ (fun l => Str.capitalize (Str.strip l))) ];
    (eapply Forall_impl; [exact Hb|]); intros l Hl; cbv beta.
  - destruct (str_in _ AVAILABLE_MODELS) eqn:E; [|reflexivity].
    apply str_in_In in E. contradiction.
  - destruct (str_in _ AVAILABLE_LANGUAGES) eqn:E; [|reflexivity].
    apply str_in_In in E. contradiction.
Qed.

Lemma prompts_end_with_eof_witness :
  get_model_name (set_stdin sample_world ["x"; "huge"]) =
  mkRun (inl EOFError) (set_stdin (set_stdin sample_world ["x"; "huge"]) [])
        [Ask false AskModel; Ask true AskModel; Ask true AskModel].
Proof.
  apply (proj1 (prompts_end_with_eof (set_stdin sample_world ["x"; "huge"]))).
  repeat constructor; vm_compute; intuition discriminate.
Defined.

(** X10. What the prompts return has been validated: a model and a
    language of the fixed lists, a criterion from "1" to "6"; in
    transcriber.py an input path that is a regular file or a directory and
    an output path that is a directory; in whisper_transcriber.py paths
    that exist, so its output path may be a regular file. *)
Theorem prompts_return_validated_answers (w : World) (a : string) :
  (outcome (get_model_name w) = inr a -> In a AVAILABLE_MODELS) /\
  (outcome (get_language w) = inr a -> In a AVAILABLE_LANGUAGES) /\
  (outcome (get_order_criterion w) = inr a -> In a ["1"; "2"; "3"; "4"; "5"; "6"]) /\
  (outcome (Transcriber.get_input_path w) = inr a ->
   isfile (fs w) a = true \/ isdir (fs w) a = true) /\
  (forall single_file,
     outcome (Transcriber.get_output_path single_file w) = inr a ->
     isdir (fs w) a = true) /\
  (outcome (WhisperTranscriber.get_input_path w) = inr a ->
   path_exists (fs w) a = true) /\
  (forall single_file,
     outcome (WhisperTranscriber.get_output_path single_file w) = inr a ->
     path_exists (fs w) a = true).
Proof.
  repeat split.
  - intros H. apply prompt_valid in H. now apply str_in_In.
  - intros H. apply prompt_valid in H. now apply str_in_In.
  - intros H. apply prompt_valid in H. now apply str_in_In.
  - intros H. apply prompt_valid in H. cbv beta in H.
    apply negb_true_iff, orb_false_iff in H. destruct H as [_ H].
    apply negb_false_iff, orb_true_iff in H. exact H.
  - intros single_file H. now apply prompt_valid in H.
  - intros H. now apply prompt_valid in H.
  - intros [] H; now apply prompt_valid in H.
Qed.

Lemma prompts_return_validated_answers_witness :
  In "tiny" AVAILABLE_MODELS /\
  path_exists (fs sample_world) "/in/a.mkv" = true.
Proof.
  split.
  - apply (proj1 (prompts_return_validated_answers
                    (set_stdin sample_world ["Tiny"]) "tiny")). reflexivity.
  - apply (proj2 (proj2 (proj2 (proj2 (proj2 (proj2
             (prompts_return_validated_answers
                (set_stdin sample_world ["/in/a.mkv"]) "/in/a.mkv"))))))
             false).
    reflexivity.
Defined.

(** ** One file, further *)

Lemma T_convert_run env input_path output_path w :
  let cmd := ["ffmpeg"; "-i"; input_path; "-q:a"; "0"; "-map"; "a"; output_path] in
  Transcriber.convert_to_mp3 env input_path output_path w =
  match spawn env (fs w) cmd with
  | NotStarted reason => mkRun (inl (OSError reason)) w [Spawn cmd true]
  | Exited status f =>
      mkRun (inr tt) (set_fs w f)
        [Spawn cmd true;
         Print (if status =? 0
                then ConversionCompleted input_path output_path
                else ConversionError input_path (CalledProcessError cmd status))]
  end.
Proof.
  cbv zeta.
  unfold Transcriber.convert_to_mp3, try_except, bind, subprocess_run. cbv zeta.
  destruct (spawn env (fs w) _) as [reason|status f];
    cbn [outcome world events andb is_CalledProcessError]; [reflexivity|].
  destruct (status =? 0); reflexivity.
Qed.

Lemma W_convert_run env input_path output_path w :
  let cmd := ["ffmpeg"; "-i"; input_path; "-q:a"; "0"; "-map"; "a"; output_path] in
  WhisperTranscriber.convert_to_mp3 env input_path output_path w =
  match spawn env (fs w) cmd with
  | NotStarted reason => mkRun (inl (OSError reason)) w [Spawn cmd false]
  | Exited status f =>
      mkRun (inr tt) (set_fs w f)
        [Spawn cmd false; Print (ConversionCompleted input_path output_path)]
  end.
Proof.
  cbv zeta.
  unfold WhisperTranscriber.convert_to_mp3, try_except, bind, subprocess_run. cbv zeta.
  destruct (spawn env (fs w) _) as [reason|status f]; reflexivity.
Qed.

(** X11. [convert_to_mp3] of transcriber.py spawns one process, with the
    fixed argument list around the two paths.  When the process cannot be
    started, the [OSError] leaves the function: nothing is printed and the
    file system stays as it was.  Otherwise the function returns normally;
    it prints that the conversion completed when the exit status is zero
    and the error, with the status, otherwise, and the file system is the
    one the process leaves. *)
Theorem convert_to_mp3_reports_by_exit_status
    (env : Env) (input_path output_path : string) (w : World) :
  let cmd := ["ffmpeg"; "-i"; input_path; "-q:a"; "0"; "-map"; "a"; output_path] in
  let r := Transcriber.convert_to_mp3 env input_path output_path w in
  match spawn env (fs w) cmd with
  | NotStarted reason =>
      outcome r = inl (OSError reason) /\
      world r = w /\
      events r = [Spawn cmd true]
  | Exited status f =>
      outcome r = inr tt /\
      fs (world r) = f /\
      events r =
        [Spawn cmd true;
         Print (if status =? 0
                then ConversionCompleted input_path output_path
                else ConversionError input_path (CalledProcessError cmd status))]
  end.
Proof.
  cbv zeta. rewrite T_convert_run. cbv zeta.
  destruct (spawn env (fs w) _); repeat split.
Qed.

Example convert_to_mp3_unstartable :
  let cmd := ["ffmpeg"; "-i"; "/in/a.mkv"; "-q:a"; "0"; "-map"; "a"; "/in/a.mp3"] in
  Transcriber.convert_to_mp3 unstartable_env "/in/a.mkv" "/in/a.mp3" sample_world =
  mkRun (inl (OSError "ffmpeg")) sample_world [Spawn cmd true].
Proof. reflexivity. Qed.

Lemma T_resolve_direct env file in_path w :
  str_in (Str.lower (Path.splitext file).2)
         Transcriber.EXTENSIONS_REQUIRING_CONVERSION = false ->
  Transcriber.resolve_file_path env file in_path w =
  mkRun (inr (Path.join in_path file)) w [].
Proof. intros H. unfold Transcriber.resolve_file_path. cbv zeta. now rewrite H. Qed.

Lemma W_resolve_direct env file in_path w :
  str_in (Str.lower (Path.splitext file).2)
         WhisperTranscriber.unsupported_extensions = false ->
  WhisperTranscriber.resolve_file_path env file in_path w =
  mkRun (inr (Path.join in_path file)) w [].
Proof. intros H. unfold WhisperTranscriber.resolve_file_path. cbv zeta. now rewrite H. Qed.

Lemma T_try_frame env m file fp txt language w p :
  p <> txt ->
  fs (world (try_except (Transcriber.transcription_attempt env m file fp txt language)
               is_Exception (fun e => print (TranscriptionError file e)) w)) !! p =
  fs w !! p.
Proof.
  intros Hp. pose proof (T_try_run env m file fp txt language w) as H.
  cbv zeta in H. try_cases H; try reflexivity;
    cbn [set_fs fs]; apply lookup_insert_ne; congruence.
Qed.

Lemma W_try_frame env m file fp in_path txt language w p :
  p <> txt ->
  fs (world (try_except
               (WhisperTranscriber.transcription_attempt env m file fp in_path txt
                  language)
               is_Exception (fun e => print (TranscriptionError file e)) w)) !! p =
  fs w !! p.
Proof.
  intros Hp. pose proof (W_try_run env m file fp in_path txt language w) as H.
  cbv zeta in H. try_cases H; try reflexivity;
    cbn [set_fs fs]; apply lookup_insert_ne; congruence.
Qed.

(** X12. A call for a file whose extension is outside the conversion
    subset spawns no process and leaves every path other than the output
    path as it was, in both scripts: the input file and the rest of the
    file system are not touched. *)
Theorem direct_file_touches_only_output_path
    (env : Env) (file in_path out_path language : string) (w : World) (p : string) :
  p <> Path.join out_path ((Path.splitext file).1 ++ ".txt") ->
  (forall m,
     str_in (Str.lower (Path.splitext file).2)
            Transcriber.EXTENSIONS_REQUIRING_CONVERSION = false ->
     let r := Transcriber.transcribe_single_file env m file in_path out_path
                language w in
     fs (world r) !! p = fs w !! p /\
     Forall (fun e => is_spawn e = false) (events r)) /\
  (forall model_name device,
     str_in (Str.lower (Path.splitext file).2)
            WhisperTranscriber.unsupported_extensions = false ->
     let r := WhisperTranscriber.transcribe_single_file env model_name device file
                in_path out_path language w in
     fs (world r) !! p = fs w !! p /\
     Forall (fun e => is_spawn e = false) (events r)).
Proof.
  intros Hp. split.
  - intros m Hc. cbv zeta.
    destruct (str_in (Str.lower (Path.splitext file).2)
                Transcriber.EXTENSIONS_SUPPORTED) eqn:Hs.
    + pose proof (T_single_supported env m file in_path out_path language w Hs) as Hrun.
      cbv zeta in Hrun. rewrite Hc, (T_resolve_direct _ _ _ _ Hc) in Hrun.
      rewrite (Hrun eq_refl). cbn [events world app]. split.
      * now apply T_try_frame.
      * repeat (apply Forall_cons; split; [reflexivity|]). now apply T_try_emits.
    + rewrite (T_single_unsupported _ _ _ _ _ _ _ Hs). cbn [events world].
      split; [reflexivity|]. repeat constructor.
  - intros model_name device Hc. cbv zeta.
    destruct (str_in (Str.lower (Path.splitext file).2)
                WhisperTranscriber.extensions) eqn:Hs.
    + pose proof (W_single_supported env model_name device file in_path out_path
                    language w Hs) as Hrun.
      cbv zeta in Hrun. rewrite Hc, (W_resolve_direct _ _ _ _ Hc) in Hrun.
      rewrite (Hrun eq_refl). cbn [events world app]. split.
      * rewrite W_try_frame by exact Hp. reflexivity.
      * repeat (apply Forall_cons; split; [reflexivity|]). now apply W_try_emits.
    + rewrite (W_single_unsupported _ _ _ _ _ _ _ _ Hs). cbn [events world].
      split; [reflexivity|]. repeat constructor.
Qed.

Lemma direct_file_touches_only_output_path_witness :
  fs (world (Transcriber.transcribe_single_file sample_env (Model 0 "tiny" "cpu")
               "meeting.wav" "/in" "/out" "Italian" sample_world))
    !! "/in/meeting.wav" =
  fs sample_world !! "/in/meeting.wav".
Proof.
  apply (proj1 (direct_file_touches_only_output_path sample_env "meeting.wav" "/in"
                  "/out" "Italian" sample_world "/in/meeting.wav"
                  ltac:(discriminate))
               (Model 0 "tiny" "cpu") eq_refl).
Defined.

(** The conversion block of a file whose [.mp3] sibling does not exist:
    the converter is spawned, and the block returns the sibling path unless
    the converter could not be started. *)
Lemma T_resolve_missing env file in_path w :
  str_in (Str.lower (Path.splitext file).2)
         Transcriber.EXTENSIONS_REQUIRING_CONVERSION = true ->
  let mp3_path := Path.join in_path ((Path.splitext file).1 ++ ".mp3") in
  let cmd := ["ffmpeg"; "-i"; Path.join in_path file; "-q:a"; "0"; "-map"; "a";
              mp3_path] in
  path_exists (fs w) mp3_path = false ->
  match spawn env (fs w) cmd with
  | NotStarted reason =>
      Transcriber.resolve_file_path env file in_path w =
      mkRun (inl (OSError reason)) w
            [Print (StartingConversion file (Path.splitext file).2); Spawn cmd true]
  | Exited status f =>
      exists report,
        Transcriber.resolve_file_path env file in_path w =
        mkRun (inr mp3_path) (set_fs w f)
              [Print (StartingConversion file (Path.splitext file).2);
               Spawn cmd true; Print report]
  end.
Proof.
  intros Hc. cbv zeta. intros He.
  unfold Transcriber.resolve_file_path. cbv zeta.
  rewrite Hc, bind_print, bind_get_fs, He. cbn [negb].
  pose proof (T_convert_run env (Path.join in_path file)
                (Path.join in_path ((Path.splitext file).1 ++ ".mp3")) w) as Hr.
  cbv zeta in Hr.
  destruct (spawn env (fs w) _) as [reason|status f].
  - rewrite (bind_err _ _ _ (OSError reason)) by now rewrite Hr.
    rewrite Hr. reflexivity.
  - rewrite (bind_ok _ _ _ tt) by now rewrite Hr.
    rewrite Hr. cbn [outcome world events ret app]. eexists. reflexivity.
Qed.

Lemma W_resolve_missing env file in_path w :
  str_in (Str.lower (Path.splitext file).2)
         WhisperTranscriber.unsupported_extensions = true ->
  let mp3_path := Path.join in_path ((Path.splitext file).1 ++ ".mp3") in
  let cmd := ["ffmpeg"; "-i"; Path.join in_path file; "-q:a"; "0"; "-map"; "a";
              mp3_path] in
  path_exists (fs w) mp3_path = false ->
  WhisperTranscriber.resolve_file_path env file in_path w =
  match spawn env (fs w) cmd with
  | NotStarted reason =>
      mkRun (inl (OSError reason)) w
            [Print (StartingConversion file (Path.splitext file).2); Spawn cmd false]
  | Exited status f =>
      mkRun (inr mp3_path) (set_fs w f)
            [Print (StartingConversion file (Path.splitext file).2);
             Spawn cmd false;
             Print (ConversionCompleted (Path.join in_path file) mp3_path)]
  end.
Proof.
  intros Hc. cbv zeta. intros He.
  unfold WhisperTranscriber.resolve_file_path. cbv zeta.
  rewrite Hc, bind_print, bind_get_fs, He. cbn [negb].
  pose proof (W_convert_run env (Path.join in_path file)
                (Path.join in_path ((Path.splitext file).1 ++ ".mp3")) w) as Hr.
  cbv zeta in Hr.
  destruct (spawn env (fs w) _) as [reason|status f].
  - rewrite (bind_err _ _ _ (OSError reason)) by now rewrite Hr.
    rewrite Hr. reflexivity.
  - rewrite (bind_ok _ _ _ tt) by now rewrite Hr.
    rewrite Hr. reflexivity.
Qed.

(** The conversion block raises only for a converter that could not be
    started, right after asking for it. *)
Lemma T_resolve_raised env file in_path w e :
  outcome (Transcriber.resolve_file_path env file in_path w) = inl e ->
  let cmd := ["ffmpeg"; "-i"; Path.join in_path file; "-q:a"; "0"; "-map"; "a";
              Path.join in_path ((Path.splitext file).1 ++ ".mp3")] in
  exists reason,
    e = OSError reason /\
    spawn env (fs w) cmd = NotStarted reason /\
    Transcriber.resolve_file_path env file in_path w =
    mkRun (inl e) w
          [Print (StartingConversion file (Path.splitext file).2); Spawn cmd true].
Proof.
  cbv zeta. intros H.
  destruct (str_in (Str.lower (Path.splitext file).2)
              Transcriber.EXTENSIONS_REQUIRING_CONVERSION) eqn:Hc;
    [|rewrite (T_resolve_direct _ _ _ _ Hc) in H; discriminate].
  destruct (path_exists (fs w) (Path.join in_path ((Path.splitext file).1 ++ ".mp3")))
    eqn:He; [rewrite (T_resolve_existing _ _ _ _ Hc He) in H; discriminate|].
  pose proof (T_resolve_missing env file in_path w Hc He) as Hr. cbv zeta in Hr.
  destruct (spawn env (fs w) _) as [reason|status f].
  - rewrite Hr in H |- *. cbn in H. injection H as <-. now exists reason.
  - destruct Hr as [report Hr]. rewrite Hr in H. discriminate.
Qed.

Lemma W_resolve_raised env file in_path w e :
  outcome (WhisperTranscriber.resolve_file_path env file in_path w) = inl e ->
  let cmd := ["ffmpeg"; "-i"; Path.join in_path file; "-q:a"; "0"; "-map"; "a";
              Path.join in_path ((Path.splitext file).1 ++ ".mp3")] in
  exists reason,
    e = OSError reason /\
    spawn env (fs w) cmd = NotStarted reason /\
    WhisperTranscriber.resolve_file_path env file in_path w =
    mkRun (inl e) w
          [Print (StartingConversion file (Path.splitext file).2); Spawn cmd false].
Proof.
  cbv zeta. intros H.
  destruct (str_in (Str.lower (Path.splitext file).2)
              WhisperTranscriber.unsupported_extensions) eqn:Hc;
    [|rewrite (W_resolve_direct _ _ _ _ Hc) in H; discriminate].
  destruct (path_exists (fs w) (Path.join in_path ((Path.splitext file).1 ++ ".mp3")))
    eqn:He; [rewrite (W_resolve_existing _ _ _ _ Hc He) in H; discriminate|].
  pose proof (W_resolve_missing env file in_path w Hc He) as Hr. cbv zeta in Hr.
  destruct (spawn env (fs w) _) as [reason|status f].
  - rewrite Hr in H |- *. cbn in H. injection H as <-. now exists reason.
  - rewrite Hr in H. discriminate.
Qed.

(** The events of the [try] statement, followed by nothing: a write and
    the completion, or the report of the error after no write. *)
Lemma T_try_ends env m file fp txt language w :
  let r := try_except (Transcriber.transcription_attempt env m file fp txt language)
             is_Exception (fun e => print (TranscriptionError file e)) w in
  (exists text,
     events r = [Transcribe m fp language; WriteFile txt text;
                 Print (TranscriptionCompleted file)] /\
     fs (world r) !! txt = Some (File text)) \/
  (exists e,
     events r = [Transcribe m fp language; Print (TranscriptionError file e)]).
Proof.
  cbv zeta. pose proof (T_try_run env m file fp txt language w) as H.
  cbv zeta in H. try_cases H.
  - right. now eexists.
  - right. now eexists.
  - right. now eexists.
  - left. eexists. split; [reflexivity|]. cbn [set_fs fs]. apply lookup_insert_eq.
Qed.

Lemma W_try_ends env m file fp in_path txt language w :
  let r := try_except
             (WhisperTranscriber.transcription_attempt env m file fp in_path txt
                language)
             is_Exception (fun e => print (TranscriptionError file e)) w in
  let path := Path.join in_path file in
  (exists text,
     events r = [Transcribe m path language; WriteFile txt text;
                 Print (TranscriptionCompleted file)] /\
     fs (world r) !! txt = Some (File text)) \/
  (exists e,
     events r = [Transcribe m path language; Print (TranscriptionError file e)]).
Proof.
  cbv zeta. pose proof (W_try_run env m file fp in_path txt language w) as H.
  cbv zeta in H. try_cases H.
  - right. now eexists.
  - right. now eexists.
  - right. now eexists.
  - left. eexists. split; [reflexivity|]. cbn [set_fs fs]. apply lookup_insert_eq.
Qed.

(** X13. A call for an allow-listed file ends in one of three ways, in
    both scripts.
    - The call returns, the text is written to the output path and the
      completion is printed, as the last two events; the output path holds
      the text.
    - The call returns and the last event is the error report of the
      file; no write is recorded.
    - The converter could not be started: the [OSError] leaves the call,
      whose last event is the request for the converter; the model is not
      called and nothing is reported. *)
Theorem supported_file_ends_with_one_report
    (env : Env) (file in_path out_path language : string) (w : World) :
  let txt := Path.join out_path ((Path.splitext file).1 ++ ".txt") in
  let cmd := ["ffmpeg"; "-i"; Path.join in_path file; "-q:a"; "0"; "-map"; "a";
              Path.join in_path ((Path.splitext file).1 ++ ".mp3")] in
  let ends (r : Run unit) (aborted : list event) :=
    (outcome r = inr tt /\
     exists pre text,
       events r =
         (pre ++ [WriteFile txt text; Print (TranscriptionCompleted file)])%list /\
       Forall (fun e => is_write e = false) pre /\
       fs (world r) !! txt = Some (File text)) \/
    (outcome r = inr tt /\
     exists pre e,
       events r = (pre ++ [Print (TranscriptionError file e)])%list /\
       Forall (fun e => is_write e = false) (events r)) \/
    (exists reason,
       spawn env (fs w) cmd = NotStarted reason /\
       outcome r = inl (OSError reason) /\
       events r = aborted) in
  (forall m,
     str_in (Str.lower (Path.splitext file).2) Transcriber.EXTENSIONS_SUPPORTED = true ->
     ends (Transcriber.transcribe_single_file env m file in_path out_path language w)
          [Print (FileHeader file);
           Print (StartingConversion file (Path.splitext file).2);
           Spawn cmd true]) /\
  (forall model_name device,
     str_in (Str.lower (Path.splitext file).2) WhisperTranscriber.extensions = true ->
     ends (WhisperTranscriber.transcribe_single_file env model_name device
             file in_path out_path language w)
          [Print (FileHeader file);
           LoadModel (Model (next_model w) model_name device);
           Print (StartingConversion file (Path.splitext file).2);
           Spawn cmd false]).
Proof.
  cbv zeta. split.
  - intros m Hs.
    destruct (outcome (Transcriber.resolve_file_path env file in_path w)) as [e|a] eqn:Hr.
    { right. right.
      destruct (T_resolve_raised env file in_path w e Hr) as (reason & -> & Hsp & Hrun).
      exists reason. split; [exact Hsp|].
      rewrite (T_single_aborted _ _ _ _ _ _ _ _ Hs Hr). rewrite Hrun. split; reflexivity. }
    pose proof (T_resolve_value _ _ _ _ _ Hr) as ->.
    rewrite (T_single_supported _ _ _ _ _ _ _ Hs Hr). cbn [events outcome world].
    set (r0 := Transcriber.resolve_file_path env file in_path w).
    set (fp := if str_in _ Transcriber.EXTENSIONS_REQUIRING_CONVERSION then _ else _).
    assert (H0 : Forall (fun e => is_write e = false) (events r0))
      by (apply T_resolve_emits; reflexivity).
    set (pre := (Print (FileHeader file) :: events r0 ++
                 [Print (StartingTranscription file); Transcribe m fp language])%list).
    assert (Hpre : Forall (fun e => is_write e = false) pre).
    { unfold pre. apply Forall_cons; split; [reflexivity|].
      apply Forall_app; split; [exact H0|]. repeat constructor. }
    pose proof (proj1 (T_try_run env m file fp
                  (Path.join out_path ((Path.splitext file).1 ++ ".txt")) language
                  (world r0))) as Ho.
    destruct (T_try_ends env m file fp
                (Path.join out_path ((Path.splitext file).1 ++ ".txt")) language
                (world r0)) as [(text & -> & Hfs)|(e & ->)].
    + left. split; [exact Ho|]. exists pre, text. split; [|split; [exact Hpre|exact Hfs]].
      unfold pre. cbn [app]. f_equal. rewrite <- app_assoc. reflexivity.
    + right. left. split; [exact Ho|]. exists pre, e. split.
      * unfold pre. cbn [app]. f_equal. rewrite <- app_assoc. reflexivity.
      * apply Forall_cons; split; [reflexivity|]. apply Forall_app; split; [exact H0|].
        repeat constructor.
  - intros model_name device Hs.
    destruct (outcome (WhisperTranscriber.resolve_file_path env file in_path
                         (bump_model w))) as [e|a] eqn:Hr.
    { right. right.
      destruct (W_resolve_raised env file in_path (bump_model w) e Hr)
        as (reason & -> & Hsp & Hrun).
      exists reason. split; [exact Hsp|].
      rewrite (W_single_aborted _ _ _ _ _ _ _ _ _ Hs Hr). rewrite Hrun.
      split; reflexivity. }
    pose proof (W_resolve_value _ _ _ _ _ Hr) as ->.
    rewrite (W_single_supported _ _ _ _ _ _ _ _ Hs Hr). cbn [events outcome world].
    set (mdl := Model (next_model w) model_name device).
    set (r0 := WhisperTranscriber.resolve_file_path env file in_path (bump_model w)).
    set (fp := if str_in _ WhisperTranscriber.unsupported_extensions then _ else _).
    assert (H0 : Forall (fun e => is_write e = false) (events r0))
      by (apply W_resolve_emits; reflexivity).
    set (pre := (Print (FileHeader file) :: LoadModel mdl :: events r0 ++
                 [Print (StartingTranscription file);
                  Transcribe mdl (Path.join in_path file) language])%list).
    assert (Hpre : Forall (fun e => is_write e = false) pre).
    { unfold pre. repeat (apply Forall_cons; split; [reflexivity|]).
      apply Forall_app; split; [exact H0|]. repeat constructor. }
    pose proof (proj1 (W_try_run env mdl file fp in_path
                  (Path.join out_path ((Path.splitext file).1 ++ ".txt")) language
                  (world r0))) as Ho.
    destruct (W_try_ends env mdl file fp in_path
                (Path.join out_path ((Path.splitext file).1 ++ ".txt")) language
                (world r0)) as [(text & -> & Hfs)|(e & ->)].
    + left. split; [exact Ho|]. exists pre, text. split; [|split; [exact Hpre|exact Hfs]].
      unfold pre. cbn [app]. do 2 f_equal. rewrite <- app_assoc. reflexivity.
    + right. left. split; [exact Ho|]. exists pre, e. split.
      * unfold pre. cbn [app]. do 2 f_equal. rewrite <- app_assoc. reflexivity.
      * repeat (apply Forall_cons; split; [reflexivity|]).
        apply Forall_app; split; [exact H0|]. repeat constructor.
Qed.

Lemma supported_file_ends_with_one_report_witness :
  let r := Transcriber.transcribe_single_file unstartable_env (Model 0 "tiny" "cpu")
             "a.mkv" "/in" "/out" "Italian" sample_world in
  outcome r = inl (OSError "ffmpeg") /\
  events r =
    [Print (FileHeader "a.mkv"); Print (StartingConversion "a.mkv" ".mkv");
     Spawn ["ffmpeg"; "-i"; "/in/a.mkv"; "-q:a"; "0"; "-map"; "a"; "/in/a.mp3"] true].
Proof.
  cbv zeta.
  destruct (proj1 (supported_file_ends_with_one_report unstartable_env "a.mkv" "/in"
                     "/out" "Italian" sample_world) (Model 0 "tiny" "cpu") eq_refl)
    as [[H _]|[[H _]|(reason & Hsp & Ho & He)]]; try discriminate H.
  injection Hsp as <-. split; [exact Ho | exact He].
Defined.

(** A write that fails after the output file was opened: the error is
    reported, no write is recorded, and the file is left empty. *)
Example failed_write_leaves_truncated_file :
  let r := Transcriber.transcribe_single_file full_disk_env (Model 0 "tiny" "cpu")
             "meeting.wav" "/in" "/out" "Italian" sample_world in
  outcome r = inr tt /\
  events r =
    [Print (FileHeader "meeting.wav"); Print (StartingTranscription "meeting.wav");
     Transcribe (Model 0 "tiny" "cpu") "/in/meeting.wav" "Italian";
     Print (TranscriptionError "meeting.wav" (OSError "No space left on device"))] /\
  fs sample_world !! "/out/meeting.txt" = None /\
  fs (world r) !! "/out/meeting.txt" = Some (File "").
Proof. cbv zeta. repeat split; vm_compute; reflexivity. Qed.

Lemma filter_none {A} (f : A -> bool) (l : list A) :
  Forall (fun x => f x = false) l -> List.filter f l = [].
Proof.
  induction 1 as [|x l Hx _ IH]; [reflexivity|]. cbn [List.filter]. now rewrite Hx.
Qed.

Lemma T_try_keeps_paths env m file fp txt language w p :
  path_exists (fs w) p = true ->
  path_exists
    (fs (world (try_except (Transcriber.transcription_attempt env m file fp txt language)
                  is_Exception (fun e => print (TranscriptionError file e)) w))) p
  = true.
Proof.
  intros Hp. pose proof (T_try_run env m file fp txt language w) as H.
  cbv zeta in H. try_cases H; try exact Hp;
    cbn [set_fs fs]; unfold path_exists in *; rewrite lookup_insert;
    (destruct (decide (txt = p)); [reflexivity | exact Hp]).
Qed.

Lemma W_try_keeps_paths env m file fp in_path txt language w p :
  path_exists (fs w) p = true ->
  path_exists
    (fs (world (try_except
                  (WhisperTranscriber.transcription_attempt env m file fp in_path txt
                     language)
                  is_Exception (fun e => print (TranscriptionError file e)) w))) p
  = true.
Proof.
  intros Hp. pose proof (W_try_run env m file fp in_path txt language w) as H.
  cbv zeta in H. try_cases H; try exact Hp;
    cbn [set_fs fs]; unfold path_exists in *; rewrite lookup_insert;
    (destruct (decide (txt = p)); [reflexivity | exact Hp]).
Qed.

(** The processes a call spawns when the [.mp3] sibling does not exist:
    the converter, once, whether it can be started or not. *)
Lemma T_single_spawns env m file in_path out_path language w :
  str_in (Str.lower (Path.splitext file).2)
         Transcriber.EXTENSIONS_REQUIRING_CONVERSION = true ->
  let mp3_path := Path.join in_path ((Path.splitext file).1 ++ ".mp3") in
  let cmd := ["ffmpeg"; "-i"; Path.join in_path file; "-q:a"; "0"; "-map"; "a";
              mp3_path] in
  path_exists (fs w) mp3_path = false ->
  List.filter is_spawn
    (events (Transcriber.transcribe_single_file env m file in_path out_path language w))
  = [Spawn cmd true].
Proof.
  intros Hc. cbv zeta. intros He. pose proof (T_conversion_subset _ Hc) as Hs.
  pose proof (T_resolve_missing env file in_path w Hc He) as Hr. cbv zeta in Hr.
  pose proof (T_single_supported env m file in_path out_path language w Hs) as Hrun.
  cbv zeta in Hrun. rewrite Hc in Hrun.
  destruct (spawn env (fs w) _) as [reason|status f].
  - rewrite (T_single_aborted _ _ _ _ _ _ _ (OSError reason) Hs) by now rewrite Hr.
    rewrite Hr. reflexivity.
  - destruct Hr as [report Hr]. rewrite Hr in Hrun. rewrite (Hrun eq_refl).
    cbn [events world outcome app List.filter is_spawn]. f_equal.
    apply filter_none. now apply T_try_emits.
Qed.

Lemma W_single_spawns env model_name device file in_path out_path language w :
  str_in (Str.lower (Path.splitext file).2)
         WhisperTranscriber.unsupported_extensions = true ->
  let mp3_path := Path.join in_path ((Path.splitext file).1 ++ ".mp3") in
  let cmd := ["ffmpeg"; "-i"; Path.join in_path file; "-q:a"; "0"; "-map"; "a";
              mp3_path] in
  path_exists (fs w) mp3_path = false ->
  List.filter is_spawn
    (events (WhisperTranscriber.transcribe_single_file env model_name device file
               in_path out_path language w))
  = [Spawn cmd false].
Proof.
  intros Hc. cbv zeta. intros He. pose proof (W_conversion_subset _ Hc) as Hs.
  pose proof (W_resolve_missing env file in_path (bump_model w) Hc He) as Hr.
  cbv zeta in Hr.
  pose proof (W_single_supported env model_name device file in_path out_path language
                w Hs) as Hrun.
  cbv zeta in Hrun. rewrite Hc in Hrun.
  change (fs (bump_model w)) with (fs w) in Hr.
  destruct (spawn env (fs w) _) as [reason|status f].
  - rewrite (W_single_aborted _ _ _ _ _ _ _ _ (OSError reason) Hs) by now rewrite Hr.
    rewrite Hr. reflexivity.
  - rewrite Hr in Hrun. rewrite (Hrun eq_refl).
    cbn [events world outcome app List.filter is_spawn]. f_equal.
    apply filter_none. now apply W_try_emits.
Qed.

(** X14. The conversion is done once per path.  When the [.mp3] sibling of
    a file of the conversion subset does not exist, a call spawns the
    converter exactly once, with the input path and the sibling path; if
    the converter runs and leaves a file at the sibling path, a second call
    for the same file spawns nothing.  This holds in both scripts. *)
Theorem conversion_runs_once_per_path
    (env : Env) (file in_path out_path language : string) (w : World) :
  let mp3_path := Path.join in_path ((Path.splitext file).1 ++ ".mp3") in
  let cmd := ["ffmpeg"; "-i"; Path.join in_path file; "-q:a"; "0"; "-map"; "a";
              mp3_path] in
  path_exists (fs w) mp3_path = false ->
  (forall m,
     str_in (Str.lower (Path.splitext file).2)
            Transcriber.EXTENSIONS_REQUIRING_CONVERSION = true ->
     let r1 := Transcriber.transcribe_single_file env m file in_path out_path
                 language w in
     let r2 := Transcriber.transcribe_single_file env m file in_path out_path
                 language (world r1) in
     List.filter is_spawn (events r1) = [Spawn cmd true] /\
     (forall status f,
        spawn env (fs w) cmd = Exited status f ->
        path_exists f mp3_path = true ->
        List.filter is_spawn (events r2) = [])) /\
  (forall model_name device,
     str_in (Str.lower (Path.splitext file).2)
            WhisperTranscriber.unsupported_extensions = true ->
     let r1 := WhisperTranscriber.transcribe_single_file env model_name device file
                 in_path out_path language w in
     let r2 := WhisperTranscriber.transcribe_single_file env model_name device file
                 in_path out_path language (world r1) in
     List.filter is_spawn (events r1) = [Spawn cmd false] /\
     (forall status f,
        spawn env (fs w) cmd = Exited status f ->
        path_exists f mp3_path = true ->
        List.filter is_spawn (events r2) = [])).
Proof.
  cbv zeta. intros He. split.
  - intros m Hc. pose proof (T_conversion_subset _ Hc) as Hs.
    split; [now apply T_single_spawns|].
    intros status f Hsp Hf.
    pose proof (T_resolve_missing env file in_path w Hc He) as Hr. cbv zeta in Hr.
    rewrite Hsp in Hr. destruct Hr as [report Hr].
    pose proof (T_single_supported env m file in_path out_path language w Hs) as Hrun.
    cbv zeta in Hrun. rewrite Hc, Hr in Hrun. rewrite (Hrun eq_refl).
    cbn [world].
    pose proof (T_try_keeps_paths env m file
                  (Path.join in_path ((Path.splitext file).1 ++ ".mp3"))
                  (Path.join out_path ((Path.splitext file).1 ++ ".txt"))
                  language (set_fs w f) _ Hf) as Hk.
    match type of Hk with
    | path_exists (fs ?w1) _ = true =>
        pose proof (T_resolve_existing env file in_path w1 Hc Hk) as Hr2;
        pose proof (T_single_supported env m file in_path out_path language w1 Hs)
          as Hrun2
    end.
    cbv zeta in Hrun2. rewrite Hc, Hr2 in Hrun2. rewrite (Hrun2 eq_refl).
    cbn [events world app List.filter is_spawn].
    apply filter_none. now apply T_try_emits.
  - intros model_name device Hc. pose proof (W_conversion_subset _ Hc) as Hs.
    split; [now apply W_single_spawns|].
    intros status f Hsp Hf.
    pose proof (W_resolve_missing env file in_path (bump_model w) Hc He) as Hr.
    cbv zeta in Hr. change (fs (bump_model w)) with (fs w) in Hr.
    rewrite Hsp in Hr.
    pose proof (W_single_supported env model_name device file in_path out_path
                  language w Hs) as Hrun.
    cbv zeta in Hrun. rewrite Hc, Hr in Hrun. rewrite (Hrun eq_refl).
    cbn [world].
    pose proof (W_try_keeps_paths env (Model (next_model w) model_name device) file
                  (Path.join in_path ((Path.splitext file).1 ++ ".mp3")) in_path
                  (Path.join out_path ((Path.splitext file).1 ++ ".txt"))
                  language (set_fs (bump_model w) f) _ Hf) as Hk.
    match type of Hk with
    | path_exists (fs ?w1) _ = true =>
        pose proof (W_resolve_existing env file in_path (bump_model w1) Hc Hk) as Hr2;
        pose proof (W_single_supported env model_name device file in_path out_path
                      language w1 Hs) as Hrun2
    end.
    cbv zeta in Hrun2. rewrite Hc, Hr2 in Hrun2. rewrite (Hrun2 eq_refl).
    cbn [events world app List.filter is_spawn].
    apply filter_none. now apply W_try_emits.
Qed.

Lemma conversion_runs_once_per_path_witness :
  let r1 := Transcriber.transcribe_single_file converting_env (Model 0 "tiny" "cpu")
              "a.mkv" "/in" "/out" "Italian" sample_world in
  let r2 := Transcriber.transcribe_single_file converting_env (Model 0 "tiny" "cpu")
              "a.mkv" "/in" "/out" "Italian" (world r1) in
  List.filter is_spawn (events r1) =
    [Spawn ["ffmpeg"; "-i"; "/in/a.mkv"; "-q:a"; "0"; "-map"; "a"; "/in/a.mp3"] true] /\
  List.filter is_spawn (events r2) = [].
Proof.
  cbv zeta.
  destruct (proj1 (conversion_runs_once_per_path converting_env "a.mkv" "/in" "/out"
                     "Italian" sample_world eq_refl)
                  (Model 0 "tiny" "cpu") eq_refl) as [H1 H2].
  split; [exact H1|].
  exact (H2 0 (<["/in/a.mp3" := File "mp3 audio"]> (fs sample_world)) eq_refl eq_refl).
Defined.
(** ** [os.path.splitext] *)

Lemma substring_split (n : nat) (s : string) :
  substring 0 n s ++ substring n (String.length s - n) s = s.
Proof.
  revert n. induction s as [|c s IH]; intros [|n]; try reflexivity.
  - cbn [String.length Nat.sub substring]. change (String c (substring 0 (String.length s) s) = String c s).
    f_equal. clear IH. induction s as [|d s IH]; [reflexivity|].
    cbn [String.length substring]. now rewrite IH.
  - cbn [String.length Nat.sub substring].
    change (String c (substring 0 n s ++ substring n (String.length s - n) s)
            = String c s).
    now rewrite IH.
Qed.

Lemma rfind_from_lower c s i last :
  -1 <= last -> 0 <= i -> -1 <= Str.rfind_from c s i last.
Proof.
  revert i last. induction s as [|d s IH]; intros i last Hl Hi; cbn [Str.rfind_from].
  - exact Hl.
  - apply IH; [|lia]. destruct (Ascii.eqb d c); lia.
Qed.

(** X15. [os.path.splitext] cuts a name in two without losing anything: the
    stem followed by the extension is the name, so the transcript name
    differs from the input name only in its extension. *)
Theorem splitext_parts_make_the_name (p : string) :
  (Path.splitext p).1 ++ (Path.splitext p).2 = p.
Proof.
  unfold Path.splitext. cbv zeta.
  pose proof (rfind_from_lower "/" p 0 (-1) ltac:(lia) ltac:(lia)) as Hsep.
  fold (Str.rfind "/" p) in Hsep.
  destruct (_ && _) eqn:E; cbn [fst snd].
  - apply andb_true_iff in E. destruct E as [E _]. apply Z.ltb_lt in E.
    unfold Str.upto, Str.from, Str.slice.
    replace (Z.to_nat (Str.rfind "." p - 0)) with (Z.to_nat (Str.rfind "." p)) by lia.
    replace (Z.to_nat (Z.of_nat (String.length p) - Str.rfind "." p))
      with (String.length p - Z.to_nat (Str.rfind "." p))%nat by lia.
    change (Z.to_nat 0) with 0%nat. apply substring_split.
  - clear. induction p as [|c p IH]; [reflexivity|].
    change (String c (p ++ "") = String c p). now rewrite IH.
Qed.

(** ** The whole run, further *)












(** X17. A run whose prompts are answered processes its input, in both
    scripts.  When the input path is a regular file, [main] calls
    [transcribe_single_file] on its base name and its directory; otherwise
    it asks for the order and calls [transcribe_multiple_files] on the
    path.  The call gets the output path, the language and the model (in
    whisper_transcriber.py the model name and the device) of the answers,
    and the file system the run began with; the run ends as the call ends,
    and its trace is the questions, the load in transcriber.py, the
    separator and the trace of the call.  So the files processed are the
    one file, or a prefix of the ordered filtered listing of the directory,
    all of it when the run ends normally. *)
Theorem completed_run_processes_the_input
    (env : Env) (w : World) (answ name in_path language out_path : string) :
  let device := if String.eqb answ "N" then "cpu" else get_device env in
  let r_device := user_device_choice w in
  let r_name := get_model_name (world r_device) in
  outcome r_device = inr answ ->
  outcome r_name = inr name ->
  (let m := Model (next_model w) name device in
   let r_in := Transcriber.get_input_path (bump_model (world r_name)) in
   let r_language := get_language (world r_in) in
   let r_out := Transcriber.get_output_path (isfile (fs w) in_path) (world r_language) in
   let r_order := get_order_criterion (world r_out) in
   let run := Transcriber.main env w in
   let asked tail :=
     (events r_device ++ events r_name ++
      Print (LoadingModel name device) :: LoadModel m :: Print ModelLoaded ::
      events r_in ++ events r_language ++ events r_out ++ tail)%list in
   outcome r_in = inr in_path ->
   outcome r_language = inr language ->
   outcome r_out = inr out_path ->
   (isfile (fs w) in_path = true ->
    let call :=
      Transcriber.transcribe_single_file env m (Path.basename in_path)
        (Path.dirname in_path) out_path language (world r_out) in
    outcome run = outcome call /\
    world run = world call /\
    events run = asked (Print Separator :: events call) /\
    fs (world r_out) = fs w /\
    processed_files (events run) = [Path.basename in_path]) /\
   (forall order_criterion,
      isfile (fs w) in_path = false ->
      outcome r_order = inr order_criterion ->
      let call :=
        Transcriber.transcribe_multiple_files env m in_path out_path language
          order_criterion (world r_order) in
      let ordered :=
        sort_files env in_path order_criterion
          (supported_files env Transcriber.EXTENSIONS_SUPPORTED (fs w) in_path) in
      outcome run = outcome call /\
      world run = world call /\
      events run = asked (events r_order ++ Print Separator :: events call)%list /\
      fs (world r_order) = fs w /\
      processed_files (events run) `prefix_of` ordered /\
      (outcome run = inr tt -> processed_files (events run) = ordered))) /\
  (let r_in := WhisperTranscriber.get_input_path (world r_name) in
   let r_language := get_language (world r_in) in
   let r_out :=
     WhisperTranscriber.get_output_path (isfile (fs w) in_path) (world r_language) in
   let r_order := get_order_criterion (world r_out) in
   let run := WhisperTranscriber.main env w in
   let asked tail :=
     (events r_device ++ events r_name ++ events r_in ++ events r_language ++
      events r_out ++ tail)%list in
   outcome r_in = inr in_path ->
   outcome r_language = inr language ->
   outcome r_out = inr out_path ->
   (isfile (fs w) in_path = true ->
    let call :=
      WhisperTranscriber.transcribe_single_file env name device
        (Path.basename in_path) (Path.dirname in_path) out_path language
        (world r_out) in
    outcome run = outcome call /\
    world run = world call /\
    events run = asked (Print Separator :: events call) /\
    fs (world r_out) = fs w /\
    processed_files (events run) = [Path.basename in_path]) /\
   (forall order_criterion,
      isfile (fs w) in_path = false ->
      outcome r_order = inr order_criterion ->
      let call :=
        WhisperTranscriber.transcribe_multiple_files env name device in_path
          out_path language order_criterion (world r_order) in
      let ordered :=
        sort_files env in_path order_criterion
          (supported_files env WhisperTranscriber.extensions (fs w) in_path) in
      outcome run = outcome call /\
      world run = world call /\
      events run = asked (events r_order ++ Print Separator :: events call)%list /\
      fs (world r_order) = fs w /\
      processed_files (events run) `prefix_of` ordered /\
      (outcome run = inr tt -> processed_files (events run) = ordered))).
Proof.
  cbv zeta. intros Ha Hn. split.
  - intros Hi Hl Ho. split.
    + intros Hsingle.
      destruct (T_main_single env w answ name in_path language out_path
                  Ha Hn Hi Hl Ho Hsingle) as (H1 & H2 & H3).
      split; [exact H1|]. split; [exact H2|]. split; [exact H3|].
      split; [now fs_of_run|].
      rewrite H3. unfold processed_files. rewrite !omap_app. omap_of_asks.
      rewrite !omap_cons. cbn [header_of app]. rewrite !omap_app. omap_of_asks.
      rewrite omap_cons. cbn [header_of app].
      apply T_single_headers.
    + intros order_criterion Hsingle Horder.
      destruct (T_main_batch env w answ name in_path language out_path
                  Ha Hn Hi Hl Ho order_criterion Hsingle Horder) as (H1 & H2 & H3).
      assert (Hfs : fs (world (get_order_criterion (world (Transcriber.get_output_path
                      (isfile (fs w) in_path) (world (get_language (world
                        (Transcriber.get_input_path (bump_model (world (get_model_name
                          (world (user_device_choice w)))))))))))))
                    = fs w) by now fs_of_run.
      split; [exact H1|]. split; [exact H2|]. split; [exact H3|].
      split; [exact Hfs|].
      assert (Hp : processed_files (events (Transcriber.main env w)) =
                   processed_files (events (Transcriber.transcribe_multiple_files env
                     (Model (next_model w) name
                        (if String.eqb answ "N" then "cpu" else get_device env))
                     in_path out_path language order_criterion
                     (world (get_order_criterion (world (Transcriber.get_output_path
                        (isfile (fs w) in_path) (world (get_language (world
                          (Transcriber.get_input_path (bump_model (world (get_model_name
                            (world (user_device_choice w)))))))))))))))).
      { rewrite H3. unfold processed_files. rewrite !omap_app. omap_of_asks.
        rewrite !omap_cons. cbn [header_of app]. rewrite !omap_app. omap_of_asks.
        rewrite omap_cons. cbn [header_of app]. reflexivity. }
      rewrite Hp, H1. clear H1 H2 H3 Hp.
      match type of Hfs with
      | fs ?w7 = _ =>
          pose proof (T_batch_headers_prefix env
                        (Model (next_model w) name
                           (if String.eqb answ "N" then "cpu" else get_device env))
                        in_path out_path language order_criterion w7) as Hpre;
          pose proof (T_batch_headers env
                        (Model (next_model w) name
                           (if String.eqb answ "N" then "cpu" else get_device env))
                        in_path out_path language order_criterion w7) as Heq;
          generalize dependent w7
      end.
      intros w7 Hfs. rewrite Hfs. auto.
  - intros Hi Hl Ho. split.
    + intros Hsingle.
      destruct (W_main_single env w answ name in_path language out_path
                  Ha Hn Hi Hl Ho Hsingle) as (H1 & H2 & H3).
      split; [exact H1|]. split; [exact H2|]. split; [exact H3|].
      split; [now fs_of_run|].
      rewrite H3. unfold processed_files. rewrite !omap_app. omap_of_asks.
      rewrite omap_cons. cbn [header_of app].
      apply W_single_headers.
    + intros order_criterion Hsingle Horder.
      destruct (W_main_batch env w answ name in_path language out_path
                  Ha Hn Hi Hl Ho order_criterion Hsingle Horder) as (H1 & H2 & H3).
      assert (Hfs : fs (world (get_order_criterion (world
                      (WhisperTranscriber.get_output_path
                      (isfile (fs w) in_path) (world (get_language (world
                        (WhisperTranscriber.get_input_path (world (get_model_name
                          (world (user_device_choice w))))))))))))
                    = fs w) by now fs_of_run.
      split; [exact H1|]. split; [exact H2|]. split; [exact H3|].
      split; [exact Hfs|].
      assert (Hp : processed_files (events (WhisperTranscriber.main env w)) =
                   processed_files (events (WhisperTranscriber.transcribe_multiple_files
                     env name (if String.eqb answ "N" then "cpu" else get_device env)
                     in_path out_path language order_criterion
                     (world (get_order_criterion (world
                        (WhisperTranscriber.get_output_path
                        (isfile (fs w) in_path) (world (get_language (world
                          (WhisperTranscriber.get_input_path (world (get_model_name
                            (world (user_device_choice w))))))))))))))).
      { rewrite H3. unfold processed_files. rewrite !omap_app. omap_of_asks.
        rewrite omap_cons. cbn [header_of app]. reflexivity. }
      rewrite Hp, H1. clear H1 H2 H3 Hp.
      match type of Hfs with
      | fs ?w7 = _ =>
          pose proof (W_batch_headers_prefix env name
                        (if String.eqb answ "N" then "cpu" else get_device env)
                        in_path out_path language order_criterion w7) as Hpre;
          pose proof (W_batch_headers env name
                        (if String.eqb answ "N" then "cpu" else get_device env)
                        in_path out_path language order_criterion w7) as Heq;
          generalize dependent w7
      end.
      intros w7 Hfs. rewrite Hfs. auto.
Qed.

(** The sample run: a directory, ordered by the number in the name. *)
Lemma completed_run_processes_the_input_witness :
  processed_files (events (Transcriber.main sample_env sample_world)) =
    ["c(9).mp3"; "d(9).MKV"; "b(10).wav"; "a.mkv"] /\
  processed_files (events (WhisperTranscriber.main sample_env sample_world)) =
    ["c(9).mp3"; "d(9).MKV"; "b(10).wav"; "a.mkv"] /\
  processed_files
    (events (Transcriber.main sample_env
               (set_stdin sample_world ["n"; "base"; "/in/meeting.wav"; "English";
                                        "/out"]))) = ["meeting.wav"].
Proof.
  split; [|split].
  - destruct (proj1 (completed_run_processes_the_input sample_env sample_world
                       "Y" "tiny" "/in" "Italian" "/out" eq_refl eq_refl)
                    eq_refl eq_refl eq_refl) as [_ Hb].
    destruct (Hb "5" eq_refl eq_refl) as (_ & _ & _ & _ & _ & He).
    exact (He eq_refl).
  - destruct (proj2 (completed_run_processes_the_input sample_env sample_world
                       "Y" "tiny" "/in" "Italian" "/out" eq_refl eq_refl)
                    eq_refl eq_refl eq_refl) as [_ Hb].
    destruct (Hb "5" eq_refl eq_refl) as (_ & _ & _ & _ & _ & He).
    exact (He eq_refl).
  - destruct (proj1 (completed_run_processes_the_input sample_env
                       (set_stdin sample_world ["n"; "base"; "/in/meeting.wav";
                                                "English"; "/out"])
                       "N" "base" "/in/meeting.wav" "English" "/out" eq_refl eq_refl)
                    eq_refl eq_refl eq_refl) as [Hs _].
    destruct (Hs eq_refl) as (_ & _ & _ & _ & He).
    exact He.
Defined.
(** ** The batch, further *)

(** X18. In a batch of transcriber.py the model is called once per file, in
    the order of processing, each time on the instance the batch was given:
    on the [.mp3] sibling for an extension of the conversion subset, on the
    file itself otherwise.  The calls made are a prefix of that sequence,
    and the whole of it when the batch runs to its end, which it does
    whenever the converter can be started. *)
Theorem batch_calls_model_once_per_file_in_order
    (env : Env) (m : model) (in_path out_path language order_criterion : string)
    (w : World) :
  let batch :=
    Transcriber.transcribe_multiple_files env m in_path out_path language
      order_criterion w in
  let calls :=
    List.map
      (fun file =>
         (m, if str_in (Str.lower (Path.splitext file).2)
                       Transcriber.EXTENSIONS_REQUIRING_CONVERSION
             then Path.join in_path ((Path.splitext file).1 ++ ".mp3")
             else Path.join in_path file))
      (sort_files env in_path order_criterion
         (supported_files env Transcriber.EXTENSIONS_SUPPORTED (fs w) in_path)) in
  model_calls (events batch) `prefix_of` calls /\
  (outcome batch = inr tt -> model_calls (events batch) = calls) /\
  (converter_starts env -> outcome batch = inr tt).
Proof.
  cbv zeta. rewrite T_batch_run. split; [|split].
  - apply T_loop_calls_prefix. intros x. apply sorted_supported.
  - apply T_loop_calls. intros x. apply sorted_supported.
  - intros Hs. rewrite <- T_batch_run.
    apply never_raises_tt, T_batch_never_raises, Hs.
Qed.

Lemma batch_calls_model_once_per_file_in_order_witness :
  model_calls
    (events (Transcriber.transcribe_multiple_files sample_env (Model 0 "tiny" "cpu")
               "/in" "/out" "Italian" "5" sample_world)) =
  [(Model 0 "tiny" "cpu", "/in/c(9).mp3"); (Model 0 "tiny" "cpu", "/in/d(9).mp3");
   (Model 0 "tiny" "cpu", "/in/b(10).wav"); (Model 0 "tiny" "cpu", "/in/a.mp3")].
Proof.
  destruct (batch_calls_model_once_per_file_in_order sample_env (Model 0 "tiny" "cpu")
              "/in" "/out" "Italian" "5" sample_world) as (_ & He & Hs).
  exact (He (Hs sample_env_starts)).
Defined.

(** X19. Every model call of a batch is made with the configured language,
    in both scripts; in whisper_transcriber.py every instance loaded has
    the configured model name and device. *)
Theorem batch_uses_the_configuration
    (env : Env) (in_path out_path language order_criterion : string) (w : World) :
  (forall m,
     Forall (fun e => forall m' path l, e = Transcribe m' path l -> l = language)
       (events (Transcriber.transcribe_multiple_files env m in_path out_path language
                  order_criterion w))) /\
  (forall model_name device,
     Forall (fun e =>
               (forall m' path l, e = Transcribe m' path l -> l = language) /\
               (forall m', e = LoadModel m' ->
                           m_name m' = model_name /\ m_device m' = device))
       (events (WhisperTranscriber.transcribe_multiple_files env model_name device
                  in_path out_path language order_criterion w))).
Proof.
  split.
  - intros m. apply T_batch_emits; cbv beta; intros; try discriminate.
    match goal with
    | H : Transcribe _ _ _ = Transcribe _ _ _ |- _ => now injection H
    end.
  - intros model_name device.
    apply W_batch_emits; cbv beta; intros; (split; intros); try discriminate.
    + match goal with
      | H : LoadModel _ = LoadModel _ |- _ => now injection H as <-
      end.
    + match goal with
      | H : Transcribe _ _ _ = Transcribe _ _ _ |- _ => now injection H
      end.
Qed.

(** X20. A batch of whisper_transcriber.py loads one instance for each
    file it processes, in order: their identifiers are the consecutive
    numbers from the first free one, so no two loads share an instance.  A
    batch that runs to its end, as it does whenever the converter can be
    started, loads as many instances as the filtered listing has files. *)
Theorem whisper_batch_loads_consecutive_instances
    (env : Env) (model_name device in_path out_path language order_criterion : string)
    (w : World) :
  let N := length (supported_files env WhisperTranscriber.extensions (fs w) in_path) in
  let batch :=
    WhisperTranscriber.transcribe_multiple_files env model_name device in_path
      out_path language order_criterion w in
  let ms := loads (events batch) in
  ms = List.map (fun i => Model i model_name device)
         (seq (next_model w) (length (processed_files (events batch)))) /\
  NoDup (List.map m_id ms) /\
  (length ms <= N)%nat /\
  (outcome batch = inr tt ->
   ms = List.map (fun i => Model i model_name device) (seq (next_model w) N)) /\
  (converter_starts env -> outcome batch = inr tt).
Proof.
  cbv zeta.
  pose proof (W_batch_loads env model_name device in_path out_path language
                order_criterion w) as Hl. cbv zeta in Hl.
  split; [exact Hl|]. split; [|split; [|split]].
  - rewrite Hl, List.map_map. cbn [m_id]. rewrite List.map_id.
    apply NoDup_ListNoDup, List.seq_NoDup.
  - rewrite Hl, length_map, length_seq. apply W_batch_count_le.
  - intros Ho. rewrite Hl. now rewrite (W_batch_count _ _ _ _ _ _ _ _ Ho).
  - intros Hs. apply never_raises_tt, W_batch_never_raises, Hs.
Qed.

Lemma whisper_batch_loads_consecutive_instances_witness :
  loads (events (WhisperTranscriber.transcribe_multiple_files sample_env "tiny" "cpu"
                   "/in" "/out" "Italian" "5" sample_world)) =
  [Model 0 "tiny" "cpu"; Model 1 "tiny" "cpu"; Model 2 "tiny" "cpu";
   Model 3 "tiny" "cpu"].
Proof.
  destruct (whisper_batch_loads_consecutive_instances sample_env "tiny" "cpu"
              "/in" "/out" "Italian" "5" sample_world) as (_ & _ & _ & He & Hs).
  exact (He (Hs sample_env_starts)).
Defined.

(** ** The extension tables *)

(** X21. The format router sorts an extension into one of three classes.
    The two scripts hold the same allow-list and the same conversion
    subset; the conversion subset lies inside the allow-list; every entry
    is in lower case, so the lower-cased extension of a file can match it;
    and the extensions transcribed without conversion are the eight
    listed. *)
Theorem extension_tables_agree :
  Transcriber.EXTENSIONS_SUPPORTED = WhisperTranscriber.extensions /\
  Transcriber.EXTENSIONS_REQUIRING_CONVERSION =
    WhisperTranscriber.unsupported_extensions /\
  (forall e, In e Transcriber.EXTENSIONS_REQUIRING_CONVERSION ->
             In e Transcriber.EXTENSIONS_SUPPORTED) /\
  (forall e, In e Transcriber.EXTENSIONS_SUPPORTED -> Str.lower e = e) /\
  List.filter (fun e => negb (str_in e Transcriber.EXTENSIONS_REQUIRING_CONVERSION))
              Transcriber.EXTENSIONS_SUPPORTED =
    [".mp3"; ".mp4"; ".mpeg"; ".mpg"; ".mpga"; ".m4a"; ".wav"; ".webm"].
Proof.
  split; [reflexivity|]. split; [reflexivity|]. split; [|split].
  - intros e He. apply str_in_In, T_conversion_subset, str_in_In, He.
  - intros e He. unfold Transcriber.EXTENSIONS_SUPPORTED in He. cbn [In] in He.
    repeat (destruct He as [<-|He]; [reflexivity|]). destruct He.
  - reflexivity.
Qed.

Lemma extension_tables_agree_witness :
  In ".mkv" Transcriber.EXTENSIONS_SUPPORTED /\ Str.lower ".wav" = ".wav".
Proof.
  destruct extension_tables_agree as (_ & _ & H1 & H2 & _).
  split.
  - apply H1. vm_compute. tauto.
  - apply H2. vm_compute. tauto.
Defined.

Lemma batch_uses_the_configuration_witness :
  Forall (fun e => forall m' path l, e = Transcribe m' path l -> l = "Italian")
    (events (Transcriber.transcribe_multiple_files sample_env (Model 0 "tiny" "cpu")
               "/in" "/out" "Italian" "5" sample_world)).
Proof.
  apply (proj1 (batch_uses_the_configuration sample_env "/in" "/out" "Italian" "5"
                  sample_world)).
Defined.

